(** * Bitbucket MCP server: pagination, client errors and response formatting

    A shallow embedding of the request/response translation pipeline of
    primrose-mcp-bitbucket:

    - [utils/pagination.ts]: [normalizePaginationParams],
      [convertPaginatedResponse], [buildPaginationQuery];
    - [client.ts]: [getAuthHeaders], [request], [requestRaw],
      [createBitbucketClient], [testConnection] and the queries of
      [listCommits] and [listPullRequests];
    - [types/env.ts]: [parseTenantCredentials], [validateCredentials],
      [getEnvNumber] and the three settings read with it;
    - [utils/formatters.ts]: [formatResponse], [formatError] and the
      markdown tables;
    - [tools/*.ts]: the try/catch shapes of the tool handlers and the
      page-size schema of the list tools;
    - [index.ts]: the credential check in front of the [/mcp] endpoint
      and the connection-test tool.

    Conventions of the embedding.

    - A JavaScript string is a sequence of UTF-16 code units.  The model
      uses [string], one [ascii] per code unit, so it covers the strings
      whose code units are below 256; [length], [substring] and [split]
      count code units exactly as the source does.
    - A JavaScript number is modelled as an integer ([Z]); [JsNumber] adds
      [NaN] for the results of [parseInt] and of numeric coercion.  Where
      a number that is not whole matters (the page size a tool is called
      with), it is a rational ([Q]).
    - Code that can throw returns a [result]: [Ret v] for normal completion,
      [Throw e] for an exception.  [try_catch] is the [try]/[catch] block. *)

From Stdlib Require Import ZArith QArith String Ascii List Bool Lia
  DecimalString DecimalPos.
Import ListNotations.

Local Open Scope string_scope.
Local Open Scope Z_scope.

Set Implicit Arguments.

(* ================================================================== *)
(** * JavaScript values and the coercions the sources rely on          *)
(* ================================================================== *)

Module Js.

(** ** Strings *)

Definition LF : string := String (ascii_of_nat 10) EmptyString.

(** [n.toString()] / template-literal text of an integer. *)
Definition Z_to_string (z : Z) : string := NilZero.string_of_int (Z.to_int z).

(** [s.length] *)
Definition strlen (s : string) : Z := Z.of_nat (String.length s).

(** [s.substring(0, n)] for a literal [n >= 0]. *)
Fixpoint take (n : nat) (s : string) : string :=
  match n, s with
  | O, _ => EmptyString
  | S _, EmptyString => EmptyString
  | S n', String c s' => String c (take n' s')
  end.

(** [s.split('\n')[0]]: the code units before the first line feed. *)
Fixpoint first_line (s : string) : string :=
  match s with
  | EmptyString => EmptyString
  | String c s' =>
      if Ascii.eqb c (ascii_of_nat 10) then EmptyString
      else String c (first_line s')
  end.

(** [parts.join(sep)] on an array of strings. *)
Definition join (sep : string) (parts : list string) : string :=
  String.concat sep parts.

(** [hay.includes(needle)] *)
Fixpoint includes (needle hay : string) : bool :=
  String.prefix needle hay ||
  match hay with
  | EmptyString => false
  | String _ hay' => includes needle hay'
  end.

Definition is_upper (c : ascii) : bool :=
  let n := nat_of_ascii c in (65 <=? n)%nat && (n <=? 90)%nat.

Definition is_lower (c : ascii) : bool :=
  let n := nat_of_ascii c in (97 <=? n)%nat && (n <=? 122)%nat.

Definition is_digit (c : ascii) : bool :=
  let n := nat_of_ascii c in (48 <=? n)%nat && (n <=? 57)%nat.

(** [c.toUpperCase()] and [c.toLowerCase()] on one code unit; exact on
    ASCII, which is all the sources feed them (entity-kind literals, JSON
    keys, header names); other code units are left as they are. *)
Definition upper_char (c : ascii) : ascii :=
  if is_lower c then ascii_of_nat (nat_of_ascii c - 32) else c.

Definition lower_char (c : ascii) : ascii :=
  if is_upper c then ascii_of_nat (nat_of_ascii c + 32) else c.

Fixpoint map_string (f : ascii -> ascii) (s : string) : string :=
  match s with
  | EmptyString => EmptyString
  | String c s' => String (f c) (map_string f s')
  end.

Definition toLowerCase : string -> string := map_string lower_char.

(** White space of [String.prototype.trim] and of [parseInt], among the
    code units below 256: TAB, LF, VT, FF, CR, SPACE, NBSP. *)
Definition is_space (c : ascii) : bool :=
  let n := nat_of_ascii c in
  ((9 <=? n)%nat && (n <=? 13)%nat) || (n =? 32)%nat || (n =? 160)%nat.

Fixpoint trimStart (s : string) : string :=
  match s with
  | EmptyString => EmptyString
  | String c s' => if is_space c then trimStart s' else s
  end.

Fixpoint rev_string_onto (s acc : string) : string :=
  match s with
  | EmptyString => acc
  | String c s' => rev_string_onto s' (String c acc)
  end.

Definition rev_string (s : string) : string := rev_string_onto s EmptyString.

Definition trim (s : string) : string :=
  rev_string (trimStart (rev_string (trimStart s))).

(** ** Numbers *)

Inductive JsNumber : Type :=
| NaN
| Num (z : Z).

Definition Number_to_string (n : JsNumber) : string :=
  match n with
  | NaN => "NaN"
  | Num z => Z_to_string z
  end.

Definition digit_value (c : ascii) : Z := Z.of_nat (nat_of_ascii c - 48).

(** The digits at the head of [s], read in base ten onto [acc]; [seen]
    records whether a digit was read at all. *)
Fixpoint read_digits (s : string) (acc : Z) (seen : bool) : Z * bool :=
  match s with
  | EmptyString => (acc, seen)
  | String c s' =>
      if is_digit c then read_digits s' (10 * acc + digit_value c) true
      else (acc, seen)
  end.

(** [Number.parseInt(s, 10)]: leading white space is skipped, one sign is
    accepted, then the longest run of decimal digits is read and whatever
    follows is ignored; with no digit the result is [NaN].  The number
    read is the exact integer; the source's is the double nearest to it,
    which is the same number up to [2^53] in magnitude and a rounded one
    beyond. *)
Definition parseInt (s : string) : JsNumber :=
  let body := trimStart s in
  let '(negative, digits) :=
    match body with
    | String "-" r => (true, r)
    | String "+" r => (false, r)
    | _ => (false, body)
    end in
  match read_digits digits 0 false with
  | (n, true) => Num (if negative then - n else n)
  | (_, false) => NaN
  end.

(** ** Values *)

(** A JSON-like value.  [VObj] lists the own enumerable properties in the
    order [Object.keys] reports them, each key once.  [VUndefined] is what
    a missing field reads as, and what [request] returns on 204. *)
#[warnings="-register-all"]
Inductive Value : Type :=
| VUndefined
| VNull
| VBool (b : bool)
| VNum (z : Z)
| VStr (s : string)
| VArr (items : list Value)
| VObj (props : list (string * Value)).

(** ** Exceptions *)

(** What the sources throw.  The three classes of [utils/errors.ts] are
    recorded with the arguments their constructors receive in [client.ts];
    [TypeError] is the engine's (reading a field of [undefined], calling a
    method a value does not have, converting an object without a usable
    [toString]), and its message text is engine-specific, so the texts
    below only describe the cause.  [OtherError] is any other [Error]
    instance (a fetch rejection, the [SyntaxError] of [response.json()]),
    [ThrownValue] a thrown value that is not an [Error], given by the text
    [String()] produces for it. *)
Inductive Thrown : Type :=
| AuthenticationError (message : string)
| RateLimitError (message : string) (retryAfterSeconds : JsNumber)
| BitbucketApiError (message : Value) (statusCode : Z)
| TypeError (message : string)
| OtherError (name message : string)
| ThrownValue (text : string).

Inductive result (A : Type) : Type :=
| Ret (a : A)
| Throw (e : Thrown).

Arguments Ret {A} a.
Arguments Throw {A} e.

Definition bind {A B : Type} (m : result A) (k : A -> result B) : result B :=
  match m with
  | Ret a => k a
  | Throw e => Throw e
  end.

(** [try { body } catch (error) { handler(error) }] *)
Definition try_catch {A : Type} (body : result A) (handler : Thrown -> result A)
  : result A :=
  match body with
  | Ret a => Ret a
  | Throw e => handler e
  end.

(** A computation that, if it throws, throws a [TypeError]. *)
Definition type_errors_only {A : Type} (m : result A) : Prop :=
  match m with
  | Ret _ => True
  | Throw e => exists message, e = TypeError message
  end.

End Js.

Export Js.

Notation "'do' x <- m ; k" := (bind m (fun x => k))
  (at level 10, x name, m at level 100, k at level 200).

(** ** Reading values *)

Module JsValue.

(** Truthiness, as tested by [if], [?:], [||] and [!]. *)
Definition truthy (v : Value) : bool :=
  match v with
  | VUndefined | VNull => false
  | VBool b => b
  | VNum z => negb (z =? 0)
  | VStr s => negb (String.eqb s "")
  | VArr _ | VObj _ => true
  end.

(** [a || b] *)
Definition or_else (a b : Value) : Value := if truthy a then a else b.

(** [v === null || v === undefined] *)
Definition nullish (v : Value) : bool :=
  match v with
  | VUndefined | VNull => true
  | _ => false
  end.

Fixpoint lookup (k : string) (props : list (string * Value)) : option Value :=
  match props with
  | [] => None
  | (k', v) :: rest => if String.eqb k k' then Some v else lookup k rest
  end.

Definition has_own (k : string) (props : list (string * Value)) : bool :=
  match lookup k props with Some _ => true | None => false end.

(** [v.field] for the field names the formatters and the client read.
    None of those names is a member of a built-in prototype nor [length],
    so the read yields the own property of an object, [undefined] on any
    other value that can be read from, and throws on [null] and
    [undefined]. *)
Definition get (v : Value) (field : string) : result Value :=
  match v with
  | VUndefined | VNull =>
      Throw (TypeError ("Cannot read properties of null or undefined (reading '"
                        ++ field ++ "')"))
  | VObj props =>
      Ret (match lookup field props with Some x => x | None => VUndefined end)
  | _ => Ret VUndefined
  end.

(** [v?.field] *)
Definition get_opt (v : Value) (field : string) : Value :=
  match v with
  | VObj props =>
      match lookup field props with Some x => x | None => VUndefined end
  | _ => VUndefined
  end.

Definition cannot_convert : Thrown :=
  TypeError "Cannot convert object to primitive value".

(** [String(v)], also the text a template literal gives [v].  An array is
    joined with commas, [null] and [undefined] elements giving the empty
    text.  A plain object inherits [Object.prototype.toString] and reads
    "[object Object]", unless it has an own property named [toString]: a
    JSON value is never callable, so the conversion finds no usable method
    and throws. *)
Fixpoint ToString (v : Value) : result string :=
  match v with
  | VUndefined => Ret "undefined"
  | VNull => Ret "null"
  | VBool b => Ret (if b then "true" else "false")
  | VNum z => Ret (Z_to_string z)
  | VStr s => Ret s
  | VArr items =>
      let element (x : Value) : result string :=
        match x with
        | VUndefined | VNull => Ret ""
        | _ => ToString x
        end in
      (fix joined (l : list Value) : result string :=
         match l with
         | [] => Ret ""
         | [x] => element x
         | x :: rest =>
             do s <- element x;
             do t <- joined rest;
             Ret (s ++ "," ++ t)
         end) items
  | VObj props =>
      if has_own "toString" props then Throw cannot_convert
      else Ret "[object Object]"
  end.

(** [ToPrimitive(v)] as applied by [new Date(v)] and by arithmetic: a
    primitive is kept, an array or object is converted to its text. *)
Definition ToPrimitive (v : Value) : result Value :=
  match v with
  | VArr _ | VObj _ => do s <- ToString v; Ret (VStr s)
  | _ => Ret v
  end.

(** [v.substring(0, n)]: only a string has the method. *)
Definition substring0 (n : nat) (v : Value) : result string :=
  match v with
  | VStr s => Ret (take n s)
  | VUndefined | VNull =>
      Throw (TypeError "Cannot read properties of null or undefined (reading 'substring')")
  | _ => Throw (TypeError "substring is not a function")
  end.

Fixpoint index_keys (n : nat) (from : nat) : list string :=
  match n with
  | O => []
  | S n' => Z_to_string (Z.of_nat from) :: index_keys n' (S from)
  end.

Fixpoint string_units (s : string) : list Value :=
  match s with
  | EmptyString => []
  | String c s' => VStr (String c EmptyString) :: string_units s'
  end.

(** [Object.keys(v)] *)
Definition Object_keys (v : Value) : result (list string) :=
  match v with
  | VUndefined | VNull =>
      Throw (TypeError "Cannot convert undefined or null to object")
  | VObj props => Ret (map fst props)
  | VArr items => Ret (index_keys (List.length items) 0)
  | VStr s => Ret (index_keys (String.length s) 0)
  | VBool _ | VNum _ => Ret []
  end.

Fixpoint lookup_index (k : string) (items : list Value) (from : nat) : option Value :=
  match items with
  | [] => None
  | x :: rest =>
      if String.eqb k (Z_to_string (Z.of_nat from)) then Some x
      else lookup_index k rest (S from)
  end.

(** The own property [v[k]] of a value that can be read from: a field of an
    object, an element or the [length] of an array or string. *)
Definition own_property (v : Value) (k : string) : option Value :=
  match v with
  | VObj props => lookup k props
  | VArr items =>
      if String.eqb k "length" then Some (VNum (Z.of_nat (List.length items)))
      else lookup_index k items 0
  | VStr s =>
      if String.eqb k "length" then Some (VNum (strlen s))
      else lookup_index k (string_units s) 0
  | _ => None
  end.

End JsValue.

Export JsValue.

(** ** Built-ins left abstract *)

(** The built-ins whose result depends on the host (locale, time zone,
    engine) or whose text is of no concern here.  Each is total on the
    values of the model. *)
Class Runtime : Type := {
  (** [JSON.stringify(v, null, 2)]; [None] is [undefined], the result for
      [undefined] itself. *)
  JSON_stringify : Value -> option string;
  (** [JSON.parse(text)]; [None] is a [SyntaxError]. *)
  JSON_parse : string -> option Value;
  (** [new Date(p).toLocaleDateString()] for a primitive [p]. *)
  toLocaleDateString : Value -> string;
  (** [Number(s)] for a string. *)
  StringToNumber : string -> JsNumber;
  (** [String(v[k])] when [k] names a member [v] inherits from its prototype
      chain ([constructor], [toString], ...), [None] when it names none. *)
  inheritedText : Value -> string -> option string;
}.

(** ** Built-ins written out *)

Module Encoding.

Definition hex_digit (n : nat) : ascii :=
  match String.get n "0123456789ABCDEF" with
  | Some c => c
  | None => "0"%char
  end.

Definition percent (byte : nat) : string :=
  String "%" (String (hex_digit (byte / 16)) (String (hex_digit (byte mod 16)) EmptyString)).

(** Characters [encodeURIComponent] leaves alone. *)
Definition unreserved (c : ascii) : bool :=
  is_upper c || is_lower c || is_digit c ||
  match String.index 0 (String c EmptyString) "-_.!~*'()" with
  | Some _ => true
  | None => false
  end.

(** [encodeURIComponent(s)]: every other code unit is written as the
    percent-escaped bytes of its UTF-8 encoding (one byte below 128, two
    from 128 to 255). *)
Fixpoint encodeURIComponent (s : string) : string :=
  match s with
  | EmptyString => EmptyString
  | String c s' =>
      let n := nat_of_ascii c in
      (if unreserved c then String c EmptyString
       else if (n <? 128)%nat then percent n
       else percent (192 + n / 64) ++ percent (128 + n mod 64))
      ++ encodeURIComponent s'
  end.

Definition b64 (n : nat) : ascii :=
  match String.get n
          "ABCDEFGHIJKLMNOPQRSTUVWXYZabcdefghijklmnopqrstuvwxyz0123456789+/" with
  | Some c => c
  | None => "="%char
  end.

(** [btoa(s)]: base64 of a string of code units below 256. *)
Fixpoint btoa (s : string) : string :=
  match s with
  | EmptyString => EmptyString
  | String a EmptyString =>
      let x := nat_of_ascii a in
      String (b64 (x / 4)) (String (b64 (x mod 4 * 16)) "==")
  | String a (String b EmptyString) =>
      let x := nat_of_ascii a in
      let y := nat_of_ascii b in
      String (b64 (x / 4))
        (String (b64 (x mod 4 * 16 + y / 16))
           (String (b64 (y mod 16 * 4)) "="))
  | String a (String b (String c rest)) =>
      let x := nat_of_ascii a in
      let y := nat_of_ascii b in
      let z := nat_of_ascii c in
      String (b64 (x / 4))
        (String (b64 (x mod 4 * 16 + y / 16))
           (String (b64 (y mod 16 * 4 + z / 64))
              (String (b64 (z mod 64)) (btoa rest))))
  end.

End Encoding.

Export Encoding.

(* ================================================================== *)
(** * types/entities.ts: the pagination shapes                         *)
(* ================================================================== *)

Module PaginationParams.

(** [interface PaginationParams]: every field optional. *)
Record t : Type := mk {
  pagelen : option Z;
  page : option Z;
  q : option string;
  sort : option string;
}.

End PaginationParams.

Module BitbucketPaginatedResponse.

(** [interface BitbucketPaginatedResponse<T>]: the raw envelope. *)
Record t (T : Type) : Type := mk {
  size : option Z;
  page : option Z;
  pagelen : option Z;
  next : option string;
  previous : option string;
  values : list T;
}.

End BitbucketPaginatedResponse.

Module PaginatedResponse.

(** [interface PaginatedResponse<T>]: the normalized page. *)
Record t (T : Type) : Type := mk {
  items : list T;
  count : Z;
  total : option Z;
  hasMore : bool;
  nextCursor : option string;
}.

End PaginatedResponse.

(** Truthiness of an optional string: absent and the empty string are
    falsy. *)
Definition truthy_str (s : option string) : bool :=
  match s with
  | Some x => negb (String.eqb x "")
  | None => false
  end.

(** The text of an optional string inside a template literal. *)
Definition template_str (s : option string) : string :=
  match s with
  | Some x => x
  | None => "undefined"
  end.

(* ================================================================== *)
(** * utils/pagination.ts                                              *)
(* ================================================================== *)

Module Pagination.

Import PaginationParams.

Module PAGINATION_DEFAULTS.

Definition pagelen : Z := 20.

Definition maxPagelen : Z := 100.

End PAGINATION_DEFAULTS.

(** The result type of [normalizePaginationParams]: [pagelen] required. *)
Record NormalizedParams : Type := {
  n_pagelen : Z;
  n_page : option Z;
  n_q : option string;
  n_sort : option string;
}.

(** A normalized parameter set is a [PaginationParams] (structural typing). *)
Definition as_params (n : NormalizedParams) : PaginationParams.t :=
  {| pagelen := Some (n_pagelen n); page := n_page n; q := n_q n; sort := n_sort n |}.

(** [normalizePaginationParams(params?, maxPagelen = 100)]; an omitted
    argument is [None].  Page sizes are whole numbers here, as the schemas
    of the tools make them; [normalized_pagelen] below is the same page
    size on numbers that need not be whole. *)
Definition normalizePaginationParams
    (params : option PaginationParams.t) (maxPagelen : option Z)
  : NormalizedParams :=
  let maxPagelen :=
    match maxPagelen with
    | Some m => m
    | None => PAGINATION_DEFAULTS.maxPagelen
    end in
  let requested := match params with Some p => pagelen p | None => None end in
  {| n_pagelen :=
       Z.min (match requested with
              | Some z => if z =? 0 then PAGINATION_DEFAULTS.pagelen else z
              | None => PAGINATION_DEFAULTS.pagelen
              end)
             maxPagelen;
     n_page := match params with Some p => page p | None => None end;
     n_q := match params with Some p => q p | None => None end;
     n_sort := match params with Some p => sort p | None => None end |}.

(** [convertPaginatedResponse(response)] *)
Definition convertPaginatedResponse {T : Type}
    (response : BitbucketPaginatedResponse.t T) : PaginatedResponse.t T :=
  {| PaginatedResponse.items := BitbucketPaginatedResponse.values response;
     PaginatedResponse.count :=
       Z.of_nat (List.length (BitbucketPaginatedResponse.values response));
     PaginatedResponse.total := BitbucketPaginatedResponse.size response;
     PaginatedResponse.hasMore := truthy_str (BitbucketPaginatedResponse.next response);
     PaginatedResponse.nextCursor := BitbucketPaginatedResponse.next response |}.

(** [emptyPaginatedResponse()] *)
Definition emptyPaginatedResponse {T : Type} : PaginatedResponse.t T :=
  {| PaginatedResponse.items := [];
     PaginatedResponse.count := 0;
     PaginatedResponse.total := None;
     PaginatedResponse.hasMore := false;
     PaginatedResponse.nextCursor := None |}.

(** [if (value) queryParts.push(`name=${value}`)] for a number, and the
    same with [encodeURIComponent(value)] for a string. *)
Definition push_number (name : string) (value : option Z) : list string :=
  match value with
  | Some z => if z =? 0 then [] else [name ++ "=" ++ Z_to_string z]
  | None => []
  end.

Definition push_encoded (name : string) (value : option string) : list string :=
  match value with
  | Some s =>
      if String.eqb s "" then [] else [name ++ "=" ++ encodeURIComponent s]
  | None => []
  end.

(** The [queryParts] array of [buildPaginationQuery] after its four
    conditional pushes. *)
Definition queryParts (params : PaginationParams.t) : list string :=
  push_number "pagelen" (pagelen params) ++
  push_number "page" (page params) ++
  push_encoded "q" (q params) ++
  push_encoded "sort" (sort params).

(** [buildPaginationQuery(params?)] *)
Definition buildPaginationQuery (params : option PaginationParams.t) : string :=
  match params with
  | None => ""
  | Some p =>
      match queryParts p with
      | [] => ""
      | parts => "?" ++ join "&" parts
      end
  end.


(** The object [convertPaginatedResponse] returns, as a value: the literal
    has all five properties, [total] and [nextCursor] being [undefined]
    when the envelope has no [size] or [next]. *)
Definition page_value (page : PaginatedResponse.t Value) : Value :=
  VObj [("items", VArr (PaginatedResponse.items page));
        ("count", VNum (PaginatedResponse.count page));
        ("total", match PaginatedResponse.total page with
                  | Some n => VNum n
                  | None => VUndefined
                  end);
        ("hasMore", VBool (PaginatedResponse.hasMore page));
        ("nextCursor", match PaginatedResponse.nextCursor page with
                       | Some link => VStr link
                       | None => VUndefined
                       end)].

End Pagination.

Export Pagination.

(* ================================================================== *)
(** * types/env.ts: tenant credentials                                 *)
(* ================================================================== *)

Module Env.

(** [interface TenantCredentials] *)
Record TenantCredentials : Type := {
  username : option string;
  appPassword : option string;
  accessToken : option string;
  baseUrl : option string;
}.

(** HTTP headers as name/value pairs; [Headers.get] compares names without
    regard to ASCII case and joins repeated headers with a comma. *)
Definition Headers : Type := list (string * string).

Definition Headers_get (headers : Headers) (name : string) : option string :=
  match filter (fun h => String.eqb (toLowerCase (fst h)) (toLowerCase name)) headers with
  | [] => None
  | found => Some (join ", " (map snd found))
  end.

(** [headers.get(name) || undefined] *)
Definition or_undefined (value : option string) : option string :=
  if truthy_str value then value else None.

(** [parseTenantCredentials(request)], on the request's headers. *)
Definition parseTenantCredentials (headers : Headers) : TenantCredentials :=
  {| username := or_undefined (Headers_get headers "X-Bitbucket-Username");
     appPassword := or_undefined (Headers_get headers "X-Bitbucket-App-Password");
     accessToken := or_undefined (Headers_get headers "X-Bitbucket-Access-Token");
     baseUrl := or_undefined (Headers_get headers "X-Bitbucket-Base-URL") |}.

Definition missing_credentials : Thrown :=
  OtherError "Error"
    ("Missing credentials. Provide either X-Bitbucket-Username + X-Bitbucket-App-Password headers, "
     ++ "or X-Bitbucket-Access-Token header.").

(** [validateCredentials(credentials)] *)
Definition validateCredentials (credentials : TenantCredentials) : result unit :=
  let hasBasicAuth :=
    truthy_str (username credentials) && truthy_str (appPassword credentials) in
  let hasOAuth := truthy_str (accessToken credentials) in
  if negb hasBasicAuth && negb hasOAuth then Throw missing_credentials
  else Ret tt.

End Env.

Export Env.

(* ================================================================== *)
(** * client.ts                                                        *)
(* ================================================================== *)

Module Client.

Definition API_BASE_URL : string := "https://api.bitbucket.org/2.0".

(** The private fields of [BitbucketClientImpl]. *)
Record BitbucketClientImpl : Type := {
  credentials : TenantCredentials;
  client_baseUrl : string;
}.

(** [new BitbucketClientImpl(credentials)]: two assignments. *)
Definition constructor (creds : TenantCredentials) : BitbucketClientImpl :=
  {| credentials := creds;
     client_baseUrl :=
       if truthy_str (baseUrl creds)
       then match baseUrl creds with Some u => u | None => API_BASE_URL end
       else API_BASE_URL |}.

(** [createBitbucketClient(credentials)]; a [result], as a constructor
    call is an expression that could throw. *)
Definition createBitbucketClient (creds : TenantCredentials)
  : result BitbucketClientImpl :=
  Ret (constructor creds).

Definition no_credentials : Thrown :=
  AuthenticationError
    ("No credentials provided. Include X-Bitbucket-Username + X-Bitbucket-App-Password headers, "
     ++ "or X-Bitbucket-Access-Token header.").

(** [getAuthHeaders()] *)
Definition getAuthHeaders (this : BitbucketClientImpl) : result Headers :=
  let creds := credentials this in
  if truthy_str (accessToken creds) then
    Ret [("Authorization", "Bearer " ++ template_str (accessToken creds));
         ("Content-Type", "application/json")]
  else if truthy_str (username creds) && truthy_str (appPassword creds) then
    Ret [("Authorization",
          "Basic " ++ btoa (template_str (username creds) ++ ":"
                            ++ template_str (appPassword creds)));
         ("Content-Type", "application/json")]
  else Throw no_credentials.

(** [RequestInit], as far as the client uses it. *)
Record RequestInit : Type := {
  method : option string;
  headers : Headers;
  body : option string;
}.

Definition no_options : RequestInit :=
  {| method := None; headers := []; body := None |}.

(** What [fetch] is called with. *)
Record FetchCall : Type := {
  fetch_url : string;
  fetch_init : RequestInit;
}.

(** The [Response] of [fetch], as far as the client reads it. *)
Record Response : Type := {
  status : Z;
  response_headers : Headers;
  response_body : string;
}.

(** [response.ok] *)
Definition ok (response : Response) : bool :=
  (200 <=? status response) && (status response <=? 299).

(** The remote end: what [await fetch(url, init)] gives for each call, a
    response or a rejection. *)
Definition Network : Type := FetchCall -> result Response.

(** [{ ...a, ...b }] on string-valued objects: the keys of [a] in order,
    taking the value [b] gives them if any, then the keys only [b] has. *)
Definition spread (a b : Headers) : Headers :=
  (map (fun kv =>
          match find (fun h => String.eqb (fst h) (fst kv)) (rev b) with
          | Some h => (fst kv, snd h)
          | None => kv
          end) a
   ++ filter (fun h => negb (existsb (fun kv => String.eqb (fst kv) (fst h)) a)) b)%list.

Definition rate_limited (response : Response) : Thrown :=
  let retryAfter := Headers_get (response_headers response) "Retry-After" in
  RateLimitError "Rate limit exceeded"
    (if truthy_str retryAfter then parseInt (template_str retryAfter) else Num 60).

Definition authentication_failed : Thrown :=
  AuthenticationError "Authentication failed. Check your Bitbucket credentials.".

(** The message of the [BitbucketApiError] raised for a response that is
    not [ok]: the first truthy one of [errorJson.error?.message],
    [errorJson.message] and [errorJson.error], else the default; the
    default also when the body does not parse or reading it throws. *)
Definition api_error_message {runtime : Runtime} (response : Response) : Value :=
  let message := VStr ("API error: " ++ Z_to_string (status response)) in
  match JSON_parse (response_body response) with
  | None => message
  | Some errorJson =>
      match get errorJson "error" with
      | Throw _ => message
      | Ret error =>
          or_else (get_opt error "message")
            (or_else (get_opt errorJson "message") (or_else error message))
      end
  end.

(** What [request] does with the response once [fetch] has resolved. *)
Definition read_response {runtime : Runtime} (response : Response) : result Value :=
  if status response =? 429 then Throw (rate_limited response)
  else if (status response =? 401) || (status response =? 403) then
    Throw authentication_failed
  else if negb (ok response) then
    Throw (BitbucketApiError (api_error_message response) (status response))
  else if status response =? 204 then Ret VUndefined
  else
    let contentType :=
      match Headers_get (response_headers response) "content-type" with
      | Some t => t
      | None => ""
      end in
    if includes "text/plain" contentType || includes "text/x-diff" contentType
    then Ret (VStr (response_body response))
    else
      match JSON_parse (response_body response) with
      | Some v => Ret v
      | None => Throw (OtherError "SyntaxError" "Unexpected token in JSON")
      end.

(** The call [request] makes to [fetch], given the authentication headers. *)
Definition fetch_call (this : BitbucketClientImpl) (auth : Headers)
    (endpoint : string) (options : RequestInit) : FetchCall :=
  {| fetch_url := client_baseUrl this ++ endpoint;
     fetch_init := {| method := method options;
                      headers := spread auth (headers options);
                      body := body options |} |}.

(** [request<T>(endpoint, options = {})] against a given remote end:
    [getAuthHeaders()] is evaluated while the argument of [fetch] is built,
    so when it throws nothing is sent. *)
Definition request {runtime : Runtime} (this : BitbucketClientImpl) (net : Network)
    (endpoint : string) (options : RequestInit) : result Value :=
  do auth <- getAuthHeaders this;
  do response <- net (fetch_call this auth endpoint options);
  read_response response.

(** The call [requestRaw] makes to [fetch]:
    [{ ...auth, Accept: 'text/plain', ...(options.headers || {}) }]. *)
Definition raw_fetch_call (this : BitbucketClientImpl) (auth : Headers)
    (endpoint : string) (options : RequestInit) : FetchCall :=
  {| fetch_url := client_baseUrl this ++ endpoint;
     fetch_init := {| method := method options;
                      headers := spread (spread auth [("Accept", "text/plain")])
                                   (headers options);
                      body := body options |} |}.

(** What [requestRaw] does with the response: any status outside 2xx is a
    [BitbucketApiError] with the status in its message. *)
Definition read_raw_response (response : Response) : result string :=
  if negb (ok response) then
    Throw (BitbucketApiError
             (VStr ("API error: " ++ Z_to_string (status response)))
             (status response))
  else Ret (response_body response).

(** [requestRaw(endpoint, options = {})], behind [getFileContent],
    [getDiff], [getPullRequestDiff] and [getPipelineStepLog]. *)
Definition requestRaw (this : BitbucketClientImpl) (net : Network)
    (endpoint : string) (options : RequestInit) : result string :=
  do auth <- getAuthHeaders this;
  do response <- net (raw_fetch_call this auth endpoint options);
  read_raw_response response.

(** The call reaches the remote end and is answered 401 or 403. *)
Definition rejected (this : BitbucketClientImpl) (net : Network)
    (endpoint : string) (options : RequestInit) : Prop :=
  exists (auth : Headers) (response : Response),
    getAuthHeaders this = Ret auth
    /\ net (fetch_call this auth endpoint options) = Ret response
    /\ (status response = 401 \/ status response = 403).

(** The raw call reaches the remote end and is answered with the given
    status. *)
Definition answered_raw (this : BitbucketClientImpl) (net : Network)
    (endpoint : string) (options : RequestInit) (code : Z) : Prop :=
  exists (auth : Headers) (response : Response),
    getAuthHeaders this = Ret auth
    /\ net (raw_fetch_call this auth endpoint options) = Ret response
    /\ status response = code.

End Client.

Export Client.

(* ================================================================== *)
(** * utils/errors.ts, as far as the formatters use it                 *)
(* ================================================================== *)

(** [utils/errors.ts] is not among the sources.  What [formatError] reads
    of a caught error is therefore taken as given: whether it is an
    instance of [BitbucketApiError] (the class hierarchy), its [message],
    whether its [retryable] field is truthy, and the record
    [formatErrorForLogging] makes of it. *)
Class ErrorsModule : Type := {
  instanceof_BitbucketApiError : Thrown -> bool;
  error_message : Thrown -> string;
  error_retryable : Thrown -> bool;
  formatErrorForLogging : Thrown -> Value;
}.

(* ================================================================== *)
(** * utils/formatters.ts                                              *)
(* ================================================================== *)

Module Formatters.

(** [type ResponseFormat = 'json' | 'markdown'] *)
Inductive ResponseFormat : Type :=
| json
| markdown.

(** One element of [content]; its [type] is the constant ['text'].  [text]
    is a string by its declared type and [undefined] ([None]) where
    [JSON.stringify] yields that. *)
Record TextContent : Type := {
  text : option string;
}.

(** [interface ToolResponse] *)
Record ToolResponse : Type := {
  content : list TextContent;
  isError : option bool;
}.

(** [str.charAt(0).toUpperCase() + str.slice(1)] *)
Definition capitalize (str : string) : string :=
  match str with
  | EmptyString => EmptyString
  | String c rest => String (upper_char c) rest
  end.

(** [key.replace(/_/g, ' ')] *)
Definition underscores_to_spaces : string -> string :=
  map_string (fun c => if Ascii.eqb c "_" then " "%char else c).

(** [key.replace(/([A-Z])/g, ' $1')] *)
Fixpoint space_before_capitals (s : string) : string :=
  match s with
  | EmptyString => EmptyString
  | String c s' =>
      if is_upper c then String " " (String c (space_before_capitals s'))
      else String c (space_before_capitals s')
  end.

(** [key.replace(/^./, (str) => str.toUpperCase())]: the dot matches no
    line terminator. *)
Definition upper_first (s : string) : string :=
  match s with
  | EmptyString => EmptyString
  | String c rest =>
      if Ascii.eqb c (ascii_of_nat 10) || Ascii.eqb c (ascii_of_nat 13) then s
      else String (upper_char c) rest
  end.

(** [formatKey(key)] *)
Definition formatKey (key : string) : string :=
  trim (upper_first (space_before_capitals (underscores_to_spaces key))).

(** [entityType.replace(/s$/, '')] *)
Fixpoint drop_final_s (s : string) : string :=
  match s with
  | EmptyString => EmptyString
  | String c EmptyString => if Ascii.eqb c "s" then EmptyString else s
  | String c rest => String c (drop_final_s rest)
  end.

(** [for (const item of items) lines.push(row(item))], then
    [lines.join('\n')]: the loop every table formatter ends with. *)
Fixpoint push_rows (row : Value -> result string) (items : list Value)
    (lines : list string) : result (list string) :=
  match items with
  | [] => Ret lines
  | item :: rest =>
      do line <- row item;
      push_rows row rest (List.app lines [line])
  end.

Definition table (header rule : string) (row : Value -> result string)
    (items : list Value) : result string :=
  do lines <- push_rows row items [header; rule];
  Ret (join LF lines).

(** [`${v.field}`] *)
Definition field_text (v : Value) (field : string) : result string :=
  do x <- get v field; ToString x.

(** [array.join(sep)] on an array of values. *)
Definition element_text (x : Value) : result string :=
  match x with
  | VUndefined | VNull => Ret ""
  | _ => ToString x
  end.

Fixpoint Array_join (sep : string) (items : list Value) : result string :=
  match items with
  | [] => Ret ""
  | [x] => element_text x
  | x :: rest =>
      do s <- element_text x;
      do t <- Array_join sep rest;
      Ret (s ++ sep ++ t)
  end.

(** [user?.display_name || user?.username || '-'] *)
Definition account_name (user : Value) : Value :=
  or_else (get_opt user "display_name")
    (or_else (get_opt user "username") (VStr "-")).

Section WithRuntime.

Context {runtime : Runtime}.

(** [value ? new Date(value).toLocaleDateString() : '-'] *)
Definition date_cell (value : Value) : result string :=
  if truthy value then
    do p <- ToPrimitive value;
    Ret (toLocaleDateString p)
  else Ret "-".

(** [Number(v)], as applied by [/] and [%]. *)
Definition ToNumber (v : Value) : result JsNumber :=
  match v with
  | VUndefined => Ret NaN
  | VNull => Ret (Num 0)
  | VBool b => Ret (Num (if b then 1 else 0))
  | VNum z => Ret (Num z)
  | VStr s => Ret (StringToNumber s)
  | VArr _ | VObj _ => do s <- ToString v; Ret (StringToNumber s)
  end.

(** [`${Math.floor(d / 60)}m ${d % 60}s`] *)
Definition minutes_seconds (d : Value) : result string :=
  do n <- ToNumber d;
  let minutes := match n with NaN => NaN | Num z => Num (z / 60) end in
  do n' <- ToNumber d;
  let seconds := match n' with NaN => NaN | Num z => Num (Z.rem z 60) end in
  Ret (Number_to_string minutes ++ "m " ++ Number_to_string seconds ++ "s").

(** ** The table of each entity kind *)

Definition workspace_row (ws : Value) : result string :=
  do slug <- field_text ws "slug";
  do name <- field_text ws "name";
  do uuid <- field_text ws "uuid";
  Ret ("| " ++ slug ++ " | " ++ name ++ " | " ++ uuid ++ " |").

Definition formatWorkspacesTable : list Value -> result string :=
  table "| Slug | Name | UUID |" "|---|---|---|" workspace_row.

Definition repository_row (repo : Value) : result string :=
  do updated_on <- get repo "updated_on";
  do updated <- date_cell updated_on;
  do name <- field_text repo "name";
  do full_name <- field_text repo "full_name";
  do is_private <- get repo "is_private";
  do language <- get repo "language";
  do language_text <- ToString (or_else language (VStr "-"));
  Ret ("| " ++ name ++ " | " ++ full_name ++ " | "
       ++ (if truthy is_private then "Yes" else "No") ++ " | "
       ++ language_text ++ " | " ++ updated ++ " |").

Definition formatRepositoriesTable : list Value -> result string :=
  table "| Name | Full Name | Private | Language | Updated |"
        "|---|---|---|---|---|" repository_row.

Definition branch_row (branch : Value) : result string :=
  do target <- get branch "target";
  do commitHash <-
    (if truthy (get_opt target "hash")
     then substring0 7 (get_opt target "hash")
     else Ret "-");
  do name <- field_text branch "name";
  Ret ("| " ++ name ++ " | " ++ commitHash ++ " |").

Definition formatBranchesTable : list Value -> result string :=
  table "| Name | Target Commit |" "|---|---|" branch_row.

(** [(value || '-').split('\n')[0].substring(0, 50)] *)
Definition first_line_50 (value : Value) : result string :=
  match or_else value (VStr "-") with
  | VStr s => Ret (take 50 (first_line s))
  | _ => Throw (TypeError "split is not a function")
  end.

Definition commit_author (commit_author : Value) : Value :=
  or_else (get_opt commit_author "raw")
    (or_else (get_opt (get_opt commit_author "user") "display_name") (VStr "-")).

Definition commit_row (commit : Value) : result string :=
  do hash_value <- get commit "hash";
  do hash <- substring0 7 hash_value;
  do message_value <- get commit "message";
  do message <- first_line_50 message_value;
  do author_value <- get commit "author";
  let author := commit_author author_value in
  do date_value <- get commit "date";
  do date <- date_cell date_value;
  do author_text <- ToString author;
  Ret ("| " ++ hash ++ " | " ++ message ++ " | " ++ author_text ++ " | "
       ++ date ++ " |").

Definition formatCommitsTable : list Value -> result string :=
  table "| Hash | Message | Author | Date |" "|---|---|---|---|" commit_row.

(** [`${pr.source.branch.name} -> ${pr.destination.branch.name}`] *)
Definition branch_name (pr : Value) (endpoint : string) : result string :=
  do e <- get pr endpoint;
  do b <- get e "branch";
  field_text b "name".

Definition pull_request_row (pr : Value) : result string :=
  do author_value <- get pr "author";
  let author := account_name author_value in
  do source <- branch_name pr "source";
  do destination <- branch_name pr "destination";
  let branches := source ++ " -> " ++ destination in
  do id <- field_text pr "id";
  do title <- field_text pr "title";
  do state <- field_text pr "state";
  do author_text <- ToString author;
  Ret ("| #" ++ id ++ " | " ++ title ++ " | " ++ state ++ " | "
       ++ author_text ++ " | " ++ branches ++ " |").

Definition formatPullRequestsTable : list Value -> result string :=
  table "| ID | Title | State | Author | Source -> Dest |"
        "|---|---|---|---|---|" pull_request_row.

Definition issue_row (issue : Value) : result string :=
  do assignee_value <- get issue "assignee";
  let assignee := account_name assignee_value in
  do id <- field_text issue "id";
  do title <- field_text issue "title";
  do state <- field_text issue "state";
  do priority <- field_text issue "priority";
  do kind <- field_text issue "kind";
  do assignee_text <- ToString assignee;
  Ret ("| #" ++ id ++ " | " ++ title ++ " | " ++ state ++ " | " ++ priority
       ++ " | " ++ kind ++ " | " ++ assignee_text ++ " |").

Definition formatIssuesTable : list Value -> result string :=
  table "| ID | Title | State | Priority | Kind | Assignee |"
        "|---|---|---|---|---|---|" issue_row.

Definition pipeline_row (pipeline : Value) : result string :=
  do state_value <- get pipeline "state";
  let state := or_else (get_opt state_value "name") (VStr "-") in
  do target_value <- get pipeline "target";
  let target := or_else (get_opt target_value "ref_name") (VStr "-") in
  do seconds <- get pipeline "duration_in_seconds";
  do duration <- (if truthy seconds then minutes_seconds seconds else Ret "-");
  do created_on <- get pipeline "created_on";
  do created <- date_cell created_on;
  do build_number <- field_text pipeline "build_number";
  do state_text <- ToString state;
  do target_text <- ToString target;
  Ret ("| #" ++ build_number ++ " | " ++ state_text ++ " | " ++ target_text
       ++ " | " ++ duration ++ " | " ++ created ++ " |").

Definition formatPipelinesTable : list Value -> result string :=
  table "| Build # | State | Target | Duration | Created |"
        "|---|---|---|---|---|" pipeline_row.

(** [webhook.events?.join(', ') || '-'] *)
Definition events_cell (events : Value) : result string :=
  match events with
  | VUndefined | VNull => Ret "-"
  | VArr items =>
      do joined <- Array_join ", " items;
      Ret (if String.eqb joined "" then "-" else joined)
  | _ => Throw (TypeError "join is not a function")
  end.

Definition webhook_row (webhook : Value) : result string :=
  do events_value <- get webhook "events";
  do events <- events_cell events_value;
  do uuid <- field_text webhook "uuid";
  do url <- field_text webhook "url";
  do active <- get webhook "active";
  Ret ("| " ++ uuid ++ " | " ++ url ++ " | "
       ++ (if truthy active then "Yes" else "No") ++ " | " ++ events ++ " |").

Definition formatWebhooksTable : list Value -> result string :=
  table "| UUID | URL | Active | Events |" "|---|---|---|---|" webhook_row.

(** [(comment.content?.raw || '-').substring(0, 50)] *)
Definition comment_content (content : Value) : result string :=
  substring0 50 (or_else (get_opt content "raw") (VStr "-")).

Definition comment_row (comment : Value) : result string :=
  do user <- get comment "user";
  let author := account_name user in
  do content_value <- get comment "content";
  do content <- comment_content content_value;
  do created_on <- get comment "created_on";
  do created <- date_cell created_on;
  do id <- field_text comment "id";
  do author_text <- ToString author;
  Ret ("| " ++ id ++ " | " ++ author_text ++ " | " ++ content ++ " | "
       ++ created ++ " |").

Definition formatCommentsTable : list Value -> result string :=
  table "| ID | Author | Content | Created |" "|---|---|---|---|" comment_row.

(** ** The generic table *)

(** [String(record[k] ?? '-')]: an own property if [record] has one named
    [k], else the member it inherits under that name, else ['-']. *)
Definition generic_cell (record : Value) (k : string) : result string :=
  match record with
  | VUndefined | VNull =>
      Throw (TypeError ("Cannot read properties of null or undefined (reading '"
                        ++ k ++ "')"))
  | _ =>
      match own_property record k with
      | Some v => if nullish v then Ret "-" else ToString v
      | None =>
          Ret (match inheritedText record k with
               | Some s => s
               | None => "-"
               end)
      end
  end.

(** [keys.map((k) => String(record[k] ?? '-'))] *)
Fixpoint generic_cells (record : Value) (keys : list string) : result (list string) :=
  match keys with
  | [] => Ret []
  | k :: rest =>
      do cell <- generic_cell record k;
      do cells <- generic_cells record rest;
      Ret (cell :: cells)
  end.

Definition generic_row (keys : list string) (item : Value) : result string :=
  do values <- generic_cells item keys;
  Ret ("| " ++ join " | " values ++ " |").

(** [formatGenericTable(items)] *)
Definition formatGenericTable (items : list Value) : result string :=
  match items with
  | [] => Ret "_No items_"
  | first :: _ =>
      do all_keys <- Object_keys first;
      let keys := firstn 5 all_keys in
      table ("| " ++ join " | " keys ++ " |")
            ("|" ++ join "|" (map (fun _ => "---") keys) ++ "|")
            (generic_row keys) items
  end.

(** [formatArrayAsMarkdown(data, entityType)] *)
Definition formatArrayAsMarkdown (data : list Value) (entityType : string)
  : result string :=
  formatGenericTable data.

(** ** A single object *)

(** The lines one entry of [Object.entries(data)] adds. *)
Definition entry_lines (entry : string * Value) : list string :=
  let '(key, value) := entry in
  match value with
  | VUndefined | VNull => []
  | VArr _ | VObj _ =>
      [ "**" ++ formatKey key ++ ":**";
        "```json";
        match JSON_stringify value with Some s => s | None => "" end;
        "```" ]
  | VBool b => ["**" ++ formatKey key ++ ":** " ++ (if b then "true" else "false")]
  | VNum z => ["**" ++ formatKey key ++ ":** " ++ Z_to_string z]
  | VStr s => ["**" ++ formatKey key ++ ":** " ++ s]
  end.

(** [formatObjectAsMarkdown(data, entityType)] *)
Definition formatObjectAsMarkdown (data : list (string * Value))
    (entityType : string) : string :=
  join LF
    (List.app ["## " ++ capitalize (drop_final_s entityType); ""]
       (flat_map entry_lines data)).

(** ** A page of items *)

(** [isPaginatedResponse(data)], giving the [items] array when it holds. *)
Definition isPaginatedResponse (data : Value) : option (list Value) :=
  match data with
  | VObj props =>
      match lookup "items" props with
      | Some (VArr items) => Some items
      | _ => None
      end
  | _ => None
  end.

(** Data the markdown formatter treats as a collection: a page of items
    or an array. *)
Definition is_collection (data : Value) : bool :=
  match isPaginatedResponse data, data with
  | Some _, _ => true
  | None, VArr _ => true
  | None, _ => false
  end.

(** The [switch (entityType)] of [formatPaginatedAsMarkdown]. *)
Definition table_for (entityType : string) : list Value -> result string :=
  if String.eqb entityType "workspaces" then formatWorkspacesTable
  else if String.eqb entityType "repositories" then formatRepositoriesTable
  else if String.eqb entityType "branches" then formatBranchesTable
  else if String.eqb entityType "commits" then formatCommitsTable
  else if String.eqb entityType "pullrequests"
          || String.eqb entityType "pull_requests" then formatPullRequestsTable
  else if String.eqb entityType "issues" then formatIssuesTable
  else if String.eqb entityType "pipelines" then formatPipelinesTable
  else if String.eqb entityType "webhooks" then formatWebhooksTable
  else if String.eqb entityType "comments" then formatCommentsTable
  else formatGenericTable.

(** The lines pushed before the items are looked at. *)
Definition page_heading (data : Value) (entityType : string)
  : result (list string) :=
  let total := get_opt data "total" in
  do showing <-
    match total with
    | VUndefined =>
        do count <- ToString (get_opt data "count");
        Ret ("**Showing:** " ++ count)
    | _ =>
        do total_text <- ToString total;
        do count <- ToString (get_opt data "count");
        Ret ("**Total:** " ++ total_text ++ " | **Showing:** " ++ count)
    end;
  Ret (List.app ["## " ++ capitalize entityType; ""; showing]
         (List.app
            (if truthy (get_opt data "hasMore")
             then ["**More available:** Yes"] else [])
            [""])).

(** [formatPaginatedAsMarkdown(data, entityType)], [items] being
    [data.items]. *)
Definition formatPaginatedAsMarkdown (data : Value) (items : list Value)
    (entityType : string) : result string :=
  do lines <- page_heading data entityType;
  match items with
  | [] => Ret (join LF (List.app lines ["_No items found._"]))
  | _ =>
      do rendered <- table_for entityType items;
      Ret (join LF (List.app lines [rendered]))
  end.

(** [formatAsMarkdown(data, entityType)] *)
Definition formatAsMarkdown (data : Value) (entityType : string) : result string :=
  match isPaginatedResponse data with
  | Some items => formatPaginatedAsMarkdown data items entityType
  | None =>
      match data with
      | VArr items => formatArrayAsMarkdown items entityType
      | VObj props => Ret (formatObjectAsMarkdown props entityType)
      | VUndefined => Ret "undefined"
      | VNull => Ret "null"
      | VBool b => Ret (if b then "true" else "false")
      | VNum z => Ret (Z_to_string z)
      | VStr s => Ret s
      end
  end.

(** [formatResponse(data, format, entityType)] *)
Definition formatResponse (data : Value) (format : ResponseFormat)
    (entityType : string) : result ToolResponse :=
  match format with
  | markdown =>
      do rendered <- formatAsMarkdown data entityType;
      Ret {| content := [{| text := Some rendered |}]; isError := None |}
  | json =>
      Ret {| content := [{| text := JSON_stringify data |}]; isError := None |}
  end.

Context {errors : ErrorsModule}.

(** [formatError(error)] *)
Definition formatError (error : Thrown) : ToolResponse :=
  let errorInfo := formatErrorForLogging error in
  let message :=
    if instanceof_BitbucketApiError error then
      "Error: " ++ error_message error
      ++ (if error_retryable error then " (retryable)" else "")
    else
      match error with
      | ThrownValue described => "Error: " ++ described
      | _ => "Error: " ++ error_message error
      end in
  {| content :=
       [{| text := JSON_stringify
                     (VObj [("error", VStr message); ("details", errorInfo)]) |}];
     isError := Some true |}.

End WithRuntime.

End Formatters.

Export Formatters.

(* ================================================================== *)
(** * tools/*.ts: the tool handlers                                    *)
(* ================================================================== *)

Module Tools.

Section Handlers.

Context {runtime : Runtime} {errors : ErrorsModule}.

(** The handler of a tool that formats what the client returns, such as
    [bitbucket_list_workspaces]:
    [try { const result = await client.m(...);
           return formatResponse(result, format, kind); }
     catch (error) { return formatError(error); }].
    [call] is the outcome of the awaited client method. *)
Definition formatting_handler (call : result Value) (format : ResponseFormat)
    (entityType : string) : result ToolResponse :=
  try_catch
    (do result <- call;
     formatResponse result format entityType)
    (fun error => Ret (formatError error)).

(** The handler of a tool that reports a success record, such as
    [bitbucket_delete_download] or [bitbucket_create_commit_status]: the
    [try] block awaits the client and returns the pretty-printed record
    [{ success: true, message: ..., x: result }], here [report result]. *)
Definition reporting_handler (call : result Value) (report : Value -> Value)
  : result ToolResponse :=
  try_catch
    (do result <- call;
     Ret {| content := [{| text := JSON_stringify (report result) |}];
            isError := None |})
    (fun error => Ret (formatError error)).

(** The handler of a tool that returns the client's text as it is, such as
    [bitbucket_get_file_content]. *)
Definition text_handler (call : result string) : result ToolResponse :=
  try_catch
    (do result <- call;
     Ret {| content := [{| text := Some result |}]; isError := None |})
    (fun error => Ret (formatError error)).

End Handlers.

End Tools.

Export Tools.

(* ================================================================== *)
(** * index.ts: the stateless endpoint                                 *)
(* ================================================================== *)

Module Worker.

(** What a POST to [/mcp] comes to before the MCP handler takes over:
    the 401 response built in the [catch] of [validateCredentials], or a
    server whose tools share the client made by [createBitbucketClient]. *)
Inductive McpSetup : Type :=
| Unauthorized (error : Thrown)
| Serving (client : BitbucketClientImpl).

Definition mcp_setup (request_headers : Headers) : result McpSetup :=
  let credentials := parseTenantCredentials request_headers in
  match validateCredentials credentials with
  | Throw error => Ret (Unauthorized error)
  | Ret _ =>
      do client <- createBitbucketClient credentials;
      Ret (Serving client)
  end.

End Worker.

Export Worker.

(* ================================================================== *)
(** * Typed views of the entities the tables read                      *)
(* ================================================================== *)

(** The interfaces of [types/entities.ts], restricted to the fields the
    table formatters read.  A JSON value [represents] a typed entity when
    those fields hold the entity's data; it may hold any other field. *)

Module Account.
Record t : Type := mk {
  display_name : option string;
  username : option string;
}.

End Account.

Module Author.
Record t : Type := mk {
  raw : option string;
  user : option Account.t;
}.

End Author.

Module Commit.
Record t : Type := mk {
  hash : string;
  message : option string;
  author : option Author.t;
  date : option string;
}.

End Commit.

Module PullRequest.

Inductive State : Type := OPEN | MERGED | DECLINED | SUPERSEDED.

Definition state_text (s : State) : string :=
  match s with
  | OPEN => "OPEN"
  | MERGED => "MERGED"
  | DECLINED => "DECLINED"
  | SUPERSEDED => "SUPERSEDED"
  end.

(** [source] and [destination] are given by [branch.name]. *)
Record t : Type := mk {
  id : Z;
  title : string;
  state : State;
  author : option Account.t;
  source : string;
  destination : string;
}.

End PullRequest.

Module Comment.

(** [content] is [None] when absent, else its optional [raw] text. *)
Record t : Type := mk {
  id : Z;
  content : option (option string);
  user : option Account.t;
  created_on : option string;
}.

End Comment.

Module Represents.

(** An optional field: absent ([undefined], or [null] as JSON has it) or
    a value representing the datum. *)
Definition optional {A : Type} (rep : Value -> A -> Prop) (v : Value)
    (o : option A) : Prop :=
  match o with
  | None => nullish v = true
  | Some a => rep v a
  end.

Definition text (v : Value) (s : string) : Prop := v = VStr s.

Definition number (v : Value) (z : Z) : Prop := v = VNum z.

Definition is_object (v : Value) : Prop := exists props, v = VObj props.

Definition account (v : Value) (a : Account.t) : Prop :=
  is_object v /\
  optional text (get_opt v "display_name") (Account.display_name a) /\
  optional text (get_opt v "username") (Account.username a).

Definition author (v : Value) (a : Author.t) : Prop :=
  is_object v /\
  optional text (get_opt v "raw") (Author.raw a) /\
  optional account (get_opt v "user") (Author.user a).

Definition commit (v : Value) (c : Commit.t) : Prop :=
  is_object v /\
  text (get_opt v "hash") (Commit.hash c) /\
  optional text (get_opt v "message") (Commit.message c) /\
  optional author (get_opt v "author") (Commit.author c) /\
  optional text (get_opt v "date") (Commit.date c).

Definition endpoint (v : Value) (branch_name : string) : Prop :=
  is_object v /\
  is_object (get_opt v "branch") /\
  text (get_opt (get_opt v "branch") "name") branch_name.

Definition pull_request (v : Value) (pr : PullRequest.t) : Prop :=
  is_object v /\
  number (get_opt v "id") (PullRequest.id pr) /\
  text (get_opt v "title") (PullRequest.title pr) /\
  text (get_opt v "state") (PullRequest.state_text (PullRequest.state pr)) /\
  optional account (get_opt v "author") (PullRequest.author pr) /\
  endpoint (get_opt v "source") (PullRequest.source pr) /\
  endpoint (get_opt v "destination") (PullRequest.destination pr).

Definition content (v : Value) (raw : option string) : Prop :=
  is_object v /\ optional text (get_opt v "raw") raw.

Definition comment (v : Value) (c : Comment.t) : Prop :=
  is_object v /\
  number (get_opt v "id") (Comment.id c) /\
  optional content (get_opt v "content") (Comment.content c) /\
  optional account (get_opt v "user") (Comment.user c) /\
  optional text (get_opt v "created_on") (Comment.created_on c).

End Represents.

(* ================================================================== *)
(** * The table layouts, as the specification words them               *)
(* ================================================================== *)

Module Layout.

(** "Prefer ..., fall back to ..., else [-]": the first candidate that is
    present and not empty. *)
Fixpoint first_present (candidates : list (option string)) : string :=
  match candidates with
  | [] => "-"
  | Some s :: rest => if String.eqb s "" then first_present rest else s
  | None :: rest => first_present rest
  end.

(** "First line only, truncated to 50 characters". *)
Definition free_text (s : option string) : string :=
  take 50 (first_line (first_present [s])).

Definition single_line (s : string) : bool := String.eqb (first_line s) s.

Definition display_name (a : option Account.t) : option string :=
  match a with Some x => Account.display_name x | None => None end.

Definition username (a : option Account.t) : option string :=
  match a with Some x => Account.username x | None => None end.

Definition raw_author (a : option Author.t) : option string :=
  match a with Some x => Author.raw x | None => None end.

Definition author_user (a : option Author.t) : option Account.t :=
  match a with Some x => Author.user x | None => None end.

Definition comment_body (c : Comment.t) : option string :=
  match Comment.content c with Some raw => raw | None => None end.

Section WithRuntime.

Context {runtime : Runtime}.

(** "Locale-formatted date only", [-] when missing. *)
Definition date_text (d : option string) : string :=
  match d with
  | Some s => if String.eqb s "" then "-" else toLocaleDateString (VStr s)
  | None => "-"
  end.

(** Commit row: hash cut to 7, message as free text, author by the raw
    string, else the user's display name. *)
Definition commit_line (c : Commit.t) : string :=
  "| " ++ take 7 (Commit.hash c)
  ++ " | " ++ free_text (Commit.message c)
  ++ " | " ++ first_present [raw_author (Commit.author c);
                             display_name (author_user (Commit.author c))]
  ++ " | " ++ date_text (Commit.date c) ++ " |".

(** Comment row: author by display name, else username; body as free text. *)
Definition comment_line (c : Comment.t) : string :=
  "| " ++ Z_to_string (Comment.id c)
  ++ " | " ++ first_present [display_name (Comment.user c);
                             username (Comment.user c)]
  ++ " | " ++ free_text (comment_body c)
  ++ " | " ++ date_text (Comment.created_on c) ++ " |".

End WithRuntime.

(** Pull-request row, under the columns ID, Title, State, Author,
    Source -> Dest. *)
Definition pull_request_line (pr : PullRequest.t) : string :=
  "| #" ++ Z_to_string (PullRequest.id pr)
  ++ " | " ++ PullRequest.title pr
  ++ " | " ++ PullRequest.state_text (PullRequest.state pr)
  ++ " | " ++ first_present [display_name (PullRequest.author pr);
                             username (PullRequest.author pr)]
  ++ " | " ++ (PullRequest.source pr ++ " -> " ++ PullRequest.destination pr)
  ++ " |".

(** A markdown table: the header row, the rule, one line per row. *)
Definition markdown_table (columns : list string) (rows : list string) : string :=
  join LF (("| " ++ join " | " columns ++ " |")
           :: ("|" ++ join "|" (map (fun _ => "---") columns) ++ "|")
           :: rows).

(** The lines [formatPaginatedAsMarkdown] puts above the items of a page. *)
Definition page_heading_lines (entityType : string)
    (page : PaginatedResponse.t Value) : list string :=
  List.app
    ["## " ++ capitalize entityType; "";
     match PaginatedResponse.total page with
     | Some total =>
         "**Total:** " ++ Z_to_string total ++ " | **Showing:** "
         ++ Z_to_string (PaginatedResponse.count page)
     | None => "**Showing:** " ++ Z_to_string (PaginatedResponse.count page)
     end]
    (List.app
       (if PaginatedResponse.hasMore page then ["**More available:** Yes"] else [])
       [""]).

End Layout.

(* ================================================================== *)
(** * Instances to evaluate the definitions with                       *)
(* ================================================================== *)

Module Sample.

(** A runtime with fixed answers for the host-dependent built-ins. *)
Definition runtime : Runtime :=
  {| JSON_stringify := fun v =>
       match v with
       | VUndefined => None
       | _ => Some "{}"
       end;
     JSON_parse := fun _ => None;
     toLocaleDateString := fun v =>
       match v with
       | VStr s => take 10 s
       | _ => "Invalid Date"
       end;
     StringToNumber := parseInt;
     inheritedText := fun _ _ => None |}.

(** An errors module in which the three client errors are
    [BitbucketApiError]s keeping their message, and only a rate-limit
    error is retryable. *)
Definition errors : ErrorsModule :=
  {| instanceof_BitbucketApiError := fun e =>
       match e with
       | AuthenticationError _ | RateLimitError _ _ | BitbucketApiError _ _ => true
       | _ => false
       end;
     error_message := fun e =>
       match e with
       | AuthenticationError m | RateLimitError m _ | TypeError m
       | OtherError _ m | ThrownValue m => m
       | BitbucketApiError (VStr m) _ => m
       | BitbucketApiError _ _ => "[object Object]"
       end;
     error_retryable := fun e =>
       match e with RateLimitError _ _ => true | _ => false end;
     formatErrorForLogging := fun e =>
       match e with
       | RateLimitError _ (Num n) => VObj [("retryAfterSeconds", VNum n)]
       | _ => VObj []
       end |}.

End Sample.

(** A runtime that prints: [JSON.stringify(v, null, 2)] written out for
    the values of the model, with the escapes of the quote, the backslash
    and the line feed; the other built-ins as in [Sample.runtime]. *)
Module Printing.

Definition quote : string := String (ascii_of_nat 34) EmptyString.

Definition backslash : string := String (ascii_of_nat 92) EmptyString.

Fixpoint escape (s : string) : string :=
  match s with
  | EmptyString => EmptyString
  | String c rest =>
      (if Ascii.eqb c (ascii_of_nat 34) then backslash ++ quote
       else if Ascii.eqb c (ascii_of_nat 92) then backslash ++ backslash
       else if Ascii.eqb c (ascii_of_nat 10) then backslash ++ "n"
       else String c EmptyString)
      ++ escape rest
  end.

Definition literal (s : string) : string := quote ++ escape s ++ quote.

(** A member with the value [undefined] is left out of an object and
    printed as [null] in an array. *)
Fixpoint stringify (indent : string) (v : Value) : option string :=
  match v with
  | VUndefined => None
  | VNull => Some "null"
  | VBool b => Some (if b then "true" else "false")
  | VNum z => Some (Z_to_string z)
  | VStr s => Some (literal s)
  | VArr items =>
      let inner := indent ++ "  " in
      match items with
      | [] => Some "[]"
      | _ =>
          Some ("[" ++ LF
                ++ join ("," ++ LF)
                     (map (fun x =>
                             inner ++ match stringify inner x with
                                      | Some t => t
                                      | None => "null"
                                      end) items)
                ++ LF ++ indent ++ "]")
      end
  | VObj props =>
      let inner := indent ++ "  " in
      match flat_map (fun kv =>
                        match kv with
                        | (k, x) =>
                            match stringify inner x with
                            | Some t => [inner ++ literal k ++ ": " ++ t]
                            | None => []
                            end
                        end) props with
      | [] => Some "{}"
      | members =>
          Some ("{" ++ LF ++ join ("," ++ LF) members ++ LF ++ indent ++ "}")
      end
  end.

Definition runtime : Runtime :=
  {| JSON_stringify := stringify "";
     JSON_parse := fun _ => None;
     toLocaleDateString := toLocaleDateString (Runtime := Sample.runtime);
     StringToNumber := parseInt;
     inheritedText := fun _ _ => None |}.

(** The text of an error envelope without details:
    [{ "error": message, "details": {} }], indented by two. *)
Definition error_envelope (message : string) : string :=
  join LF ["{";
           "  " ++ literal "error" ++ ": " ++ literal message ++ ",";
           "  " ++ literal "details" ++ ": {}";
           "}"].

End Printing.

(* ================================================================== *)
(** * Inputs used in the examples                                      *)
(* ================================================================== *)

Module Examples.

(** An envelope whose [next] field is present and holds the empty string. *)
Definition envelope_with_empty_next : BitbucketPaginatedResponse.t Value :=
  {| BitbucketPaginatedResponse.size := Some 1;
     BitbucketPaginatedResponse.page := Some 1;
     BitbucketPaginatedResponse.pagelen := Some 20;
     BitbucketPaginatedResponse.next := Some "";
     BitbucketPaginatedResponse.previous := None;
     BitbucketPaginatedResponse.values := [VNum 7] |}.

(** A last page: two values and no [next]. *)
Definition last_page : BitbucketPaginatedResponse.t Value :=
  {| BitbucketPaginatedResponse.size := Some 22;
     BitbucketPaginatedResponse.page := Some 2;
     BitbucketPaginatedResponse.pagelen := Some 20;
     BitbucketPaginatedResponse.next := None;
     BitbucketPaginatedResponse.previous := Some "https://api.bitbucket.org/2.0/x?page=1";
     BitbucketPaginatedResponse.values := [VStr "a"; VStr "b"] |}.


(** Credentials with every header missing. *)
Definition no_credentials_at_all : TenantCredentials :=
  {| username := None; appPassword := None; accessToken := None; baseUrl := None |}.

(** Credentials of both modes at once. *)
Definition both_modes : TenantCredentials :=
  {| username := Some "ann";
     appPassword := Some "app-password";
     accessToken := Some "oauth-token";
     baseUrl := None |}.

(** App-password credentials only. *)
Definition basic_only : TenantCredentials :=
  {| username := Some "bob";
     appPassword := Some "hunter2";
     accessToken := None;
     baseUrl := None |}.

(** A remote end that answers every call with the same response. *)
Definition always (response : Response) : Network := fun _ => Ret response.

(** A remote end that answers every call with the [Authorization] header
    it received, as plain text. *)
Definition echo_authorization : Network :=
  fun call =>
    Ret {| status := 200;
           response_headers := [("content-type", "text/plain")];
           response_body :=
             match Headers_get (headers (fetch_init call)) "Authorization" with
             | Some value => value
             | None => "no Authorization header"
             end |}.

Definition forbidden : Response :=
  {| status := 403; response_headers := []; response_body := "Forbidden" |}.

Definition unauthorized : Response :=
  {| status := 401; response_headers := []; response_body := "" |}.

(** 429 with the delay given in seconds. *)
Definition too_many_requests_30 : Response :=
  {| status := 429;
     response_headers := [("Retry-After", "30")];
     response_body := "" |}.

(** 429 without the header. *)
Definition too_many_requests_bare : Response :=
  {| status := 429; response_headers := []; response_body := "" |}.

(** 429 with the delay given as an HTTP date, the other form RFC 9110
    allows for [Retry-After]. *)
Definition too_many_requests_http_date : Response :=
  {| status := 429;
     response_headers := [("Retry-After", "Wed, 21 Oct 2015 07:28:00 GMT")];
     response_body := "" |}.

(** A pull request as the API sends it, and one without [source] and
    [destination]. *)
Definition pr_7 : Value :=
  VObj [("type", VStr "pullrequest");
        ("id", VNum 7);
        ("title", VStr "Fix pagination");
        ("state", VStr "OPEN");
        ("author", VObj [("display_name", VStr "Ann Lee"); ("username", VStr "ann")]);
        ("source", VObj [("branch", VObj [("name", VStr "fix/paging")])]);
        ("destination", VObj [("branch", VObj [("name", VStr "main")])])].

Definition pr_8 : Value :=
  VObj [("id", VNum 8);
        ("title", VStr "Add docs");
        ("state", VStr "MERGED");
        ("author", VObj [("username", VStr "bob")]);
        ("source", VObj [("branch", VObj [("name", VStr "docs")])]);
        ("destination", VObj [("branch", VObj [("name", VStr "main")])]);
        ("comment_count", VNum 2)].

Definition pr_without_branches : Value :=
  VObj [("id", VNum 9); ("title", VStr "Orphan"); ("state", VStr "OPEN")].

(** The page [convertPaginatedResponse] makes of the given items. *)
Definition page_of (items : list Value) : Value :=
  page_value
    (convertPaginatedResponse
       {| BitbucketPaginatedResponse.size := None;
          BitbucketPaginatedResponse.page := None;
          BitbucketPaginatedResponse.pagelen := None;
          BitbucketPaginatedResponse.next := None;
          BitbucketPaginatedResponse.previous := None;
          BitbucketPaginatedResponse.values := items |}).

(** A commit without [hash]. *)
Definition commit_without_hash : Value :=
  VObj [("type", VStr "commit"); ("message", VStr "wip")].

(** A commit whose author has both a raw string and a user with a display
    name, and whose message has two lines. *)
Definition commit_by_ann : Value :=
  VObj [("type", VStr "commit");
        ("hash", VStr "0123456789abcdef");
        ("message", VStr ("Fix paging" ++ LF ++ "Second line"));
        ("author", VObj [("raw", VStr "ann <ann@example.org>");
                         ("user", VObj [("display_name", VStr "Ann Lee")])])].

(** A comment whose body has two lines. *)
Definition comment_in_two_lines : Value :=
  VObj [("id", VNum 3);
        ("content", VObj [("raw", VStr ("Looks good" ++ LF ++ "Thanks"))]);
        ("user", VObj [("display_name", VStr "Ann Lee")])].

(** The same entities, typed. *)
Definition commit_by_ann_typed : Commit.t :=
  {| Commit.hash := "0123456789abcdef";
     Commit.message := Some ("Fix paging" ++ LF ++ "Second line");
     Commit.author :=
       Some {| Author.raw := Some "ann <ann@example.org>";
               Author.user := Some {| Account.display_name := Some "Ann Lee";
                                      Account.username := None |} |};
     Commit.date := None |}.

Definition comment_in_one_line : Value :=
  VObj [("id", VNum 4);
        ("content", VObj [("raw", VStr "Looks good")]);
        ("user", VObj [("username", VStr "bob")]);
        ("created_on", VStr "2024-05-01T10:00:00Z")].

Definition comment_in_one_line_typed : Comment.t :=
  {| Comment.id := 4;
     Comment.content := Some (Some "Looks good");
     Comment.user := Some {| Account.display_name := None;
                             Account.username := Some "bob" |};
     Comment.created_on := Some "2024-05-01T10:00:00Z" |}.

Definition pr_7_typed : PullRequest.t :=
  {| PullRequest.id := 7;
     PullRequest.title := "Fix pagination";
     PullRequest.state := PullRequest.OPEN;
     PullRequest.author := Some {| Account.display_name := Some "Ann Lee";
                                   Account.username := Some "ann" |};
     PullRequest.source := "fix/paging";
     PullRequest.destination := "main" |}.

Definition pr_8_typed : PullRequest.t :=
  {| PullRequest.id := 8;
     PullRequest.title := "Add docs";
     PullRequest.state := PullRequest.MERGED;
     PullRequest.author := Some {| Account.display_name := None;
                                   Account.username := Some "bob" |};
     PullRequest.source := "docs";
     PullRequest.destination := "main" |}.

(** A page of two pull requests with more to come. *)
Definition two_pull_requests : PaginatedResponse.t Value :=
  convertPaginatedResponse
    {| BitbucketPaginatedResponse.size := Some 12;
       BitbucketPaginatedResponse.page := Some 1;
       BitbucketPaginatedResponse.pagelen := Some 2;
       BitbucketPaginatedResponse.next := Some "https://api.bitbucket.org/2.0/x?page=2";
       BitbucketPaginatedResponse.previous := None;
       BitbucketPaginatedResponse.values := [pr_7; pr_8] |}.

End Examples.

Import Examples.

Unset Implicit Arguments.

(* ================================================================== *)
(** * types/env.ts: numeric settings                                   *)
(* ================================================================== *)

Module EnvConfig.

(** [interface Env].  The three settings are strings where the worker's
    configuration sets them and [undefined] ([None]) where it does not;
    the two bindings are objects, of which only the presence matters here. *)
Record Env : Type := {
  CHARACTER_LIMIT : option string;
  DEFAULT_PAGE_SIZE : option string;
  MAX_PAGE_SIZE : option string;
  CACHE_KV : bool;
  AI : bool;
}.

(** [keyof Env] *)
Inductive EnvKey : Type :=
| key_CHARACTER_LIMIT
| key_DEFAULT_PAGE_SIZE
| key_MAX_PAGE_SIZE
| key_CACHE_KV
| key_AI.

(** [env[key]] where it is a string. *)
Definition string_setting (env : Env) (key : EnvKey) : option string :=
  match key with
  | key_CHARACTER_LIMIT => CHARACTER_LIMIT env
  | key_DEFAULT_PAGE_SIZE => DEFAULT_PAGE_SIZE env
  | key_MAX_PAGE_SIZE => MAX_PAGE_SIZE env
  | key_CACHE_KV | key_AI => None
  end.

(** [Number.MAX_SAFE_INTEGER], [2^53 - 1]: up to it in magnitude every
    integer is a double, so that [parseInt] reads it exactly. *)
Definition MAX_SAFE_INTEGER : Z := 9007199254740991.

(** [getEnvNumber(env, key, defaultValue)] *)
Definition getEnvNumber (env : Env) (key : EnvKey) (defaultValue : Z) : Z :=
  match string_setting env key with
  | Some value =>
      match parseInt value with
      | NaN => defaultValue
      | Num parsed => parsed
      end
  | None => defaultValue
  end.

(** [getCharacterLimit(env)] *)
Definition getCharacterLimit (env : Env) : Z :=
  getEnvNumber env key_CHARACTER_LIMIT 50000.

(** [getDefaultPageSize(env)] *)
Definition getDefaultPageSize (env : Env) : Z :=
  getEnvNumber env key_DEFAULT_PAGE_SIZE 20.

(** [getMaxPageSize(env)] *)
Definition getMaxPageSize (env : Env) : Z :=
  getEnvNumber env key_MAX_PAGE_SIZE 100.

(** A configuration that sets the maximum page size, gives a default page
    size that is no number and leaves the character limit unset. *)
Definition configured_env : Env :=
  {| CHARACTER_LIMIT := None;
     DEFAULT_PAGE_SIZE := Some "twenty";
     MAX_PAGE_SIZE := Some "50 per page";
     CACHE_KV := false;
     AI := false |}.

End EnvConfig.

Export EnvConfig.

(** The value of a run of decimal digits read from the left onto [acc]. *)
Fixpoint digits_value (d : Decimal.uint) (acc : Z) : Z :=
  match d with
  | Decimal.Nil => acc
  | Decimal.D0 r => digits_value r (10 * acc)
  | Decimal.D1 r => digits_value r (10 * acc + 1)
  | Decimal.D2 r => digits_value r (10 * acc + 2)
  | Decimal.D3 r => digits_value r (10 * acc + 3)
  | Decimal.D4 r => digits_value r (10 * acc + 4)
  | Decimal.D5 r => digits_value r (10 * acc + 5)
  | Decimal.D6 r => digits_value r (10 * acc + 6)
  | Decimal.D7 r => digits_value r (10 * acc + 7)
  | Decimal.D8 r => digits_value r (10 * acc + 8)
  | Decimal.D9 r => digits_value r (10 * acc + 9)
  end.

(** What follows a number in a text without continuing it. *)
Definition no_leading_digit (s : string) : Prop :=
  match s with
  | EmptyString => True
  | String c _ => is_digit c = false
  end.

(* ================================================================== *)
(** * client.ts: the endpoints of the list methods with filters        *)
(* ================================================================== *)

Module Endpoints.

(** [query += (query ? '&' : '?') + `name=${text}`], under [if (value)];
    [text] is the value as the method writes it. *)
Definition add_parameter (query name : string) (value : option string)
    (text : string -> string) : string :=
  match value with
  | Some v =>
      if String.eqb v "" then query
      else query ++ (if String.eqb query "" then "?" else "&")
                 ++ name ++ "=" ++ text v
  | None => query
  end.

(** [PaginationParams & { revision?, include?, exclude? }] *)
Record CommitListParams : Type := {
  commit_pagination : PaginationParams.t;
  revision : option string;
  include : option string;
  exclude : option string;
}.

(** The [query] of [listCommits]; [None] is the omitted [params]. *)
Definition listCommits_query (params : option CommitListParams) : string :=
  match params with
  | None => buildPaginationQuery None
  | Some p =>
      add_parameter
        (add_parameter
           (add_parameter (buildPaginationQuery (Some (commit_pagination p)))
              "revision" (revision p) encodeURIComponent)
           "include" (include p) encodeURIComponent)
        "exclude" (exclude p) encodeURIComponent
  end.

(** The endpoint [listCommits] requests. *)
Definition listCommits_endpoint (workspace repoSlug : string)
    (params : option CommitListParams) : string :=
  "/repositories/" ++ workspace ++ "/" ++ repoSlug ++ "/commits"
  ++ listCommits_query params.

(** [PaginationParams & { state? }] *)
Record PullRequestListParams : Type := {
  pr_pagination : PaginationParams.t;
  state : option string;
}.

(** The [query] of [listPullRequests]: [state] is written as it is. *)
Definition listPullRequests_query (params : option PullRequestListParams) : string :=
  match params with
  | None => buildPaginationQuery None
  | Some p =>
      add_parameter (buildPaginationQuery (Some (pr_pagination p)))
        "state" (state p) (fun s => s)
  end.

(** The endpoint [listPullRequests] requests. *)
Definition listPullRequests_endpoint (workspace repoSlug : string)
    (params : option PullRequestListParams) : string :=
  "/repositories/" ++ workspace ++ "/" ++ repoSlug ++ "/pullrequests"
  ++ listPullRequests_query params.

End Endpoints.

Export Endpoints.

(** ** Reading a query string *)

Module QueryText.

(** The number of occurrences of a code unit. *)
Fixpoint count_char (c : ascii) (s : string) : nat :=
  match s with
  | EmptyString => O
  | String x rest => (if Ascii.eqb x c then 1 else 0) + count_char c rest
  end.

(** The code units that structure a URL's query: [&], [=], [?], [#]. *)
Definition is_delimiter (c : ascii) : bool :=
  Ascii.eqb c "&" || Ascii.eqb c "=" || Ascii.eqb c "?" || Ascii.eqb c "#".

(** The query string of a list of [name=value] parts. *)
Definition query_of_parts (parts : list string) : string :=
  match parts with
  | [] => ""
  | _ => "?" ++ join "&" parts
  end.

(** [name=text(value)] for a truthy value. *)
Definition push_text (text : string -> string) (name : string)
    (value : option string) : list string :=
  match value with
  | Some s => if String.eqb s "" then [] else [name ++ "=" ++ text s]
  | None => []
  end.

(** [name=value] for a value written as it is, if truthy. *)
Definition push_raw : string -> option string -> list string :=
  push_text (fun s => s).

(** A text without any of the delimiters. *)
Definition plain (s : string) : Prop :=
  forall c, is_delimiter c = true -> count_char c s = O.

(** A part [name=value] with plain name and value. *)
Definition pair_part (part : string) : Prop :=
  exists name value, part = name ++ "=" ++ value /\ plain name /\ plain value.


Definition given_string (value : option string) : nat :=
  if truthy_str value then 1%nat else O.

End QueryText.

Export QueryText.

(* ================================================================== *)
(** * client.ts and index.ts: the connection test                      *)
(* ================================================================== *)

Module Connection.

(** [{ connected: boolean; message: string }] *)
Record ConnectionStatus : Type := {
  connected : bool;
  connection_message : string;
}.

(** [error instanceof Error]: everything thrown but a value that is not
    an error object. *)
Definition instanceof_Error (error : Thrown) : bool :=
  match error with
  | ThrownValue _ => false
  | _ => true
  end.

(** The object literal [testConnection] returns, as a value. *)
Definition status_value (result : ConnectionStatus) : Value :=
  VObj [("connected", VBool (connected result));
        ("message", VStr (connection_message result))].

Section WithModules.

Context {runtime : Runtime} {errors : ErrorsModule}.

(** [testConnection()] *)
Definition testConnection (this : BitbucketClientImpl) (net : Network)
  : result ConnectionStatus :=
  try_catch
    (do _ <- request this net "/user" no_options;
     Ret {| connected := true;
            connection_message := "Successfully connected to Bitbucket" |})
    (fun error =>
       Ret {| connected := false;
              connection_message :=
                if instanceof_Error error then error_message error
                else "Connection failed" |}).

(** The handler of the tool [bitbucket_test_connection]. *)
Definition test_connection_tool (client : BitbucketClientImpl) (net : Network)
  : result ToolResponse :=
  try_catch
    (do result <- testConnection client net;
     Ret {| content := [{| text := JSON_stringify (status_value result) |}];
            isError := None |})
    (fun error =>
       Ret {| content :=
                [{| text := Some ("Connection failed: "
                                  ++ (if instanceof_Error error
                                      then error_message error
                                      else "Unknown error")) |}];
              isError := Some true |}).

End WithModules.

End Connection.

Export Connection.

(* ================================================================== *)
(** * Keys and cells, as texts                                         *)
(* ================================================================== *)

Module KeyText.

Fixpoint all_chars (p : ascii -> bool) (s : string) : bool :=
  match s with
  | EmptyString => true
  | String c rest => p c && all_chars p rest
  end.

Fixpoint last_char (s : string) : option ascii :=
  match s with
  | EmptyString => None
  | String c EmptyString => Some c
  | String _ rest => last_char rest
  end.

(** A key in snake_case or camelCase: letters, digits and underscores,
    starting with a lower-case letter or a digit and not ending with an
    underscore. *)
Definition identifier (key : string) : bool :=
  all_chars (fun c => is_upper c || is_lower c || is_digit c || Ascii.eqb c "_") key
  && match key with
     | String c _ => is_lower c || is_digit c
     | EmptyString => false
     end
  && match last_char key with
     | Some c => negb (Ascii.eqb c "_")
     | None => false
     end.

(** The line feed, as a code unit. *)
Definition LF_char : ascii := ascii_of_nat 10.

(** An entry of an object whose value is neither [null] nor [undefined]. *)
Definition has_value (entry : string * Value) : bool := negb (nullish (snd entry)).

End KeyText.

Export KeyText.

(* ================================================================== *)
(** * tools/*.ts: the page size a list tool accepts                    *)
(* ================================================================== *)

Module ToolArguments.







End ToolArguments.

Export ToolArguments.

(* ================================================================== *)
(** * utils/formatters.ts: the values the markdown formatter renders   *)
(* ================================================================== *)

Module Renderable.

(** The computation returns. *)
Definition returned {A : Type} (m : result A) : bool :=
  match m with
  | Ret _ => true
  | Throw _ => false
  end.

(** A value [String()] converts: no object met on the way, the value
    itself or an element of an array, has a field named [toString]. *)
Fixpoint printable (v : Value) : bool :=
  match v with
  | VArr items => forallb printable items
  | VObj props => negb (has_own "toString" props)
  | _ => true
  end.

(** Neither [null] nor [undefined]. *)
Definition present (v : Value) : bool := negb (nullish v).

Definition is_text (v : Value) : bool :=
  match v with
  | VStr _ => true
  | _ => false
  end.

(** A value a table cuts with [substring] unless it is falsy: a string,
    or [undefined], [null], [false] or [0]. *)
Definition text_or_falsy (v : Value) : bool :=
  if truthy v then is_text v else true.

(** The field can be shown in a cell. *)
Definition shown (v : Value) (field : string) : bool :=
  printable (get_opt v field).

Definition workspace_ready (ws : Value) : bool :=
  present ws
  && (shown ws "slug" && (shown ws "name" && shown ws "uuid")).

Definition repository_ready (repo : Value) : bool :=
  present repo
  && (shown repo "updated_on"
      && (shown repo "name" && (shown repo "full_name" && shown repo "language"))).

Definition branch_ready (branch : Value) : bool :=
  present branch
  && (text_or_falsy (get_opt (get_opt branch "target") "hash")
      && shown branch "name").

Definition commit_ready (commit : Value) : bool :=
  present commit
  && (is_text (get_opt commit "hash")
      && (text_or_falsy (get_opt commit "message")
          && (shown commit "date"
              && printable (commit_author (get_opt commit "author"))))).

(** [pr.source] and [pr.destination]: the endpoint and its [branch] are
    there, and the branch name can be shown. *)
Definition endpoint_ready (endpoint : Value) : bool :=
  present endpoint
  && (present (get_opt endpoint "branch")
      && shown (get_opt endpoint "branch") "name").

Definition pull_request_ready (pr : Value) : bool :=
  present pr
  && (endpoint_ready (get_opt pr "source")
      && (endpoint_ready (get_opt pr "destination")
          && (shown pr "id"
              && (shown pr "title"
                  && (shown pr "state"
                      && printable (account_name (get_opt pr "author"))))))).

Definition issue_ready (issue : Value) : bool :=
  present issue
  && (shown issue "id"
      && (shown issue "title"
          && (shown issue "state"
              && (shown issue "priority"
                  && (shown issue "kind"
                      && printable (account_name (get_opt issue "assignee"))))))).

Definition pipeline_ready (pipeline : Value) : bool :=
  present pipeline
  && (shown pipeline "duration_in_seconds"
      && (shown pipeline "created_on"
          && (shown pipeline "build_number"
              && (shown (get_opt pipeline "state") "name"
                  && shown (get_opt pipeline "target") "ref_name")))).

(** [webhook.events]: absent, or an array whose elements can be shown. *)
Definition events_ready (events : Value) : bool :=
  match events with
  | VUndefined | VNull => true
  | VArr _ => printable events
  | _ => false
  end.

Definition webhook_ready (webhook : Value) : bool :=
  present webhook
  && (events_ready (get_opt webhook "events")
      && (shown webhook "uuid" && shown webhook "url")).

Definition comment_ready (comment : Value) : bool :=
  present comment
  && (text_or_falsy (get_opt (get_opt comment "content") "raw")
      && (shown comment "created_on"
          && (shown comment "id"
              && printable (account_name (get_opt comment "user"))))).

(** A cell of the generic table: the item is there and its own property
    of that name, if it has one, can be shown. *)
Definition generic_cell_ready (item : Value) (k : string) : bool :=
  present item
  && match own_property item k with
     | Some v => printable v
     | None => true
     end.

(** The keys of a value, none for [null] and [undefined]. *)
Definition keys_of (v : Value) : list string :=
  match Object_keys v with
  | Ret keys => keys
  | Throw _ => []
  end.

(** The generic table: the first item is there, and every item has its
    cells under the first five keys of the first. *)
Definition generic_ready (items : list Value) : bool :=
  match items with
  | [] => true
  | first :: _ =>
      present first
      && forallb (fun item =>
                    forallb (generic_cell_ready item) (firstn 5 (keys_of first)))
           items
  end.

(** The items of a kind can all be rendered as rows: the [switch] of
    [formatPaginatedAsMarkdown], with the condition of each table. *)
Definition rows_ready (entityType : string) (items : list Value) : bool :=
  if String.eqb entityType "workspaces" then forallb workspace_ready items
  else if String.eqb entityType "repositories" then forallb repository_ready items
  else if String.eqb entityType "branches" then forallb branch_ready items
  else if String.eqb entityType "commits" then forallb commit_ready items
  else if String.eqb entityType "pullrequests"
          || String.eqb entityType "pull_requests"
       then forallb pull_request_ready items
  else if String.eqb entityType "issues" then forallb issue_ready items
  else if String.eqb entityType "pipelines" then forallb pipeline_ready items
  else if String.eqb entityType "webhooks" then forallb webhook_ready items
  else if String.eqb entityType "comments" then forallb comment_ready items
  else generic_ready items.

(** What the markdown formatter renders: anything that is not a
    collection; a page whose [total] and [count] can be shown and whose
    items, if any, are ready for the table of the kind; an array whose
    items are ready for the generic table. *)
Definition renderable (data : Value) (entityType : string) : bool :=
  match isPaginatedResponse data with
  | Some items =>
      shown data "total"
      && (shown data "count"
          && match items with
             | [] => true
             | _ => rows_ready entityType items
             end)
  | None =>
      match data with
      | VArr items => generic_ready items
      | _ => true
      end
  end.

End Renderable.

Export Renderable.

(* ================================================================== *)
(** * Pagination                                                       *)
(* ================================================================== *)

Section PaginationFacts.

Lemma truthy_str_iff (s : option string) :
  truthy_str s = true <-> exists link, s = Some link /\ link <> "".
Proof.
  destruct s as [x|]; simpl.
  - destruct (String.eqb_spec x "") as [->|Hne]; simpl; split.
    + discriminate.
    + intros (link & Heq & Hne). injection Heq as <-. now elim Hne.
    + intros _. now exists x.
    + reflexivity.
  - split; [discriminate | intros (link & Heq & _); discriminate].
Qed.


End PaginationFacts.

(** C1, as stated, fails on an envelope whose next link is present but
    empty: the link is there and is passed on as [nextCursor], yet
    [hasMore], computed as [!!response.next], is false. *)
Lemma C1_present_empty_next_has_no_more :
  BitbucketPaginatedResponse.next envelope_with_empty_next = Some ""
  /\ PaginatedResponse.nextCursor (convertPaginatedResponse envelope_with_empty_next)
     = Some ""
  /\ PaginatedResponse.hasMore (convertPaginatedResponse envelope_with_empty_next)
     = false.
Proof. repeat split. Qed.

(** C1 (amended): [convertPaginatedResponse] returns the envelope's
    [values] unchanged as [items], their number as [count], the envelope's
    [size] as [total] (absent when the envelope omits it) and its [next]
    link as [nextCursor]; [hasMore] is true exactly when the next link is
    present and not the empty string.  So [count] is the length of [items]
    for every envelope, and [hasMore] is false whenever there is no next
    link. *)
Theorem C1_convertPaginatedResponse_projection :
  forall (T : Type) (response : BitbucketPaginatedResponse.t T),
    let page := convertPaginatedResponse response in
    PaginatedResponse.items page = BitbucketPaginatedResponse.values response
    /\ PaginatedResponse.count page
       = Z.of_nat (List.length (BitbucketPaginatedResponse.values response))
    /\ PaginatedResponse.count page
       = Z.of_nat (List.length (PaginatedResponse.items page))
    /\ PaginatedResponse.total page = BitbucketPaginatedResponse.size response
    /\ PaginatedResponse.nextCursor page = BitbucketPaginatedResponse.next response
    /\ (PaginatedResponse.hasMore page = true
        <-> exists link, BitbucketPaginatedResponse.next response = Some link
                         /\ link <> "")
    /\ (BitbucketPaginatedResponse.next response = None
        -> PaginatedResponse.hasMore page = false).
Proof.
  intros T response page. subst page. unfold convertPaginatedResponse. simpl.
  repeat split; try reflexivity.
  - intros Htrue. now apply truthy_str_iff.
  - intros Hlink. now apply truthy_str_iff.
  - intros ->. reflexivity.
Qed.

(** A last page of two values, without a next link: nothing more. *)
Lemma C1_convertPaginatedResponse_projection_witness :
  PaginatedResponse.hasMore (convertPaginatedResponse last_page) = false
  /\ PaginatedResponse.count (convertPaginatedResponse last_page) = 2.
Proof.
  destruct (C1_convertPaginatedResponse_projection Value last_page)
    as (_ & Hcount & _ & _ & _ & _ & Hlast).
  split; [now apply Hlast | exact Hcount].
Defined.


Section PageSizeFacts.






End PageSizeFacts.



(* ================================================================== *)
(** * The client                                                       *)
(* ================================================================== *)

Section ClientFacts.

Context {runtime : Runtime}.

Lemma request_after_auth (this : BitbucketClientImpl) (auth : Headers)
    (net : Network) (endpoint : string) (options : RequestInit) :
  getAuthHeaders this = Ret auth ->
  request this net endpoint options
  = bind (net (fetch_call this auth endpoint options)) read_response.
Proof. intros Hauth. unfold request. rewrite Hauth. reflexivity. Qed.

Lemma request_without_auth (this : BitbucketClientImpl) (e : Thrown)
    (net : Network) (endpoint : string) (options : RequestInit) :
  getAuthHeaders this = Throw e ->
  request this net endpoint options = Throw e.
Proof. intros Hauth. unfold request. rewrite Hauth. reflexivity. Qed.

Lemma requestRaw_after_auth (this : BitbucketClientImpl) (auth : Headers)
    (net : Network) (endpoint : string) (options : RequestInit) :
  getAuthHeaders this = Ret auth ->
  requestRaw this net endpoint options
  = bind (net (raw_fetch_call this auth endpoint options)) read_raw_response.
Proof. intros Hauth. unfold requestRaw. rewrite Hauth. reflexivity. Qed.

Lemma requestRaw_without_auth (this : BitbucketClientImpl) (e : Thrown)
    (net : Network) (endpoint : string) (options : RequestInit) :
  getAuthHeaders this = Throw e ->
  requestRaw this net endpoint options = Throw e.
Proof. intros Hauth. unfold requestRaw. rewrite Hauth. reflexivity. Qed.

Lemma read_response_401_403 (response : Response) :
  status response = 401 \/ status response = 403 ->
  read_response response = Throw authentication_failed.
Proof.
  intros [Hs|Hs]; unfold read_response; rewrite Hs; reflexivity.
Qed.

Lemma read_response_429 (response : Response) :
  status response = 429 ->
  read_response response = Throw (rate_limited response).
Proof. intros Hs. unfold read_response. rewrite Hs. reflexivity. Qed.

(** [requestRaw] has neither the 429 nor the 401/403 case of [request]:
    every response that is not [ok] becomes a [BitbucketApiError] whose
    message gives the status and nothing else. *)
Lemma requestRaw_not_ok (this : BitbucketClientImpl) (auth : Headers)
    (net : Network) (endpoint : string) (options : RequestInit)
    (response : Response) :
  getAuthHeaders this = Ret auth ->
  net (raw_fetch_call this auth endpoint options) = Ret response ->
  ok response = false ->
  requestRaw this net endpoint options
  = Throw (BitbucketApiError
             (VStr ("API error: " ++ Z_to_string (status response)))
             (status response)).
Proof.
  intros Hauth Hnet Hok.
  rewrite (requestRaw_after_auth _ _ _ _ _ Hauth), Hnet. simpl.
  unfold read_raw_response. now rewrite Hok.
Qed.

End ClientFacts.

(** C8, as stated, fails: with no credentials at all the construction
    succeeds.  The failure comes with the first request. *)
Lemma C8_construction_succeeds_without_credentials :
  createBitbucketClient no_credentials_at_all
  = Ret {| credentials := no_credentials_at_all;
           client_baseUrl := "https://api.bitbucket.org/2.0" |}
  /\ request (runtime := Sample.runtime) (constructor no_credentials_at_all)
       (always forbidden) "/user" no_options
     = Throw no_credentials.
Proof. split; reflexivity. Qed.

(** C8 (amended): constructing a client never fails.  For credentials with
    neither an access token nor a username-plus-app-password pair the
    failure is per call: every request raises the authentication error of
    [getAuthHeaders] whatever the remote end would answer, nothing being
    sent.  Such credentials are turned away before any client is made, by
    [validateCredentials] at the [/mcp] endpoint. *)
Theorem C8_missing_credentials_fail_per_call :
  forall (creds : TenantCredentials),
    truthy_str (accessToken creds) = false ->
    truthy_str (username creds) && truthy_str (appPassword creds) = false ->
    createBitbucketClient creds = Ret (constructor creds)
    /\ (forall (R : Runtime) (net : Network) (endpoint : string)
               (options : RequestInit),
           request (constructor creds) net endpoint options = Throw no_credentials
           /\ requestRaw (constructor creds) net endpoint options
              = Throw no_credentials)
    /\ validateCredentials creds = Throw missing_credentials
    /\ (forall (request_headers : Headers),
           parseTenantCredentials request_headers = creds ->
           mcp_setup request_headers = Ret (Unauthorized missing_credentials)).
Proof.
  intros creds Htoken Hbasic.
  assert (Hvalidate : validateCredentials creds = Throw missing_credentials).
  { unfold validateCredentials. rewrite Htoken, Hbasic. reflexivity. }
  split; [reflexivity|]. split; [|split].
  - intros R net endpoint options.
    assert (Hauth : getAuthHeaders (constructor creds) = Throw no_credentials).
    { unfold getAuthHeaders. cbn [credentials constructor].
      rewrite Htoken, Hbasic. reflexivity. }
    split; [now apply request_without_auth | now apply requestRaw_without_auth].
  - exact Hvalidate.
  - intros request_headers Hparse. unfold mcp_setup.
    rewrite Hparse, Hvalidate. reflexivity.
Qed.

Lemma C8_missing_credentials_fail_per_call_witness :
  createBitbucketClient no_credentials_at_all
  = Ret (constructor no_credentials_at_all)
  /\ validateCredentials no_credentials_at_all = Throw missing_credentials
  /\ mcp_setup [] = Ret (Unauthorized missing_credentials).
Proof.
  destruct (C8_missing_credentials_fail_per_call no_credentials_at_all)
    as (Hnew & _ & Hvalidate & Hsetup); [reflexivity | reflexivity |].
  split; [exact Hnew|]. split; [exact Hvalidate|].
  apply Hsetup. reflexivity.
Defined.

Lemma append_empty (s : string) : s ++ "" = s.
Proof. induction s as [|c s IH]; [reflexivity | cbn [append]; now rewrite IH]. Qed.

Section AuthenticationFailure.

Context {runtime : Runtime} {errors : ErrorsModule}.

(** The envelope [formatError] makes of an error, with its message. *)
Lemma formatError_envelope (error : Thrown) :
  instanceof_Error error = true ->
  formatError error
  = {| content :=
         [{| text :=
               JSON_stringify
                 (VObj [("error",
                         VStr ("Error: " ++ error_message error
                               ++ (if instanceof_BitbucketApiError error
                                      && error_retryable error
                                   then " (retryable)" else "")));
                        ("details", formatErrorForLogging error)]) |}];
       isError := Some true |}.
Proof.
  intros Herror. unfold formatError.
  destruct (instanceof_BitbucketApiError error); cbn [andb].
  - reflexivity.
  - destruct error; try discriminate Herror; now rewrite append_empty.
Qed.

(** Whatever the credentials, the endpoint and the remote end, a call of
    [request] that is answered 401 or 403 raises the one authentication
    error with its fixed text, and the tool handler answers with the
    envelope of that error. *)
Lemma rejected_request_is_generic (this : BitbucketClientImpl) (net : Network)
    (endpoint : string) (options : RequestInit) (format : ResponseFormat)
    (entityType : string) :
  rejected this net endpoint options ->
  request this net endpoint options
  = Throw (AuthenticationError
             "Authentication failed. Check your Bitbucket credentials.")
  /\ formatting_handler (request this net endpoint options) format entityType
     = Ret (formatError authentication_failed).
Proof.
  intros (auth & response & Hauth & Hnet & Hstatus).
  assert (Hfail : request this net endpoint options = Throw authentication_failed).
  { rewrite (request_after_auth _ _ _ _ _ Hauth), Hnet. simpl.
    now apply read_response_401_403. }
  rewrite Hfail. split; reflexivity.
Qed.

(** On the raw-text path the same answer is reported as an API error
    that names the status. *)
Lemma rejected_raw_request_names_the_status (this : BitbucketClientImpl)
    (net : Network) (endpoint : string) (options : RequestInit) (code : Z) :
  code = 401 \/ code = 403 ->
  answered_raw this net endpoint options code ->
  requestRaw this net endpoint options
  = Throw (BitbucketApiError (VStr ("API error: " ++ Z_to_string code)) code)
  /\ text_handler (requestRaw this net endpoint options)
     = Ret (formatError
              (BitbucketApiError (VStr ("API error: " ++ Z_to_string code)) code)).
Proof.
  intros Hcode (auth & response & Hauth & Hnet & Hstatus).
  assert (Hok : ok response = false).
  { unfold ok. rewrite Hstatus. destruct Hcode as [-> | ->]; reflexivity. }
  rewrite (requestRaw_not_ok _ _ _ _ _ _ Hauth Hnet Hok), Hstatus.
  split; reflexivity.
Qed.

End AuthenticationFailure.

(** C9 holds of [request] and fails of [requestRaw].  A 401 or 403 that
    answers a call of [request] gives the envelope with the fixed
    authentication text, whatever the credentials.  The same answers to
    [requestRaw] (the path of file contents, diffs and step logs), which
    lacks the 401/403 case of [request], give envelopes that name the
    status, [API error: 401] and [API error: 403]: free of credentials,
    but neither the authentication text nor one fixed text. *)
Lemma C9_raw_path_names_the_status_instead :
  request (runtime := Printing.runtime) (constructor basic_only)
    (always unauthorized) "/user" no_options
  = Throw (AuthenticationError
             "Authentication failed. Check your Bitbucket credentials.")
  /\ requestRaw (constructor basic_only) (always unauthorized)
       "/repositories/w/r/src/main/README.md" no_options
     = Throw (BitbucketApiError (VStr "API error: 401") 401)
  /\ requestRaw (constructor both_modes) (always forbidden)
       "/repositories/w/r/diff/main" no_options
     = Throw (BitbucketApiError (VStr "API error: 403") 403)
  /\ formatting_handler (runtime := Printing.runtime) (errors := Sample.errors)
    (request (runtime := Printing.runtime) (constructor basic_only)
       (always unauthorized) "/user" no_options)
    json "user"
  = Ret {| content :=
             [{| text :=
                   Some (Printing.error_envelope
                           ("Error: Authentication failed. "
                            ++ "Check your Bitbucket credentials.")) |}];
           isError := Some true |}
  /\ formatting_handler (runtime := Printing.runtime) (errors := Sample.errors)
       (request (runtime := Printing.runtime) (constructor both_modes)
          (always forbidden) "/workspaces" no_options)
       markdown "workspaces"
     = Ret {| content :=
                [{| text :=
                      Some (Printing.error_envelope
                              ("Error: Authentication failed. "
                               ++ "Check your Bitbucket credentials.")) |}];
              isError := Some true |}
  /\ text_handler (runtime := Printing.runtime) (errors := Sample.errors)
       (requestRaw (constructor basic_only) (always unauthorized)
          "/repositories/w/r/src/main/README.md" no_options)
     = Ret {| content :=
                [{| text := Some (Printing.error_envelope "Error: API error: 401") |}];
              isError := Some true |}
  /\ text_handler (runtime := Printing.runtime) (errors := Sample.errors)
       (requestRaw (constructor both_modes) (always forbidden)
          "/repositories/w/r/diff/main" no_options)
     = Ret {| content :=
                [{| text := Some (Printing.error_envelope "Error: API error: 403") |}];
              isError := Some true |}.
Proof. repeat split. Qed.

Section RateLimit.

Context {runtime : Runtime}.

(** What [request] raises on a 429, by the [Retry-After] header. *)
Lemma rate_limited_without_header (response : Response) :
  Headers_get (response_headers response) "Retry-After" = None ->
  rate_limited response = RateLimitError "Rate limit exceeded" (Num 60).
Proof. intros Hnone. unfold rate_limited. rewrite Hnone. reflexivity. Qed.

Lemma rate_limited_with_header (response : Response) (value : string) :
  Headers_get (response_headers response) "Retry-After" = Some value ->
  value <> "" ->
  rate_limited response = RateLimitError "Rate limit exceeded" (parseInt value).
Proof.
  intros Hsome Hne. unfold rate_limited. rewrite Hsome. simpl.
  destruct (String.eqb_spec value "") as [->|_]; [now elim Hne | reflexivity].
Qed.

(** A 429 answered to [request] becomes the rate-limit error of
    [rate_limited], whatever the credentials. *)
Lemma request_rate_limited (this : BitbucketClientImpl) (auth : Headers)
    (net : Network) (endpoint : string) (options : RequestInit)
    (response : Response) :
  getAuthHeaders this = Ret auth ->
  net (fetch_call this auth endpoint options) = Ret response ->
  status response = 429 ->
  request this net endpoint options = Throw (rate_limited response).
Proof.
  intros Hauth Hnet Hstatus.
  rewrite (request_after_auth _ _ _ _ _ Hauth), Hnet. simpl.
  now apply read_response_429.
Qed.

End RateLimit.

(** Where the code does as the specification says of a 429:
    [Retry-After: 30] gives a rate-limit error of 30 seconds, a missing
    header one of 60, and the handler turns either into an envelope
    flagged as an error. *)
Lemma retry_after_seconds_and_default :
  request (runtime := Sample.runtime) (constructor basic_only)
    (always too_many_requests_30) "/repositories/acme" no_options
  = Throw (RateLimitError "Rate limit exceeded" (Num 30))
  /\ request (runtime := Sample.runtime) (constructor basic_only)
       (always too_many_requests_bare) "/repositories/acme" no_options
     = Throw (RateLimitError "Rate limit exceeded" (Num 60))
  /\ (forall (R : Runtime) (E : ErrorsModule) (error : Thrown),
         isError (formatError error) = Some true).
Proof. repeat split. Qed.

(** C5, where the code departs from the claim: a [Retry-After] header that
    does not start with a number (here an HTTP date) is handed to
    [parseInt], and the rate-limit error carries [NaN], not the default
    60. *)
Lemma C5_unparseable_retry_after_gives_NaN :
  request (runtime := Sample.runtime) (constructor basic_only)
    (always too_many_requests_http_date) "/repositories/acme" no_options
  = Throw (RateLimitError "Rate limit exceeded" NaN).
Proof. reflexivity. Qed.

(* ================================================================== *)
(** * The formatter: what it can throw                                 *)
(* ================================================================== *)

(** Induction on values, with the elements of an array at hand. *)
Lemma Value_nested_ind (P : Value -> Prop) :
  P VUndefined -> P VNull -> (forall b, P (VBool b)) -> (forall z, P (VNum z)) ->
  (forall s, P (VStr s)) ->
  (forall items, Forall P items -> P (VArr items)) ->
  (forall props, P (VObj props)) ->
  forall v, P v.
Proof.
  intros Hundefined Hnull Hbool Hnum Hstr Harr Hobj.
  fix IH 1. intros [ | | b | z | s | items | props ].
  - exact Hundefined.
  - exact Hnull.
  - apply Hbool.
  - apply Hnum.
  - apply Hstr.
  - apply Harr. induction items as [|x rest IHrest].
    + constructor.
    + constructor; [apply IH | exact IHrest].
  - apply Hobj.
Qed.

Section TypeErrors.

Lemma type_errors_only_bind {A B : Type} (m : result A) (k : A -> result B) :
  type_errors_only m ->
  (forall a, type_errors_only (k a)) ->
  type_errors_only (bind m k).
Proof.
  intros Hm Hk. destruct m as [a|e]; simpl; [apply Hk | exact Hm].
Qed.

Lemma type_errors_only_Ret {A : Type} (a : A) : type_errors_only (Ret a).
Proof. exact I. Qed.

Lemma type_errors_only_TypeError {A : Type} (message : string) :
  type_errors_only (A := A) (Throw (TypeError message)).
Proof. now exists message. Qed.

Lemma get_type_errors_only (v : Value) (field : string) :
  type_errors_only (get v field).
Proof. destruct v; simpl; trivial; eexists; reflexivity. Qed.

Lemma ToString_array (items : list Value) :
  ToString (VArr items) = Array_join "," items.
Proof.
  induction items as [|x rest IH]; [reflexivity|].
  destruct rest as [|y rest']; [destruct x; reflexivity|].
  change (ToString (VArr (x :: y :: rest')))
    with (bind (element_text x)
            (fun s => bind (ToString (VArr (y :: rest')))
                        (fun t => Ret (s ++ "," ++ t)))).
  rewrite IH. reflexivity.
Qed.

Lemma element_text_type_errors_only (x : Value) :
  type_errors_only (ToString x) -> type_errors_only (element_text x).
Proof. destruct x; simpl; trivial. Qed.

Lemma Array_join_type_errors_only (sep : string) (items : list Value) :
  Forall (fun x => type_errors_only (ToString x)) items ->
  type_errors_only (Array_join sep items).
Proof.
  induction 1 as [|x rest Hx Hrest IH]; [exact I|].
  destruct rest as [|y rest'].
  - now apply element_text_type_errors_only.
  - change (Array_join sep (x :: y :: rest'))
      with (bind (element_text x)
              (fun s => bind (Array_join sep (y :: rest'))
                          (fun t => Ret (s ++ sep ++ t)))).
    apply type_errors_only_bind; [now apply element_text_type_errors_only|].
    intros s. apply type_errors_only_bind; [exact IH | intros; exact I].
Qed.

Lemma ToString_type_errors_only (v : Value) : type_errors_only (ToString v).
Proof.
  induction v as [ | | b | z | s | items IH | props ] using Value_nested_ind;
    try exact I.
  - rewrite ToString_array. now apply Array_join_type_errors_only.
  - simpl. destruct (has_own "toString" props); [|exact I].
    eexists; reflexivity.
Qed.

Lemma ToPrimitive_type_errors_only (v : Value) : type_errors_only (ToPrimitive v).
Proof.
  destruct v; try exact I; unfold ToPrimitive;
    (apply type_errors_only_bind;
     [apply ToString_type_errors_only | intros; exact I]).
Qed.

Lemma substring0_type_errors_only (n : nat) (v : Value) :
  type_errors_only (substring0 n v).
Proof. destruct v; simpl; trivial; eexists; reflexivity. Qed.

Lemma Object_keys_type_errors_only (v : Value) :
  type_errors_only (Object_keys v).
Proof. destruct v; simpl; trivial; eexists; reflexivity. Qed.

End TypeErrors.

(** Settles [type_errors_only] on code built from [bind], conditionals and
    the primitives above. *)
Ltac type_errors :=
  repeat first
    [ exact I
    | apply type_errors_only_Ret
    | apply type_errors_only_TypeError
    | apply get_type_errors_only
    | apply ToString_type_errors_only
    | apply ToPrimitive_type_errors_only
    | apply substring0_type_errors_only
    | apply Object_keys_type_errors_only
    | apply Array_join_type_errors_only; apply Forall_forall; intros
    | apply type_errors_only_bind; [ | intros ]
    | match goal with
      | |- type_errors_only (if ?c then _ else _) => destruct c
      | |- type_errors_only (match ?v with _ => _ end) => destruct v
      end
    | progress cbv beta ].

Section FormatterThrows.

Context {runtime : Runtime}.

Lemma push_rows_type_errors_only (row : Value -> result string)
    (items : list Value) :
  (forall item, type_errors_only (row item)) ->
  forall lines, type_errors_only (push_rows row items lines).
Proof.
  intros Hrow. induction items as [|item rest IH]; intros lines; simpl.
  - exact I.
  - apply type_errors_only_bind; [apply Hrow | intros; apply IH].
Qed.

Lemma table_type_errors_only (header rule : string)
    (row : Value -> result string) (items : list Value) :
  (forall item, type_errors_only (row item)) ->
  type_errors_only (table header rule row items).
Proof.
  intros Hrow. unfold table. apply type_errors_only_bind.
  - now apply push_rows_type_errors_only.
  - intros; exact I.
Qed.

Lemma date_cell_type_errors_only (v : Value) : type_errors_only (date_cell v).
Proof. unfold date_cell. type_errors. Qed.

Lemma ToNumber_type_errors_only (v : Value) : type_errors_only (ToNumber v).
Proof. unfold ToNumber. type_errors. Qed.

Lemma generic_cells_type_errors_only (record : Value) (keys : list string) :
  type_errors_only (generic_cells record keys).
Proof.
  induction keys as [|k rest IH]; simpl; [exact I|].
  apply type_errors_only_bind.
  - unfold generic_cell. type_errors.
  - intros cell. apply type_errors_only_bind; [exact IH | intros; exact I].
Qed.

Lemma formatGenericTable_type_errors_only (items : list Value) :
  type_errors_only (formatGenericTable items).
Proof.
  destruct items as [|first rest]; [exact I|].
  unfold formatGenericTable. apply type_errors_only_bind.
  - apply Object_keys_type_errors_only.
  - intros keys. apply table_type_errors_only. intros item.
    unfold generic_row. apply type_errors_only_bind.
    + apply generic_cells_type_errors_only.
    + intros; exact I.
Qed.

Lemma table_for_type_errors_only (entityType : string) (items : list Value) :
  type_errors_only (table_for entityType items).
Proof.
  unfold table_for.
  repeat match goal with
         | |- context [if ?c then _ else _] => destruct c
         end;
    try apply formatGenericTable_type_errors_only;
    apply table_type_errors_only; intros item.
  - unfold workspace_row, field_text. type_errors.
  - unfold repository_row, field_text.
    type_errors; apply date_cell_type_errors_only.
  - unfold branch_row, field_text. type_errors.
  - unfold commit_row, first_line_50.
    type_errors; apply date_cell_type_errors_only.
  - unfold pull_request_row, branch_name, field_text. type_errors.
  - unfold issue_row, field_text. type_errors.
  - unfold pipeline_row, minutes_seconds, field_text.
    type_errors;
      first [apply date_cell_type_errors_only | apply ToNumber_type_errors_only].
  - unfold webhook_row, events_cell, field_text. type_errors.
  - unfold comment_row, comment_content, field_text.
    type_errors; apply date_cell_type_errors_only.
Qed.

Lemma formatAsMarkdown_type_errors_only (data : Value) (entityType : string) :
  type_errors_only (formatAsMarkdown data entityType).
Proof.
  unfold formatAsMarkdown.
  destruct (isPaginatedResponse data) as [items|].
  - unfold formatPaginatedAsMarkdown. apply type_errors_only_bind.
    + unfold page_heading. type_errors.
    + intros lines. destruct items; [exact I|].
      apply type_errors_only_bind;
        [apply table_for_type_errors_only | intros; exact I].
  - destruct data; try exact I.
    apply formatGenericTable_type_errors_only.
Qed.

Lemma formatAsMarkdown_single_value (data : Value) (entityType : string) :
  is_collection data = false ->
  exists rendered, formatAsMarkdown data entityType = Ret rendered.
Proof.
  unfold is_collection, formatAsMarkdown.
  destruct (isPaginatedResponse data); [discriminate|].
  destruct data; try discriminate; intros _; eexists; reflexivity.
Qed.

End FormatterThrows.

(* ================================================================== *)
(** * The formatter and the tool handlers: totality                    *)
(* ================================================================== *)

Section FormatResponseFacts.

Context {runtime : Runtime}.

Lemma formatResponse_unflagged (data : Value) (format : ResponseFormat)
    (entityType : string) (response : ToolResponse) :
  formatResponse data format entityType = Ret response ->
  isError response = None.
Proof.
  destruct format; simpl.
  - now intros [= <-].
  - destruct (formatAsMarkdown data entityType); simpl; [|discriminate].
    now intros [= <-].
Qed.

Lemma formatResponse_throw (data : Value) (format : ResponseFormat)
    (entityType : string) (error : Thrown) :
  formatResponse data format entityType = Throw error ->
  format = markdown
  /\ is_collection data = true
  /\ exists message, error = TypeError message.
Proof.
  destruct format; simpl; [discriminate|].
  pose proof (formatAsMarkdown_type_errors_only data entityType) as Honly.
  destruct (is_collection data) eqn:Hcollection.
  - destruct (formatAsMarkdown data entityType) as [rendered|e]; simpl;
      [discriminate|].
    intros [= <-]. repeat split. exact Honly.
  - destruct (formatAsMarkdown_single_value data entityType Hcollection)
      as (rendered & ->). discriminate.
Qed.

End FormatResponseFacts.

(** C4, as stated, fails: in markdown mode [formatResponse] throws on a
    pull request without [source], on a commit without [hash], and on an
    array whose first element is [null]. *)
Lemma C4_markdown_formatter_throws :
  formatResponse (runtime := Sample.runtime)
    (page_of [pr_7; pr_without_branches]) markdown "pullrequests"
  = Throw (TypeError "Cannot read properties of null or undefined (reading 'branch')")
  /\ formatResponse (runtime := Sample.runtime)
       (page_of [commit_without_hash]) markdown "commits"
     = Throw (TypeError "Cannot read properties of null or undefined (reading 'substring')")
  /\ formatResponse (runtime := Sample.runtime)
       (VArr [VNull; VNum 1]) markdown "files"
     = Throw (TypeError "Cannot convert undefined or null to object").
Proof. repeat split. Qed.

(* ================================================================== *)
(** * What the markdown formatter renders                              *)
(* ================================================================== *)

Section Returned.

Context {runtime : Runtime}.

Lemma returned_bind {A B : Type} (m : result A) (k : A -> result B) (b : bool) :
  (forall a, returned (k a) = b) ->
  returned (bind m k) = returned m && b.
Proof. intros Hk. destruct m as [a|e]; simpl; [apply Hk | reflexivity]. Qed.

Lemma returned_bind_and {A B : Type} (m : result A) (k : A -> result B)
    (b1 b2 : bool) :
  returned m = b1 ->
  (forall a, returned (k a) = b2) ->
  returned (bind m k) = b1 && b2.
Proof. intros <- Hk. now apply returned_bind. Qed.

Lemma returned_bind_last {A B : Type} (m : result A) (k : A -> result B)
    (b : bool) :
  returned m = b ->
  (forall a, returned (k a) = true) ->
  returned (bind m k) = b.
Proof. intros <- Hk. rewrite (returned_bind m k true Hk). apply andb_true_r. Qed.

Lemma get_present (v : Value) (field : string) :
  present v = true -> get v field = Ret (get_opt v field).
Proof. destruct v; try discriminate; reflexivity. Qed.

Lemma returned_element_text (x : Value) :
  returned (ToString x) = printable x ->
  returned (element_text x) = printable x.
Proof. destruct x; simpl; trivial. Qed.

Lemma returned_Array_join (sep : string) (items : list Value) :
  Forall (fun x => returned (ToString x) = printable x) items ->
  returned (Array_join sep items) = forallb printable items.
Proof.
  induction 1 as [|x rest Hx Hrest IH]; [reflexivity|].
  destruct rest as [|y rest'].
  - cbn [Array_join forallb]. rewrite andb_true_r.
    now apply returned_element_text.
  - change (Array_join sep (x :: y :: rest'))
      with (bind (element_text x)
              (fun s => bind (Array_join sep (y :: rest'))
                          (fun t => Ret (s ++ sep ++ t)))).
    apply returned_bind_and; [now apply returned_element_text|].
    intros s. now apply returned_bind_last.
Qed.

(** [String(v)] returns exactly on the printable values. *)
Lemma returned_ToString (v : Value) : returned (ToString v) = printable v.
Proof.
  induction v as [ | | b | z | s | items IH | props ] using Value_nested_ind;
    try reflexivity.
  - rewrite ToString_array. now apply returned_Array_join.
  - simpl. now destruct (has_own "toString" props).
Qed.

Lemma printable_falsy (v : Value) : truthy v = false -> printable v = true.
Proof. destruct v; try discriminate; reflexivity. Qed.

Lemma printable_or_else (v fallback : Value) :
  printable fallback = true ->
  printable (or_else v fallback) = printable v.
Proof.
  intros Hfallback. unfold or_else. destruct (truthy v) eqn:Hv; [reflexivity|].
  now rewrite Hfallback, (printable_falsy v Hv).
Qed.

Lemma returned_text_or_dash (v : Value) :
  returned (ToString (or_else v (VStr "-"))) = printable v.
Proof. rewrite returned_ToString. now apply printable_or_else. Qed.

Lemma returned_substring0 (n : nat) (v : Value) :
  returned (substring0 n v) = is_text v.
Proof. now destruct v. Qed.

Lemma returned_cut_if_truthy (n : nat) (v : Value) :
  returned (if truthy v then substring0 n v else Ret "-") = text_or_falsy v.
Proof.
  unfold text_or_falsy. destruct (truthy v); [apply returned_substring0 | reflexivity].
Qed.

Lemma returned_first_line_50 (v : Value) :
  returned (first_line_50 v) = text_or_falsy v.
Proof.
  unfold first_line_50, text_or_falsy, or_else.
  destruct (truthy v); [now destruct v | reflexivity].
Qed.

Lemma returned_comment_content (v : Value) :
  returned (comment_content v) = text_or_falsy (get_opt v "raw").
Proof.
  unfold comment_content, text_or_falsy, or_else.
  destruct (truthy (get_opt v "raw")); [apply returned_substring0 | reflexivity].
Qed.

Lemma returned_ToPrimitive (v : Value) : returned (ToPrimitive v) = printable v.
Proof.
  destruct v; try reflexivity; unfold ToPrimitive;
    (apply returned_bind_last; [apply returned_ToString | reflexivity]).
Qed.

Lemma returned_date_cell (v : Value) : returned (date_cell v) = printable v.
Proof.
  unfold date_cell. destruct (truthy v) eqn:Hv.
  - apply returned_bind_last; [apply returned_ToPrimitive | reflexivity].
  - now rewrite (printable_falsy v Hv).
Qed.

Lemma returned_ToNumber (v : Value) : returned (ToNumber v) = printable v.
Proof.
  destruct v; try reflexivity; unfold ToNumber;
    (apply returned_bind_last; [apply returned_ToString | reflexivity]).
Qed.

Lemma returned_duration (v : Value) :
  returned (if truthy v then minutes_seconds v else Ret "-") = printable v.
Proof.
  destruct (truthy v) eqn:Hv; [|now rewrite (printable_falsy v Hv)].
  unfold minutes_seconds.
  rewrite (returned_bind _ _ (printable v)).
  - rewrite returned_ToNumber. apply andb_diag.
  - intros n. apply returned_bind_last; [apply returned_ToNumber | reflexivity].
Qed.

Lemma returned_events_cell (v : Value) :
  returned (events_cell v) = events_ready v.
Proof.
  destruct v; try reflexivity. unfold events_cell, events_ready.
  apply returned_bind_last; [|reflexivity].
  apply returned_Array_join. apply Forall_forall. intros x _.
  apply returned_ToString.
Qed.

Lemma returned_branch_name (pr : Value) (field : string) :
  present pr = true ->
  returned (branch_name pr field) = endpoint_ready (get_opt pr field).
Proof.
  intros Hpr. unfold branch_name, endpoint_ready, field_text, shown.
  rewrite (get_present pr field Hpr). cbn [bind].
  destruct (present (get_opt pr field)) eqn:He;
    [|destruct (get_opt pr field); try discriminate He; reflexivity].
  rewrite (get_present _ "branch" He). cbn [bind andb].
  destruct (present (get_opt (get_opt pr field) "branch")) eqn:Hb;
    [|destruct (get_opt (get_opt pr field) "branch");
      try discriminate Hb; reflexivity].
  rewrite (get_present _ "name" Hb). cbn [bind andb].
  apply returned_ToString.
Qed.

End Returned.

(** Settles [returned (row item) = ready item] for a row built from reads
    of the item and conversions of what was read. *)
Ltac returned_cell :=
  first [ apply returned_ToString
        | apply returned_text_or_dash
        | apply returned_date_cell
        | apply returned_substring0
        | apply returned_cut_if_truthy
        | apply returned_first_line_50
        | apply returned_comment_content
        | apply returned_duration
        | apply returned_events_cell
        | apply returned_branch_name; assumption ].

Ltac returned_row item :=
  let Hitem := fresh "Hitem" in
  unfold field_text, shown;
  destruct (present item) eqn:Hitem;
  [ rewrite ?(get_present item _ Hitem); cbn [bind andb];
    repeat first [ eapply returned_bind_and; [returned_cell | intros]
                 | eapply returned_bind_last; [returned_cell | reflexivity] ]
  | destruct item; try discriminate Hitem; reflexivity ].

Section ReturnedRows.

Context {runtime : Runtime}.

Lemma returned_workspace_row (item : Value) :
  returned (workspace_row item) = workspace_ready item.
Proof. unfold workspace_row, workspace_ready. returned_row item. Qed.

Lemma returned_repository_row (item : Value) :
  returned (repository_row item) = repository_ready item.
Proof. unfold repository_row, repository_ready. returned_row item. Qed.

Lemma returned_branch_row (item : Value) :
  returned (branch_row item) = branch_ready item.
Proof. unfold branch_row, branch_ready. returned_row item. Qed.

Lemma returned_commit_row (item : Value) :
  returned (commit_row item) = commit_ready item.
Proof. unfold commit_row, commit_ready. returned_row item. Qed.

Lemma returned_pull_request_row (item : Value) :
  returned (pull_request_row item) = pull_request_ready item.
Proof. unfold pull_request_row, pull_request_ready. returned_row item. Qed.

Lemma returned_issue_row (item : Value) :
  returned (issue_row item) = issue_ready item.
Proof. unfold issue_row, issue_ready. returned_row item. Qed.

Lemma returned_pipeline_row (item : Value) :
  returned (pipeline_row item) = pipeline_ready item.
Proof. unfold pipeline_row, pipeline_ready. returned_row item. Qed.

Lemma returned_webhook_row (item : Value) :
  returned (webhook_row item) = webhook_ready item.
Proof. unfold webhook_row, webhook_ready. returned_row item. Qed.

Lemma returned_comment_row (item : Value) :
  returned (comment_row item) = comment_ready item.
Proof. unfold comment_row, comment_ready. returned_row item. Qed.

End ReturnedRows.

Section ReturnedTables.

Context {runtime : Runtime}.

Lemma returned_push_rows (row : Value -> result string) (items : list Value) :
  forall lines,
    returned (push_rows row items lines)
    = forallb (fun item => returned (row item)) items.
Proof.
  induction items as [|item rest IH]; intros lines; [reflexivity|].
  cbn [push_rows forallb]. destruct (row item) as [line|error]; cbn [bind returned andb].
  - apply IH.
  - reflexivity.
Qed.

Lemma returned_table (header rule : string) (row : Value -> result string)
    (ready : Value -> bool) (items : list Value) :
  (forall item, returned (row item) = ready item) ->
  returned (table header rule row items) = forallb ready items.
Proof.
  intros Hrow. unfold table.
  rewrite (returned_bind _ _ true) by reflexivity.
  rewrite andb_true_r, returned_push_rows.
  induction items as [|item rest IH]; [reflexivity|].
  cbn [forallb]. now rewrite Hrow, IH.
Qed.

Lemma returned_generic_cell (item : Value) (k : string) :
  returned (generic_cell item k) = generic_cell_ready item k.
Proof.
  unfold generic_cell, generic_cell_ready.
  destruct (present item) eqn:Hitem;
    [|destruct item; try discriminate Hitem; reflexivity].
  assert (Hcell : returned
                    match own_property item k with
                    | Some v => if nullish v then Ret "-" else ToString v
                    | None =>
                        Ret match inheritedText item k with
                            | Some s => s
                            | None => "-"
                            end
                    end
                  = match own_property item k with
                    | Some v => printable v
                    | None => true
                    end).
  { destruct (own_property item k) as [v|]; [|reflexivity].
    destruct (nullish v) eqn:Hv; [now destruct v | apply returned_ToString]. }
  destruct item; try discriminate Hitem; exact Hcell.
Qed.

Lemma returned_generic_cells (item : Value) (keys : list string) :
  returned (generic_cells item keys) = forallb (generic_cell_ready item) keys.
Proof.
  induction keys as [|k rest IH]; [reflexivity|].
  cbn [generic_cells forallb].
  apply returned_bind_and; [apply returned_generic_cell|].
  intros cell. now apply returned_bind_last.
Qed.

Lemma returned_generic_row (keys : list string) (item : Value) :
  returned (generic_row keys item) = forallb (generic_cell_ready item) keys.
Proof.
  unfold generic_row.
  apply returned_bind_last; [apply returned_generic_cells | reflexivity].
Qed.

Lemma returned_formatGenericTable (items : list Value) :
  returned (formatGenericTable items) = generic_ready items.
Proof.
  destruct items as [|first rest]; [reflexivity|].
  unfold formatGenericTable, generic_ready, keys_of.
  destruct (present first) eqn:Hfirst;
    [|destruct first; try discriminate Hfirst; reflexivity].
  destruct (Object_keys first) as [all_keys|error] eqn:Hkeys;
    [|destruct first; discriminate].
  cbn [bind andb].
  apply returned_table. intros item. apply returned_generic_row.
Qed.

Lemma returned_table_for (entityType : string) (items : list Value) :
  returned (table_for entityType items) = rows_ready entityType items.
Proof.
  unfold table_for, rows_ready.
  repeat match goal with
         | |- context [if ?c then _ else _] => destruct c
         end;
    try apply returned_formatGenericTable;
    apply returned_table; intros item.
  - apply returned_workspace_row.
  - apply returned_repository_row.
  - apply returned_branch_row.
  - apply returned_commit_row.
  - apply returned_pull_request_row.
  - apply returned_issue_row.
  - apply returned_pipeline_row.
  - apply returned_webhook_row.
  - apply returned_comment_row.
Qed.

Lemma returned_page_heading (data : Value) (entityType : string) :
  returned (page_heading data entityType)
  = shown data "total" && shown data "count".
Proof.
  unfold page_heading, shown.
  apply returned_bind_last; [|reflexivity].
  destruct (get_opt data "total") eqn:Htotal;
    try (apply returned_bind_and; [apply returned_ToString|]; intros total_text);
    (apply returned_bind_last; [apply returned_ToString | reflexivity]).
Qed.

(** The markdown formatter returns exactly on the renderable data. *)
Lemma returned_formatAsMarkdown (data : Value) (entityType : string) :
  returned (formatAsMarkdown data entityType) = renderable data entityType.
Proof.
  unfold formatAsMarkdown, renderable.
  destruct (isPaginatedResponse data) as [items|].
  - unfold formatPaginatedAsMarkdown. rewrite andb_assoc.
    apply returned_bind_and; [apply returned_page_heading|].
    intros lines. destruct items as [|item rest]; [reflexivity|].
    apply returned_bind_last; [apply returned_table_for | reflexivity].
  - destruct data; try reflexivity. apply returned_formatGenericTable.
Qed.

End ReturnedTables.

(** C4 (amended): [formatResponse] returns a [ToolResponse], without the
    error flag, for every input in JSON mode, and in markdown mode for
    exactly the renderable inputs: every single object and primitive;
    every page whose [total] and [count] can be shown and whose items are
    ready for the table of its kind; every array whose items are ready for
    the generic table.  An item is ready when it is neither [null] nor
    [undefined], what its table dereferences is there (a commit's [hash]
    is a string; a pull request's [source] and [destination] have a
    [branch]; a commit's message, a branch's target hash and a comment's
    raw content are strings unless falsy; a webhook's [events], if any, is
    an array) and no value shown in a cell is an object with a field named
    [toString].  On every other input of markdown mode it throws a
    [TypeError]. *)
Theorem C4_formatResponse_returns_on_renderable_input :
  forall (R : Runtime) (data : Value) (format : ResponseFormat)
         (entityType : string),
    match formatResponse data format entityType with
    | Ret response =>
        isError response = None
        /\ (format = json \/ renderable data entityType = true)
    | Throw error =>
        format = markdown
        /\ is_collection data = true
        /\ renderable data entityType = false
        /\ exists message, error = TypeError message
    end.
Proof.
  intros R data format entityType.
  pose proof (returned_formatAsMarkdown data entityType) as Hrenderable.
  destruct (formatResponse data format entityType) as [response|error] eqn:Hformat.
  - split; [exact (formatResponse_unflagged _ _ _ _ Hformat)|].
    destruct format; [now left | right].
    unfold formatResponse in Hformat.
    destruct (formatAsMarkdown data entityType); [now rewrite <- Hrenderable|].
    discriminate Hformat.
  - destruct (formatResponse_throw _ _ _ _ Hformat) as (Hmarkdown & Hcollection & Herror).
    split; [exact Hmarkdown|]. split; [exact Hcollection|].
    split; [|exact Herror].
    subst format. unfold formatResponse in Hformat.
    destruct (formatAsMarkdown data entityType); [discriminate Hformat|].
    now rewrite <- Hrenderable.
Qed.

(** A page of two pull requests, an array that starts with a number, and
    a page of a kind without a table of its own are rendered; a workspace
    whose name is an object with a field named [toString] is not. *)
Lemma C4_formatResponse_returns_on_renderable_input_witness :
  renderable (page_value two_pull_requests) "pullrequests" = true
  /\ renderable (VArr [VNum 5; VObj [("a", VNum 1)]]) "files" = true
  /\ formatResponse (runtime := Sample.runtime)
       (VArr [VNum 5; VObj [("a", VNum 1)]]) markdown "files"
     = Ret {| content := [{| text := Some (join LF ["|  |"; "||"; "|  |"; "|  |"]) |}];
              isError := None |}
  /\ renderable (page_of [VObj [("display_name", VStr "Ann Lee"); ("role", VNull)]])
       "members" = true
  /\ renderable (page_of [pr_7; pr_without_branches]) "pullrequests" = false
  /\ renderable (page_of [commit_without_hash]) "commits" = false
  /\ renderable (VArr [VNull; VNum 1]) "files" = false
  /\ renderable
       (page_of [VObj [("slug", VStr "acme");
                       ("name", VObj [("toString", VNum 1)]);
                       ("uuid", VStr "{1}")]])
       "workspaces" = false
  /\ formatResponse (runtime := Sample.runtime)
       (page_of [VObj [("slug", VStr "acme");
                       ("name", VObj [("toString", VNum 1)]);
                       ("uuid", VStr "{1}")]])
       markdown "workspaces"
     = Throw (TypeError "Cannot convert object to primitive value").
Proof.
  pose proof (C4_formatResponse_returns_on_renderable_input Sample.runtime
                (VArr [VNum 5; VObj [("a", VNum 1)]]) markdown "files") as Harray.
  repeat split.
Defined.

(** C3, as stated, fails: the client call succeeds, yet the handler's
    response carries the error flag, because rendering the result throws
    inside the [try] block. *)
Lemma C3_success_can_end_in_error_response :
  formatting_handler (runtime := Sample.runtime) (errors := Sample.errors)
    (Ret (page_of [pr_7; pr_without_branches])) markdown "pullrequests"
  = Ret (formatError (runtime := Sample.runtime) (errors := Sample.errors)
           (TypeError "Cannot read properties of null or undefined (reading 'branch')"))
  /\ isError
       (formatError (runtime := Sample.runtime) (errors := Sample.errors)
          (TypeError "Cannot read properties of null or undefined (reading 'branch')"))
     = Some true.
Proof. split; reflexivity. Qed.

(** C3 (amended): every tool handler returns a [ToolResponse]; no
    exception leaves it.  When the client call throws, whatever it throws,
    the response is [formatError] of the thrown value, with [isError] true.
    When the client call succeeds, the response is the rendering of the
    result, without the error flag, provided the rendering itself returns;
    [formatResponse] can throw in markdown mode, and the handler then
    answers with [formatError] of that exception.  In JSON mode, and for
    the handlers that report a fixed record or pass text on, success always
    ends without the error flag. *)
Theorem C3_handlers_always_return_a_response :
  forall (R : Runtime) (E : ErrorsModule) (call : result Value)
         (text_call : result string) (format : ResponseFormat)
         (entityType : string) (report : Value -> Value),
    (exists response,
        formatting_handler call format entityType = Ret response
        /\ match call with
           | Throw error =>
               response = formatError error /\ isError response = Some true
           | Ret data =>
               match formatResponse data format entityType with
               | Ret rendered => response = rendered /\ isError response = None
               | Throw error =>
                   format = markdown
                   /\ response = formatError error
                   /\ isError response = Some true
               end
           end)
    /\ (exists response,
           reporting_handler call report = Ret response
           /\ match call with
              | Throw error =>
                  response = formatError error /\ isError response = Some true
              | Ret _ => isError response = None
              end)
    /\ (exists response,
           text_handler text_call = Ret response
           /\ match text_call with
              | Throw error =>
                  response = formatError error /\ isError response = Some true
              | Ret _ => isError response = None
              end).
Proof.
  intros R E call text_call format entityType report. repeat split.
  - unfold formatting_handler. destruct call as [data|error]; simpl.
    + destruct (formatResponse data format entityType) as [rendered|error]
        eqn:Hformat; simpl.
      * exists rendered. repeat split.
        exact (formatResponse_unflagged _ _ _ _ Hformat).
      * exists (formatError error).
        destruct (formatResponse_throw _ _ _ _ Hformat) as (Hmarkdown & _).
        repeat split. exact Hmarkdown.
    + exists (formatError error). repeat split.
  - unfold reporting_handler. destruct call as [data|error]; simpl.
    + eexists. split; reflexivity.
    + exists (formatError error). repeat split.
  - unfold text_handler. destruct text_call as [data|error]; simpl.
    + eexists. split; reflexivity.
    + exists (formatError error). repeat split.
Qed.

(* ================================================================== *)
(** * The tables of typed entities                                     *)
(* ================================================================== *)

Section Rendering.

Import Represents Layout.

Context {runtime : Runtime}.

Lemma get_of_object (v : Value) (field : string) :
  is_object v -> get v field = Ret (get_opt v field).
Proof. intros (props & ->). reflexivity. Qed.

Lemma get_opt_of_nullish (v : Value) (field : string) :
  nullish v = true -> get_opt v field = VUndefined.
Proof. destruct v; try discriminate; reflexivity. Qed.

Lemma or_else_nullish (v rest : Value) :
  nullish v = true -> or_else v rest = rest.
Proof. destruct v; try discriminate; reflexivity. Qed.

(** An optional text under [||]: taken when present and not empty. *)
Lemma or_else_optional_text (v rest : Value) (o : option string) :
  optional text v o ->
  or_else v rest
  = match o with
    | Some s => if String.eqb s "" then rest else VStr s
    | None => rest
    end.
Proof.
  destruct o as [s|]; simpl.
  - intros Hv. unfold text in Hv. subst v. unfold or_else, truthy.
    destruct (String.eqb s ""); reflexivity.
  - apply or_else_nullish.
Qed.

Lemma account_name_text (v : Value) (a : option Account.t) :
  optional account v a ->
  account_name v = VStr (first_present [display_name a; username a]).
Proof.
  unfold account_name. destruct a as [[dn un]|]; simpl.
  - intros (_ & Hdn & Hun). simpl in Hdn, Hun.
    rewrite (or_else_optional_text _ _ _ Hdn), (or_else_optional_text _ _ _ Hun).
    destruct dn as [d|]; [destruct (String.eqb d "")|];
      (destruct un as [u|]; [destruct (String.eqb u "")|]); reflexivity.
  - intros Hnull. now rewrite !(get_opt_of_nullish _ _ Hnull).
Qed.

Lemma commit_author_text (v : Value) (a : option Author.t) :
  optional author v a ->
  commit_author v
  = VStr (first_present [raw_author a; display_name (author_user a)]).
Proof.
  unfold commit_author. destruct a as [[raw user]|]; simpl.
  - intros (_ & Hraw & Huser). simpl in Hraw, Huser.
    rewrite (or_else_optional_text _ _ _ Hraw).
    assert (Hname : optional text (get_opt (get_opt v "user") "display_name")
                      (display_name user)).
    { destruct user as [[dn un]|]; simpl in *.
      - now destruct Huser as (_ & Hdn & _).
      - now rewrite (get_opt_of_nullish _ _ Huser). }
    rewrite (or_else_optional_text _ _ _ Hname).
    destruct raw as [r|]; [destruct (String.eqb r "")|];
      (destruct (display_name user) as [d|]; [destruct (String.eqb d "")|]);
      reflexivity.
  - intros Hnull. now rewrite !(get_opt_of_nullish _ _ Hnull).
Qed.

Lemma date_cell_text (v : Value) (d : option string) :
  optional text v d -> date_cell v = Ret (date_text d).
Proof.
  unfold date_cell, date_text. destruct d as [s|]; simpl.
  - intros Hv. unfold text in Hv. subst v. unfold truthy.
    destruct (String.eqb s ""); reflexivity.
  - intros Hnull. destruct v; try discriminate Hnull; reflexivity.
Qed.

Lemma first_line_50_text (v : Value) (m : option string) :
  optional text v m -> first_line_50 v = Ret (free_text m).
Proof.
  intros Hm. unfold first_line_50, free_text.
  rewrite (or_else_optional_text _ _ _ Hm). simpl.
  destruct m as [s|]; [destruct (String.eqb s "")|]; reflexivity.
Qed.

Lemma comment_content_text (v : Value) (c : option (option string)) :
  optional content v c ->
  comment_content v
  = Ret (take 50 (first_present [match c with Some raw => raw | None => None end])).
Proof.
  unfold comment_content. destruct c as [raw|]; simpl.
  - intros (_ & Hraw). rewrite (or_else_optional_text _ _ _ Hraw).
    destruct raw as [s|]; [destruct (String.eqb s "")|]; reflexivity.
  - intros Hnull. now rewrite (get_opt_of_nullish _ _ Hnull).
Qed.

Lemma free_text_single_line (body : option string) :
  match body with Some s => single_line s = true | None => True end ->
  take 50 (first_present [body]) = free_text body.
Proof.
  unfold free_text, single_line. destruct body as [s|]; simpl; [|reflexivity].
  destruct (String.eqb s ""); [reflexivity|].
  intros Hline. apply String.eqb_eq in Hline. now rewrite Hline.
Qed.

(** ** Rows *)

Lemma commit_row_of_commit (v : Value) (c : Commit.t) :
  commit v c -> commit_row v = Ret (commit_line c).
Proof.
  intros (Hobj & Hhash & Hmessage & Hauthor & Hdate).
  unfold commit_row, commit_line.
  rewrite !(get_of_object _ _ Hobj). cbn [bind].
  rewrite Hhash. cbn [substring0 bind].
  rewrite (first_line_50_text _ _ Hmessage). cbn [bind].
  rewrite (date_cell_text _ _ Hdate). cbn [bind].
  rewrite (commit_author_text _ _ Hauthor). reflexivity.
Qed.

Lemma comment_row_of_comment (v : Value) (c : Comment.t) :
  comment v c ->
  match comment_body c with Some s => single_line s = true | None => True end ->
  comment_row v = Ret (comment_line c).
Proof.
  intros (Hobj & Hid & Hcontent & Huser & Hcreated) Hline.
  unfold comment_row, comment_line.
  rewrite !(get_of_object _ _ Hobj). cbn [bind].
  rewrite (comment_content_text _ _ Hcontent). cbn [bind].
  rewrite (date_cell_text _ _ Hcreated). cbn [bind].
  unfold field_text. rewrite (get_of_object _ _ Hobj), Hid. cbn [bind ToString].
  rewrite (account_name_text _ _ Huser). cbn [bind ToString].
  unfold comment_body in Hline. now rewrite (free_text_single_line _ Hline).
Qed.

Lemma branch_name_of_endpoint (v : Value) (field name : string) :
  is_object v -> endpoint (get_opt v field) name ->
  branch_name v field = Ret name.
Proof.
  intros Hobj (Hendpoint & Hbranch & Hname). unfold branch_name, field_text.
  rewrite (get_of_object _ _ Hobj). cbn [bind].
  rewrite (get_of_object _ _ Hendpoint). cbn [bind].
  rewrite (get_of_object _ _ Hbranch), Hname. reflexivity.
Qed.

Lemma pull_request_row_of_pull_request (v : Value) (pr : PullRequest.t) :
  pull_request v pr -> pull_request_row v = Ret (pull_request_line pr).
Proof.
  intros (Hobj & Hid & Htitle & Hstate & Hauthor & Hsource & Hdestination).
  unfold pull_request_row, pull_request_line.
  rewrite (get_of_object _ _ Hobj). cbn [bind].
  rewrite (branch_name_of_endpoint _ _ _ Hobj Hsource),
          (branch_name_of_endpoint _ _ _ Hobj Hdestination). cbn [bind].
  unfold field_text. rewrite !(get_of_object _ _ Hobj), Hid, Htitle, Hstate.
  cbn [bind ToString].
  rewrite (account_name_text _ _ Hauthor). reflexivity.
Qed.

End Rendering.

Section Tables.

Variables (A : Type) (row : Value -> result string) (line : A -> string).

(** The loop of a table formatter pushes one line per item, in order. *)
Lemma push_rows_lines (items : list Value) (typed : list A) :
  Forall2 (fun v t => row v = Ret (line t)) items typed ->
  forall lines,
    push_rows row items lines = Ret (List.app lines (map line typed)).
Proof.
  induction 1 as [|v t items typed Hrow _ IH]; intros lines; simpl.
  - now rewrite app_nil_r.
  - rewrite Hrow. simpl. rewrite IH, <- app_assoc. reflexivity.
Qed.

Lemma table_lines (header rule : string) (items : list Value) (typed : list A) :
  Forall2 (fun v t => row v = Ret (line t)) items typed ->
  table header rule row items = Ret (join LF (header :: rule :: map line typed)).
Proof.
  intros Hrows. unfold table. now rewrite (push_rows_lines _ _ Hrows).
Qed.

End Tables.

Lemma Forall2_with_Forall {A B : Type} (P R : A -> B -> Prop) (Q : B -> Prop)
    (xs : list A) (ys : list B) :
  (forall a b, P a b -> Q b -> R a b) ->
  Forall2 P xs ys -> Forall Q ys -> Forall2 R xs ys.
Proof.
  intros Hstep Hpairs. induction Hpairs as [|a b xs ys Hab _ IH]; intros Hall.
  - constructor.
  - inversion Hall; subst. constructor; [now apply Hstep | now apply IH].
Qed.

(** C6, as stated, fails on two counts.  The author cell of a commit shows
    the raw author string although the user has a display name, and the
    body cell of a comment keeps the second line of the body. *)
Lemma C6_raw_author_first_and_comment_keeps_lines :
  get_opt (get_opt (get_opt commit_by_ann "author") "user") "display_name"
  = VStr "Ann Lee"
  /\ formatCommitsTable (runtime := Sample.runtime) [commit_by_ann]
  = Ret (join LF ["| Hash | Message | Author | Date |";
                  "|---|---|---|---|";
                  "| 0123456 | Fix paging | ann <ann@example.org> | - |"])
  /\ formatCommentsTable (runtime := Sample.runtime) [comment_in_two_lines]
     = Ret (join LF ["| ID | Author | Content | Created |";
                     "|---|---|---|---|";
                     "| 3 | Ann Lee | Looks good" ++ LF ++ "Thanks | - |"]).
Proof. repeat split. Qed.

(** C6 (amended): in the commits table the message cell is the first line
    of the message cut to 50 characters and the author cell is the raw
    author string if there is one, else the display name of the author's
    user, else [-].  In the comments table the author cell is the user's
    display name, else the username, else [-], and the body cell of a
    one-line body is that line cut to 50 characters.  Both tables have one
    such row per item, in order. *)
Theorem C6_commit_and_comment_cells :
  forall (R : Runtime)
         (commit_items : list Value) (commits : list Commit.t)
         (comment_items : list Value) (comments : list Comment.t),
    Forall2 Represents.commit commit_items commits ->
    Forall2 Represents.comment comment_items comments ->
    Forall (fun c => match Layout.comment_body c with
                     | Some body => Layout.single_line body = true
                     | None => True
                     end) comments ->
    formatCommitsTable commit_items
    = Ret (Layout.markdown_table ["Hash"; "Message"; "Author"; "Date"]
             (map Layout.commit_line commits))
    /\ formatCommentsTable comment_items
       = Ret (Layout.markdown_table ["ID"; "Author"; "Content"; "Created"]
                (map Layout.comment_line comments)).
Proof.
  intros R commit_items commits comment_items comments Hcommits Hcomments Hlines.
  split.
  - unfold formatCommitsTable. apply table_lines.
    eapply Forall2_impl; [|exact Hcommits].
    intros v c Hc. now apply commit_row_of_commit.
  - unfold formatCommentsTable. apply table_lines.
    eapply Forall2_with_Forall; [|exact Hcomments|exact Hlines].
    intros v c Hc Hline. now apply comment_row_of_comment.
Qed.

Lemma C6_commit_and_comment_cells_witness :
  formatCommitsTable (runtime := Sample.runtime) [commit_by_ann]
  = Ret (Layout.markdown_table ["Hash"; "Message"; "Author"; "Date"]
           ["| 0123456 | Fix paging | ann <ann@example.org> | - |"])
  /\ formatCommentsTable (runtime := Sample.runtime) [comment_in_one_line]
     = Ret (Layout.markdown_table ["ID"; "Author"; "Content"; "Created"]
              ["| 4 | bob | Looks good | 2024-05-01 |"]).
Proof.
  apply (C6_commit_and_comment_cells Sample.runtime
           [commit_by_ann] [commit_by_ann_typed]
           [comment_in_one_line] [comment_in_one_line_typed]).
  - repeat constructor; now eexists.
  - repeat constructor; now eexists.
  - repeat constructor.
Defined.

Section PageFacts.

Context {runtime : Runtime}.

Lemma page_heading_of_page (page : PaginatedResponse.t Value) (entityType : string) :
  page_heading (page_value page) entityType
  = Ret (Layout.page_heading_lines entityType page).
Proof.
  unfold page_heading, Layout.page_heading_lines, page_value.
  destruct page as [items count [total|] [|] nextCursor]; reflexivity.
Qed.

Lemma formatPaginatedAsMarkdown_of_page (page : PaginatedResponse.t Value)
    (entityType rendered : string) :
  PaginatedResponse.items page <> [] ->
  table_for entityType (PaginatedResponse.items page) = Ret rendered ->
  formatAsMarkdown (page_value page) entityType
  = Ret (join LF (List.app (Layout.page_heading_lines entityType page) [rendered])).
Proof.
  intros Hsome Htable. unfold formatAsMarkdown.
  change (isPaginatedResponse (page_value page))
    with (Some (PaginatedResponse.items page)).
  unfold formatPaginatedAsMarkdown. rewrite page_heading_of_page. cbn [bind].
  destruct (PaginatedResponse.items page) as [|item rest]; [now elim Hsome|].
  rewrite Htable. reflexivity.
Qed.

End PageFacts.

(** C7: a non-empty page of pull requests, formatted in markdown mode under
    either name of the kind, is rendered as the page heading followed by
    the markdown table with the columns ID, Title, State, Author,
    Source -> Dest and one row per pull request, in the order of the
    items. *)
Theorem C7_pull_request_table :
  forall (R : Runtime) (page : PaginatedResponse.t Value)
         (prs : list PullRequest.t) (entityType : string),
    Forall2 Represents.pull_request (PaginatedResponse.items page) prs ->
    prs <> [] ->
    entityType = "pullrequests" \/ entityType = "pull_requests" ->
    let rows := map Layout.pull_request_line prs in
    let rendered :=
      Layout.markdown_table ["ID"; "Title"; "State"; "Author"; "Source -> Dest"]
        rows in
    formatPullRequestsTable (PaginatedResponse.items page) = Ret rendered
    /\ formatResponse (page_value page) markdown entityType
       = Ret {| content :=
                  [{| text := Some (join LF (List.app
                                      (Layout.page_heading_lines entityType page)
                                      [rendered])) |}];
                isError := None |}
    /\ List.length rows = List.length (PaginatedResponse.items page)
    /\ (forall (i : nat) (pr : PullRequest.t),
           nth_error prs i = Some pr ->
           nth_error rows i = Some (Layout.pull_request_line pr)
           /\ exists item, nth_error (PaginatedResponse.items page) i = Some item
                           /\ Represents.pull_request item pr).
Proof.
  intros R page prs entityType Hprs Hsome Hkind rows rendered.
  assert (Htable : formatPullRequestsTable (PaginatedResponse.items page)
                   = Ret rendered).
  { unfold formatPullRequestsTable. apply table_lines.
    eapply Forall2_impl; [|exact Hprs].
    intros v pr Hpr. now apply pull_request_row_of_pull_request. }
  split; [exact Htable|]. split; [|split].
  - unfold formatResponse.
    rewrite (formatPaginatedAsMarkdown_of_page page entityType rendered).
    + reflexivity.
    + intros Hnil. rewrite Hnil in Hprs. inversion Hprs; subst. now elim Hsome.
    + destruct Hkind as [-> | ->]; exact Htable.
  - subst rows. rewrite length_map. symmetry. exact (Forall2_length Hprs).
  - intros i pr Hi. split.
    + subst rows. now apply map_nth_error.
    + clear Htable rendered rows Hsome. revert i Hi.
      induction Hprs as [|v t items typed Hvt _ IH]; intros [|i] Hi;
        try discriminate.
      * injection Hi as <-. now exists v.
      * now apply IH.
Qed.

Lemma C7_pull_request_table_witness :
  formatResponse (runtime := Sample.runtime) (page_value two_pull_requests)
    markdown "pull_requests"
  = Ret {| content :=
             [{| text :=
                   Some (join LF
                           ["## Pull_requests";
                            "";
                            "**Total:** 12 | **Showing:** 2";
                            "**More available:** Yes";
                            "";
                            join LF
                              ["| ID | Title | State | Author | Source -> Dest |";
                               "|---|---|---|---|---|";
                               "| #7 | Fix pagination | OPEN | Ann Lee | fix/paging -> main |";
                               "| #8 | Add docs | MERGED | bob | docs -> main |"]]) |}];
           isError := None |}.
Proof.
  apply (C7_pull_request_table Sample.runtime two_pull_requests
           [pr_7_typed; pr_8_typed] "pull_requests").
  - repeat constructor; now eexists.
  - discriminate.
  - now right.
Defined.

(* ================================================================== *)
(** * Reading numbers back                                             *)
(* ================================================================== *)

Section Decimal.

Lemma read_digits_string_of_uint (d : Decimal.uint) (rest : string) :
  forall (acc : Z) (seen : bool),
    match rest with
    | EmptyString => True
    | String c _ => is_digit c = false
    end ->
    read_digits (NilEmpty.string_of_uint d ++ rest) acc seen
    = (digits_value d acc,
       match d with Decimal.Nil => seen | _ => true end).
Proof.
  induction d; intros acc seen Hrest; cbn -[Z.mul Z.add is_digit digit_value];
    try (match goal with
         | |- context [is_digit ?c] =>
             let b := eval vm_compute in (is_digit c) in
             change (is_digit c) with b;
             let v := eval vm_compute in (digit_value c) in
             change (digit_value c) with v
         end;
         rewrite IHd by exact Hrest; rewrite ?Z.add_0_r; now destruct d).
  destruct rest as [|c rest']; [reflexivity|].
  cbn -[Z.mul Z.add is_digit]. now rewrite Hrest.
Qed.

Lemma digits_value_pos (d : Decimal.uint) (acc : positive) :
  digits_value d (Zpos acc) = Zpos (Pos.of_uint_acc d acc).
Proof.
  revert acc. induction d; intros acc; cbn [digits_value Pos.of_uint_acc];
    try reflexivity; rewrite <- IHd; f_equal; lia.
Qed.

Lemma digits_value_of_uint (d : Decimal.uint) :
  digits_value d 0 = Z.of_N (Pos.of_uint d).
Proof.
  induction d; cbn [digits_value Pos.of_uint]; try reflexivity;
    try exact IHd; apply (digits_value_pos d).
Qed.

End Decimal.

Section ParseInt.

Ltac eval_char_tests :=
  repeat match goal with
         | |- context [is_space ?c] =>
             let b := eval vm_compute in (is_space c) in
             change (is_space c) with b
         end.

Lemma parseInt_unsigned (d : Decimal.uint) (rest : string) :
  d <> Decimal.Nil ->
  no_leading_digit rest ->
  parseInt (NilEmpty.string_of_uint d ++ rest) = Num (digits_value d 0).
Proof.
  intros Hd Hrest. unfold parseInt.
  pose proof (read_digits_string_of_uint d rest 0 false Hrest) as Hread.
  destruct d; try (now elim Hd);
    cbn [NilEmpty.string_of_uint String.append trimStart] in *;
    eval_char_tests; cbv iota; rewrite Hread; reflexivity.
Qed.

Lemma parseInt_negative (d : Decimal.uint) (rest : string) :
  d <> Decimal.Nil ->
  no_leading_digit rest ->
  parseInt (String "-" (NilEmpty.string_of_uint d ++ rest))
  = Num (- digits_value d 0).
Proof.
  intros Hd Hrest. unfold parseInt.
  pose proof (read_digits_string_of_uint d rest 0 false Hrest) as Hread.
  cbn [trimStart]. eval_char_tests. cbv iota.
  rewrite Hread. now destruct d.
Qed.

(** [parseInt] reads back the decimal text of an integer, whatever
    follows it, as long as that is not another digit. *)
Lemma parseInt_Z_to_string (z : Z) (rest : string) :
  no_leading_digit rest ->
  parseInt (Z_to_string z ++ rest) = Num z.
Proof.
  intros Hrest. unfold Z_to_string.
  destruct z as [|p|p]; cbn [Z.to_int NilZero.string_of_int NilZero.string_of_uint].
  - change (parseInt (NilEmpty.string_of_uint (Decimal.D0 Decimal.Nil) ++ rest)
            = Num 0).
    now rewrite parseInt_unsigned.
  - assert (Hd := DecimalPos.Unsigned.to_uint_nonnil p).
    assert (Hs : NilZero.string_of_uint (Pos.to_uint p)
                 = NilEmpty.string_of_uint (Pos.to_uint p)).
    { now destruct (Pos.to_uint p). }
    rewrite Hs, parseInt_unsigned, digits_value_of_uint,
            DecimalPos.Unsigned.of_to by assumption.
    reflexivity.
  - assert (Hd := DecimalPos.Unsigned.to_uint_nonnil p).
    assert (Hs : NilZero.string_of_uint (Pos.to_uint p)
                 = NilEmpty.string_of_uint (Pos.to_uint p)).
    { now destruct (Pos.to_uint p). }
    rewrite Hs. cbn [String.append].
    rewrite parseInt_negative, digits_value_of_uint,
            DecimalPos.Unsigned.of_to by assumption.
    reflexivity.
Qed.

End ParseInt.

(** X1: a numeric setting written in decimal is read back as that number,
    whatever text follows it, for every safe integer (at most [2^53 - 1]
    in magnitude, the range in which the source's doubles are exact); a
    setting that is not set, or that does not start with a number, gives
    the default. *)
Theorem getEnvNumber_reads_decimal_or_defaults :
  forall (env : Env) (key : EnvKey) (defaultValue : Z),
    match string_setting env key with
    | None => getEnvNumber env key defaultValue = defaultValue
    | Some value =>
        (parseInt value = NaN -> getEnvNumber env key defaultValue = defaultValue)
        /\ (forall (n : Z) (rest : string),
               value = Z_to_string n ++ rest ->
               no_leading_digit rest ->
               Z.abs n <= MAX_SAFE_INTEGER ->
               getEnvNumber env key defaultValue = n)
    end.
Proof.
  intros env key defaultValue. unfold getEnvNumber.
  destruct (string_setting env key) as [value|]; [|reflexivity].
  split.
  - now intros ->.
  - intros n rest -> Hrest _. now rewrite parseInt_Z_to_string.
Qed.

Lemma getEnvNumber_reads_decimal_or_defaults_witness :
  getMaxPageSize configured_env = 50
  /\ getDefaultPageSize configured_env = 20
  /\ getCharacterLimit configured_env = 50000.
Proof.
  pose proof (getEnvNumber_reads_decimal_or_defaults
                configured_env key_MAX_PAGE_SIZE 100) as Hmax.
  pose proof (getEnvNumber_reads_decimal_or_defaults
                configured_env key_DEFAULT_PAGE_SIZE 20) as Hdefault.
  pose proof (getEnvNumber_reads_decimal_or_defaults
                configured_env key_CHARACTER_LIMIT 50000) as Hlimit.
  cbn [string_setting configured_env MAX_PAGE_SIZE DEFAULT_PAGE_SIZE
       CHARACTER_LIMIT] in Hmax, Hdefault, Hlimit.
  split; [|split].
  - apply (proj2 Hmax 50 " per page"); [reflexivity | reflexivity |].
    unfold MAX_SAFE_INTEGER. cbn. lia.
  - apply (proj1 Hdefault); reflexivity.
  - exact Hlimit.
Defined.

(* ================================================================== *)
(** * Query strings                                                    *)
(* ================================================================== *)

Section QueryFacts.

Lemma count_char_append (c : ascii) (a b : string) :
  count_char c (a ++ b) = (count_char c a + count_char c b)%nat.
Proof. induction a as [|x a IH]; simpl; [reflexivity | rewrite IH; lia]. Qed.

Lemma is_delimiter_cases (c : ascii) :
  is_delimiter c = true ->
  c = "&"%char \/ c = "="%char \/ c = "?"%char \/ c = "#"%char.
Proof.
  unfold is_delimiter. intros H.
  repeat (apply orb_true_iff in H; destruct H as [H|H]);
    apply Ascii.eqb_eq in H; auto.
Qed.

Lemma plain_append (a b : string) : plain a -> plain b -> plain (a ++ b).
Proof.
  intros Ha Hb c Hc. now rewrite count_char_append, (Ha c Hc), (Hb c Hc).
Qed.

Lemma plain_literal (s : string) :
  count_char "&" s = O -> count_char "=" s = O ->
  count_char "?" s = O -> count_char "#" s = O -> plain s.
Proof.
  intros H1 H2 H3 H4 c Hc.
  destruct (is_delimiter_cases c Hc) as [-> | [-> | [-> | ->]]]; assumption.
Qed.

Lemma unreserved_not_delimiter (c : ascii) :
  unreserved c = true -> is_delimiter c = false.
Proof.
  destruct c as [b0 b1 b2 b3 b4 b5 b6 b7].
  destruct b0, b1, b2, b3, b4, b5, b6, b7; vm_compute; congruence.
Qed.

Lemma hex_digit_not_delimiter (n : nat) : is_delimiter (hex_digit n) = false.
Proof. do 16 (destruct n as [|n]; [reflexivity|]). reflexivity. Qed.

Lemma plain_char (x : ascii) :
  is_delimiter x = false -> plain (String x EmptyString).
Proof.
  intros Hx c Hc. cbn [count_char].
  destruct (Ascii.eqb_spec x c) as [->|_]; [|reflexivity].
  congruence.
Qed.

Lemma plain_percent (n : nat) : plain (percent n).
Proof.
  unfold percent.
  change (plain (String "%" EmptyString
                 ++ String (hex_digit (n / 16)) EmptyString
                 ++ String (hex_digit (n mod 16)) EmptyString)).
  apply plain_append; [apply plain_char; reflexivity|].
  apply plain_append; apply plain_char; apply hex_digit_not_delimiter.
Qed.

(** [encodeURIComponent] leaves no delimiter in its result. *)
Lemma plain_encodeURIComponent (s : string) : plain (encodeURIComponent s).
Proof.
  induction s as [|x s IH]; [intros c _; reflexivity|].
  cbn [encodeURIComponent]. apply plain_append; [|exact IH].
  destruct (unreserved x) eqn:Hx.
  - apply plain_char. now apply unreserved_not_delimiter.
  - destruct (nat_of_ascii x <? 128)%nat;
      [apply plain_percent | apply plain_append; apply plain_percent].
Qed.

Lemma plain_string_of_uint (d : Decimal.uint) :
  plain (NilEmpty.string_of_uint d).
Proof.
  induction d; cbn [NilEmpty.string_of_uint];
    try (intros c _; reflexivity);
    match goal with
    | |- plain (String ?x ?s) =>
        change (plain (String x EmptyString ++ s));
        apply plain_append; [apply plain_char; reflexivity | exact IHd]
    end.
Qed.

Lemma plain_Z_to_string (z : Z) : plain (Z_to_string z).
Proof.
  assert (Hu : forall d, plain (NilZero.string_of_uint d)).
  { intros d. destruct d; try apply (plain_string_of_uint _).
    apply plain_char. reflexivity. }
  unfold Z_to_string.
  destruct (Z.to_int z) as [d|d]; cbn [NilZero.string_of_int]; [apply Hu|].
  change (plain (String "-" EmptyString ++ NilZero.string_of_uint d)).
  apply plain_append; [apply plain_char; reflexivity | apply Hu].
Qed.

Lemma pair_part_counts (part : string) (c : ascii) :
  pair_part part -> is_delimiter c = true ->
  count_char c part = if Ascii.eqb c "=" then 1%nat else O.
Proof.
  intros (name & value & -> & Hname & Hvalue) Hc.
  rewrite !count_char_append, (Hname c Hc), (Hvalue c Hc).
  cbn [count_char Nat.add]. rewrite (Ascii.eqb_sym "="%char c).
  destruct (Ascii.eqb c "="); reflexivity.
Qed.

Lemma join_counts (parts : list string) (c : ascii) :
  Forall pair_part parts -> is_delimiter c = true -> parts <> [] ->
  count_char c (join "&" parts)
  = ((if Ascii.eqb c "=" then List.length parts else O)
     + (if Ascii.eqb c "&" then pred (List.length parts) else O))%nat.
Proof.
  intros Hparts Hc. induction Hparts as [|part rest Hpart Hrest IH];
    intros Hsome; [now elim Hsome|].
  destruct rest as [|next rest'].
  - cbn [join String.concat List.length pred].
    rewrite (pair_part_counts part c Hpart Hc).
    destruct (Ascii.eqb c "="), (Ascii.eqb c "&"); reflexivity.
  - change (join "&" (part :: next :: rest'))
      with (part ++ "&" ++ join "&" (next :: rest')).
    rewrite !count_char_append, (pair_part_counts part c Hpart Hc), IH
      by discriminate.
    cbn [count_char List.length pred]. rewrite (Ascii.eqb_sym "&"%char c).
    destruct (Ascii.eqb c "="), (Ascii.eqb c "&"); lia.
Qed.

Lemma query_of_parts_counts (parts : list string) (c : ascii) :
  Forall pair_part parts -> is_delimiter c = true ->
  count_char c (query_of_parts parts)
  = ((if Ascii.eqb c "=" then List.length parts else O)
     + (if Ascii.eqb c "&" then pred (List.length parts) else O)
     + (if Ascii.eqb c "?" then Nat.min 1 (List.length parts) else O))%nat.
Proof.
  intros Hparts Hc. destruct parts as [|part rest] eqn:Hshape.
  - cbn [query_of_parts count_char List.length pred].
    destruct (Ascii.eqb c "="), (Ascii.eqb c "&"), (Ascii.eqb c "?");
      reflexivity.
  - unfold query_of_parts.
    change (count_char c (String "?" (join "&" (part :: rest)))
            = ((if Ascii.eqb c "=" then List.length (part :: rest) else O)
               + (if Ascii.eqb c "&" then pred (List.length (part :: rest)) else O)
               + (if Ascii.eqb c "?"
                  then Nat.min 1 (List.length (part :: rest)) else O))%nat).
    cbn [count_char]. rewrite (join_counts (part :: rest) c Hparts Hc)
      by discriminate.
    rewrite (Ascii.eqb_sym "?"%char c). cbn [List.length Nat.min].
    destruct (Ascii.eqb c "?"); lia.
Qed.

Lemma pair_part_number (name : string) (value : option Z) :
  plain name -> Forall pair_part (push_number name value).
Proof.
  intros Hname. unfold push_number. destruct value as [z|]; [|constructor].
  destruct (z =? 0); constructor; [|constructor].
  exists name, (Z_to_string z). repeat split; [exact Hname|].
  apply plain_Z_to_string.
Qed.

Lemma pair_part_encoded (name : string) (value : option string) :
  plain name -> Forall pair_part (push_encoded name value).
Proof.
  intros Hname. unfold push_encoded. destruct value as [s|]; [|constructor].
  destruct (String.eqb s ""); constructor; [|constructor].
  exists name, (encodeURIComponent s). repeat split; [exact Hname|].
  apply plain_encodeURIComponent.
Qed.

Lemma pair_part_queryParts (params : PaginationParams.t) :
  Forall pair_part (queryParts params).
Proof.
  unfold queryParts.
  apply Forall_app; split; [apply pair_part_number; now apply plain_literal|].
  apply Forall_app; split; [apply pair_part_number; now apply plain_literal|].
  apply Forall_app; split; apply pair_part_encoded; now apply plain_literal.
Qed.

Lemma buildPaginationQuery_of_parts (params : PaginationParams.t) :
  buildPaginationQuery (Some params) = query_of_parts (queryParts params).
Proof.
  unfold buildPaginationQuery, query_of_parts.
  now destruct (queryParts params).
Qed.

End QueryFacts.


Section EndpointFacts.

Lemma string_append_assoc (a b c : string) : (a ++ b) ++ c = a ++ b ++ c.
Proof. induction a as [|x a IH]; simpl; [reflexivity | now rewrite IH]. Qed.

Lemma join_snoc (parts : list string) (x : string) :
  parts <> [] ->
  join "&" (parts ++ [x])%list = join "&" parts ++ "&" ++ x.
Proof.
  induction parts as [|p rest IH]; intros Hsome; [now elim Hsome|].
  destruct rest as [|q rest'].
  - reflexivity.
  - change (join "&" ((p :: q :: rest') ++ [x])%list)
      with (p ++ "&" ++ join "&" ((q :: rest') ++ [x])%list).
    rewrite IH by discriminate.
    change (join "&" (p :: q :: rest')) with (p ++ "&" ++ join "&" (q :: rest')).
    now rewrite !string_append_assoc.
Qed.

(** Appending a parameter to the query of some parts gives the query of
    the parts with one more. *)
Lemma add_parameter_of_parts (parts : list string) (name : string)
    (value : option string) (text : string -> string) :
  add_parameter (query_of_parts parts) name value text
  = query_of_parts (parts ++ push_text text name value)%list.
Proof.
  unfold add_parameter, push_text. destruct value as [v|];
    [|now rewrite app_nil_r].
  destruct (String.eqb v ""); [now rewrite app_nil_r|].
  destruct parts as [|p rest].
  - reflexivity.
  - change (query_of_parts (p :: rest)) with ("?" ++ join "&" (p :: rest)).
    change (String.eqb ("?" ++ join "&" (p :: rest)) "") with false.
    cbv iota.
    set (pair := name ++ "=" ++ text v).
    change (query_of_parts (List.app (p :: rest) [pair]))
      with ("?" ++ join "&" (List.app (p :: rest) [pair])).
    rewrite join_snoc by discriminate. subst pair.
    now rewrite !string_append_assoc.
Qed.

Lemma pair_part_text (text : string -> string) (name : string)
    (value : option string) :
  plain name -> (forall s, plain (text s)) ->
  Forall pair_part (push_text text name value).
Proof.
  intros Hname Htext. unfold push_text. destruct value as [s|]; [|constructor].
  destruct (String.eqb s ""); constructor; [|constructor].
  exists name, (text s). repeat split; [exact Hname | apply Htext].
Qed.

End EndpointFacts.

(** X3: the query [listCommits] builds by appending [revision], [include]
    and [exclude] to the pagination query, choosing [?] or [&] at each
    step, is the one query string of all the parts that are set: a single
    [?] in front, [&] between the pairs, each filter percent-encoded, so
    that no filter text can add a pair of its own. *)
Theorem listCommits_query_joins_all_parts :
  forall (params : CommitListParams),
    let parts :=
      (queryParts (commit_pagination params)
       ++ push_text encodeURIComponent "revision" (revision params)
       ++ push_text encodeURIComponent "include" (include params)
       ++ push_text encodeURIComponent "exclude" (exclude params))%list in
    listCommits_query (Some params) = query_of_parts parts
    /\ listCommits_query None = ""
    /\ (forall workspace repoSlug,
           listCommits_endpoint workspace repoSlug (Some params)
           = "/repositories/" ++ workspace ++ "/" ++ repoSlug ++ "/commits"
             ++ query_of_parts parts)
    /\ count_char "=" (listCommits_query (Some params)) = List.length parts
    /\ count_char "&" (listCommits_query (Some params)) = pred (List.length parts)
    /\ count_char "?" (listCommits_query (Some params))
       = Nat.min 1 (List.length parts)
    /\ List.length parts
       = (List.length (queryParts (commit_pagination params))
          + given_string (revision params)
          + given_string (include params)
          + given_string (exclude params))%nat.
Proof.
  intros params parts.
  assert (Hquery : listCommits_query (Some params) = query_of_parts parts).
  { unfold listCommits_query. rewrite buildPaginationQuery_of_parts.
    rewrite !add_parameter_of_parts. subst parts. now rewrite <- !app_assoc. }
  assert (Hparts : Forall pair_part parts).
  { subst parts.
    apply Forall_app; split; [apply pair_part_queryParts|].
    apply Forall_app; split; [|apply Forall_app; split];
      (apply pair_part_text;
       [now apply plain_literal | exact plain_encodeURIComponent]). }
  split; [exact Hquery|]. split; [reflexivity|].
  split; [intros workspace repoSlug; unfold listCommits_endpoint;
          now rewrite Hquery|].
  rewrite Hquery, !(query_of_parts_counts parts _ Hparts) by reflexivity.
  cbn [Ascii.eqb Bool.eqb]. repeat split; try lia.
  subst parts. rewrite !length_app.
  unfold push_text, given_string, truthy_str.
  destruct (revision params) as [r|]; [destruct (String.eqb r "")|];
    (destruct (include params) as [i|]; [destruct (String.eqb i "")|]);
    (destruct (exclude params) as [e|]; [destruct (String.eqb e "")|]);
    cbn [List.length negb]; lia.
Qed.

(** X4: the query of [listPullRequests] is the pagination query with the
    pair [state=<state>] appended when a state is given, the state being
    written as it is (it is not percent-encoded, unlike the filters of
    [listCommits]). *)
Theorem listPullRequests_query_appends_raw_state :
  forall (params : PullRequestListParams),
    listPullRequests_query (Some params)
    = query_of_parts
        (queryParts (pr_pagination params) ++ push_raw "state" (state params))%list
    /\ listPullRequests_query None = ""
    /\ (forall workspace repoSlug,
           listPullRequests_endpoint workspace repoSlug (Some params)
           = "/repositories/" ++ workspace ++ "/" ++ repoSlug ++ "/pullrequests"
             ++ query_of_parts
                  (List.app (queryParts (pr_pagination params))
                     (push_raw "state" (state params))))
    /\ (forall (text : string),
           state params = Some text -> text <> "" ->
           exists front,
             listPullRequests_query (Some params) = front ++ "state=" ++ text
             /\ (front = "?" \/ exists query, front = query ++ "&")).
Proof.
  intros params.
  assert (Hquery : listPullRequests_query (Some params)
                   = query_of_parts
                       (queryParts (pr_pagination params)
                        ++ push_raw "state" (state params))%list).
  { unfold listPullRequests_query. rewrite buildPaginationQuery_of_parts.
    apply add_parameter_of_parts. }
  split; [exact Hquery|]. split; [reflexivity|].
  split; [intros workspace repoSlug; unfold listPullRequests_endpoint;
          now rewrite Hquery|].
  intros text Hstate Hne. unfold listPullRequests_query, add_parameter.
  rewrite Hstate. destruct (String.eqb_spec text "") as [->|_]; [now elim Hne|].
  destruct (String.eqb (buildPaginationQuery (Some (pr_pagination params))) "")
    eqn:Hempty.
  - apply String.eqb_eq in Hempty. rewrite Hempty. exists "?". split.
    + reflexivity.
    + now left.
  - exists (buildPaginationQuery (Some (pr_pagination params)) ++ "&"). split.
    + now rewrite !string_append_assoc.
    + right. now eexists.
Qed.

(** X5: [normalizePaginationParams] never gives a page size above the
    maximum, leaves [page], [q] and [sort] as they are, and normalizing
    its own result again changes nothing. *)
Theorem normalizePaginationParams_idempotent :
  forall (params : option PaginationParams.t) (maxPagelen : option Z),
    let maximum := match maxPagelen with Some m => m | None => 100 end in
    let normalized := normalizePaginationParams params maxPagelen in
    n_pagelen normalized <= maximum
    /\ n_page normalized
       = match params with Some p => PaginationParams.page p | None => None end
    /\ n_q normalized
       = match params with Some p => PaginationParams.q p | None => None end
    /\ n_sort normalized
       = match params with Some p => PaginationParams.sort p | None => None end
    /\ normalizePaginationParams (Some (as_params normalized)) maxPagelen
       = normalized.
Proof.
  intros params maxPagelen maximum normalized.
  assert (Hcap : n_pagelen normalized <= maximum).
  { subst normalized maximum. unfold normalizePaginationParams. cbn [n_pagelen].
    destruct maxPagelen; apply Z.le_min_r. }
  repeat split; try exact Hcap; try reflexivity.
  subst normalized. unfold normalizePaginationParams at 1.
  cbn [as_params PaginationParams.pagelen PaginationParams.page
       PaginationParams.q PaginationParams.sort].
  unfold normalizePaginationParams.
  cbn [n_pagelen n_page n_q n_sort]. f_equal.
  set (requested := match match params with
                          | Some p => PaginationParams.pagelen p
                          | None => None
                          end with
                    | Some z => if z =? 0 then PAGINATION_DEFAULTS.pagelen else z
                    | None => PAGINATION_DEFAULTS.pagelen
                    end).
  set (m := match maxPagelen with
            | Some m => m
            | None => PAGINATION_DEFAULTS.maxPagelen
            end).
  assert (Hrequested : requested <> 0).
  { subst requested. destruct params as [p|]; [|discriminate].
    destruct (PaginationParams.pagelen p) as [z|]; [|discriminate].
    destruct (Z.eqb_spec z 0); [discriminate | assumption]. }
  destruct (Z.eqb_spec (Z.min requested m) 0) as [Hzero|Hnonzero].
  - unfold PAGINATION_DEFAULTS.pagelen. lia.
  - lia.
Qed.

(* ================================================================== *)
(** * Credentials, from the request headers to the request sent        *)
(* ================================================================== *)

Section CredentialFacts.

Lemma validateCredentials_agrees_with_getAuthHeaders (creds : TenantCredentials) :
  match validateCredentials creds with
  | Ret _ => exists auth, getAuthHeaders (constructor creds) = Ret auth
  | Throw error =>
      error = missing_credentials
      /\ getAuthHeaders (constructor creds) = Throw no_credentials
  end.
Proof.
  unfold validateCredentials, getAuthHeaders. cbn [credentials constructor].
  destruct (truthy_str (accessToken creds)).
  - rewrite andb_false_r. now eexists.
  - destruct (truthy_str (username creds) && truthy_str (appPassword creds)).
    + now eexists.
    + now split.
Qed.

Lemma or_undefined_truthy (value : option string) :
  or_undefined value = None \/ truthy_str (or_undefined value) = true.
Proof.
  unfold or_undefined. destruct (truthy_str value) eqn:H; [right | left];
    [exact H | reflexivity].
Qed.

Lemma Headers_get_found (hs : Headers) (name : string) :
  (exists value, Headers_get hs name = Some value)
  <-> exists h, In h hs
                /\ String.eqb (toLowerCase (fst h)) (toLowerCase name) = true.
Proof.
  unfold Headers_get. split.
  - intros [value Hget].
    destruct (filter _ hs) as [|h found] eqn:Hfilter; [discriminate Hget|].
    assert (Hin : In h (filter
                          (fun h => String.eqb (toLowerCase (fst h))
                                      (toLowerCase name)) hs))
      by (rewrite Hfilter; now left).
    apply filter_In in Hin. now exists h.
  - intros [h [Hin Hname]].
    assert (Hfound : In h (filter
                             (fun h => String.eqb (toLowerCase (fst h))
                                         (toLowerCase name)) hs))
      by (apply filter_In; now split).
    destruct (filter _ hs) as [|h' found]; [now elim Hfound | now eexists].
Qed.

(** The object spread keeps the keys of its first operand. *)
Lemma spread_keeps_keys (a b : Headers) (h : string * string) :
  In h a -> exists value, In (fst h, value) (spread a b).
Proof.
  intros Hin. unfold spread.
  destruct (find (fun x => String.eqb (fst x) (fst h)) (rev b)) as [x|] eqn:Hfind.
  - exists (snd x). apply in_or_app. left.
    apply in_map_iff. exists h. now rewrite Hfind.
  - exists (snd h). apply in_or_app. left.
    apply in_map_iff. exists h. rewrite Hfind. split; [now destruct h | exact Hin].
Qed.

Lemma Headers_get_spread_found (a b : Headers) (name value : string) :
  Headers_get a name = Some value ->
  exists value', Headers_get (spread a b) name = Some value'.
Proof.
  intros Hget. apply Headers_get_found.
  destruct (proj1 (Headers_get_found a name) (ex_intro _ value Hget))
    as [h [Hin Hname]].
  destruct (spread_keeps_keys a b h Hin) as [value' Hin'].
  now exists (fst h, value').
Qed.

(** Without a key of that name in the second operand, the header read
    from the spread is the one of the first. *)
Lemma Headers_get_spread_kept (a b : Headers) (name : string) :
  Forall (fun h => String.eqb (toLowerCase (fst h)) (toLowerCase name) = false) b ->
  Headers_get (spread a b) name = Headers_get a name.
Proof.
  intros Hother. unfold Headers_get, spread.
  set (p := fun h : string * string =>
              String.eqb (toLowerCase (fst h)) (toLowerCase name)).
  rewrite filter_app.
  assert (Hnone : forall q, filter p (filter q b) = []).
  { intros q. induction Hother as [|h rest Hh _ IH]; [reflexivity|].
    cbn [filter]. destruct (q h); [|exact IH].
    cbn [filter]. unfold p at 1. now rewrite Hh. }
  rewrite Hnone, app_nil_r.
  assert (Hsame : forall l,
             filter p (map (fun kv =>
                              match find (fun h => String.eqb (fst h) (fst kv)) (rev b) with
                              | Some h => (fst kv, snd h)
                              | None => kv
                              end) l)
             = filter p l).
  { induction l as [|kv l IH]; [reflexivity|].
    cbn [map filter].
    destruct (find (fun h => String.eqb (fst h) (fst kv)) (rev b)) as [h|] eqn:Hfind.
    - apply find_some in Hfind. destruct Hfind as [Hin Hkey].
      apply String.eqb_eq in Hkey.
      apply in_rev in Hin.
      rewrite Forall_forall in Hother. specialize (Hother h Hin).
      assert (Hnew : p (fst kv, snd h) = false)
        by (unfold p; cbn [fst]; now rewrite <- Hkey).
      assert (Hold : p kv = false) by (unfold p; now rewrite <- Hkey).
      rewrite Hnew, Hold. exact IH.
    - now rewrite IH. }
  now rewrite Hsame.
Qed.

Lemma getAuthHeaders_authorization (this : BitbucketClientImpl) (auth : Headers) :
  getAuthHeaders this = Ret auth ->
  exists value, Headers_get auth "Authorization" = Some value
                /\ (value = "Bearer " ++ template_str (accessToken (credentials this))
                    \/ value = "Basic " ++ btoa (template_str (username (credentials this))
                                                 ++ ":"
                                                 ++ template_str (appPassword (credentials this)))).
Proof.
  unfold getAuthHeaders.
  destruct (truthy_str (accessToken (credentials this))).
  - intros [= <-]. eexists. split; [reflexivity | now left].
  - destruct (truthy_str (username (credentials this))
              && truthy_str (appPassword (credentials this))); [|discriminate].
    intros [= <-]. eexists. split; [reflexivity | now right].
Qed.

End CredentialFacts.

(** C10: with an access token supplied (a non-empty string), whatever the
    username and app password, [getAuthHeaders] gives
    [Authorization: Bearer <accessToken>].  Every call of [request] and of
    [requestRaw] is then one call of [fetch], to the base URL followed by
    the endpoint, whose [Authorization] header is that bearer value (the
    client's methods pass no header of their own; a caller's header named
    [Authorization] is the one thing that could replace it).  The username
    and app password are ignored: two clients with the same access token
    and base URL make the same requests.  No Basic header is produced, and
    a client whose header is a Basic one has no access token. *)
Theorem C10_access_token_takes_precedence :
  forall (this : BitbucketClientImpl) (token : string),
    accessToken (credentials this) = Some token ->
    token <> "" ->
    getAuthHeaders this
    = Ret [("Authorization", "Bearer " ++ token);
           ("Content-Type", "application/json")]
    /\ (forall (endpoint : string) (options : RequestInit),
           exists (call raw_call : FetchCall),
             (forall (R : Runtime) (net : Network),
                 request this net endpoint options = bind (net call) read_response)
             /\ (forall (net : Network),
                    requestRaw this net endpoint options
                    = bind (net raw_call) read_raw_response)
             /\ fetch_url call = client_baseUrl this ++ endpoint
             /\ fetch_url raw_call = client_baseUrl this ++ endpoint
             /\ (Forall (fun h =>
                            String.eqb (toLowerCase (fst h)) "authorization" = false)
                    (headers options) ->
                 Headers_get (headers (fetch_init call)) "Authorization"
                 = Some ("Bearer " ++ token)
                 /\ Headers_get (headers (fetch_init raw_call)) "Authorization"
                    = Some ("Bearer " ++ token))
             /\ (headers options = [] ->
                 headers (fetch_init call)
                 = [("Authorization", "Bearer " ++ token);
                    ("Content-Type", "application/json")]
                 /\ headers (fetch_init raw_call)
                    = [("Authorization", "Bearer " ++ token);
                       ("Content-Type", "application/json");
                       ("Accept", "text/plain")]))
    /\ (forall (other : BitbucketClientImpl) (R : Runtime) (net : Network)
               (endpoint : string) (options : RequestInit),
           accessToken (credentials other) = Some token ->
           client_baseUrl other = client_baseUrl this ->
           request other net endpoint options = request this net endpoint options
           /\ requestRaw other net endpoint options
              = requestRaw this net endpoint options)
    /\ (forall (encoded : string),
           getAuthHeaders this
           <> Ret [("Authorization", "Basic " ++ encoded);
                   ("Content-Type", "application/json")])
    /\ (forall (that : BitbucketClientImpl) (auth : Headers) (value : string),
           getAuthHeaders that = Ret auth ->
           Headers_get auth "Authorization" = Some value ->
           String.prefix "Basic " value = true ->
           truthy_str (accessToken (credentials that)) = false
           /\ value
              = "Basic " ++ btoa (template_str (username (credentials that))
                                  ++ ":"
                                  ++ template_str (appPassword (credentials that)))).
Proof.
  intros this token Htoken Hne.
  assert (Hbearer : forall client,
             accessToken (credentials client) = Some token ->
             getAuthHeaders client
             = Ret [("Authorization", "Bearer " ++ token);
                    ("Content-Type", "application/json")]).
  { intros client Hclient. unfold getAuthHeaders. rewrite Hclient. simpl.
    destruct (String.eqb_spec token "") as [->|_]; [now elim Hne | reflexivity]. }
  pose proof (Hbearer this Htoken) as Hauth.
  split; [exact Hauth|]. split; [|split; [|split]].
  - intros endpoint options.
    exists (fetch_call this
              [("Authorization", "Bearer " ++ token);
               ("Content-Type", "application/json")] endpoint options),
           (raw_fetch_call this
              [("Authorization", "Bearer " ++ token);
               ("Content-Type", "application/json")] endpoint options).
    split; [intros R net; now apply request_after_auth|].
    split; [intros net; now apply requestRaw_after_auth|].
    split; [reflexivity|]. split; [reflexivity|]. split.
    + intros Hown. cbn [fetch_call raw_fetch_call fetch_init headers]. split.
      * now rewrite Headers_get_spread_kept.
      * rewrite Headers_get_spread_kept by exact Hown.
        rewrite Headers_get_spread_kept; [reflexivity | repeat constructor].
    + intros Hnone. cbn [fetch_call raw_fetch_call fetch_init headers].
      rewrite Hnone. split; reflexivity.
  - intros other R net endpoint options Hother Hbase.
    unfold request, requestRaw, fetch_call, raw_fetch_call.
    now rewrite (Hbearer other Hother), Hauth, Hbase.
  - intros encoded Hbasic. rewrite Hauth in Hbasic. discriminate Hbasic.
  - intros that auth value Hthat Hget Hprefix. unfold getAuthHeaders in Hthat.
    destruct (truthy_str (accessToken (credentials that))).
    + injection Hthat as <-. cbn in Hget. injection Hget as <-.
      cbn in Hprefix. discriminate Hprefix.
    + split; [reflexivity|].
      destruct (truthy_str (username (credentials that))
                && truthy_str (appPassword (credentials that)));
        [|discriminate Hthat].
      injection Hthat as <-. cbn in Hget. now injection Hget as <-.
Qed.

(** With both modes supplied, the remote end receives the bearer header
    on both paths. *)
Lemma C10_access_token_takes_precedence_witness :
  getAuthHeaders (constructor both_modes)
  = Ret [("Authorization", "Bearer oauth-token");
         ("Content-Type", "application/json")]
  /\ request (runtime := Sample.runtime) (constructor both_modes)
       echo_authorization "/user" no_options
     = Ret (VStr "Bearer oauth-token")
  /\ requestRaw (constructor both_modes) echo_authorization
       "/repositories/w/r/src/main/README.md" no_options
     = Ret "Bearer oauth-token".
Proof.
  destruct (C10_access_token_takes_precedence (constructor both_modes) "oauth-token")
    as (Hauth & Hcalls & _); [reflexivity | discriminate |].
  split; [exact Hauth|]. split.
  - destruct (Hcalls "/user" no_options)
      as (call & raw_call & Hrequest & _ & _ & _ & Hget & _).
    rewrite (Hrequest Sample.runtime echo_authorization).
    unfold echo_authorization.
    rewrite (proj1 (Hget (Forall_nil _))). reflexivity.
  - destruct (Hcalls "/repositories/w/r/src/main/README.md" no_options)
      as (call & raw_call & _ & Hraw & _ & _ & Hget & _).
    rewrite (Hraw echo_authorization). unfold echo_authorization.
    rewrite (proj2 (Hget (Forall_nil _))). reflexivity.
Defined.

(** X6: the check at the [/mcp] endpoint and the check made per request
    agree.  Credentials pass [validateCredentials] exactly when
    [getAuthHeaders] of the client made from them returns headers, so a
    client that is served never raises the no-credentials error, and the
    401 answer is given exactly for the credentials that would raise
    it. *)
Theorem served_client_has_credentials :
  (forall (creds : TenantCredentials),
      match validateCredentials creds with
      | Ret _ => exists auth, getAuthHeaders (constructor creds) = Ret auth
      | Throw error =>
          error = missing_credentials
          /\ getAuthHeaders (constructor creds) = Throw no_credentials
      end)
  /\ (forall (request_headers : Headers),
         match mcp_setup request_headers with
         | Ret (Serving client) =>
             client = constructor (parseTenantCredentials request_headers)
             /\ exists auth, getAuthHeaders client = Ret auth
         | Ret (Unauthorized error) =>
             error = missing_credentials
             /\ getAuthHeaders (constructor (parseTenantCredentials request_headers))
                = Throw no_credentials
         | Throw _ => False
         end).
Proof.
  split; [exact validateCredentials_agrees_with_getAuthHeaders|].
  intros request_headers. unfold mcp_setup.
  pose proof (validateCredentials_agrees_with_getAuthHeaders
                (parseTenantCredentials request_headers)) as Hagree.
  destruct (validateCredentials (parseTenantCredentials request_headers)).
  - cbn. split; [reflexivity | exact Hagree].
  - exact Hagree.
Qed.

Lemma lower_char_twice (c : ascii) : lower_char (lower_char c) = lower_char c.
Proof. destruct c as [[] [] [] [] [] [] [] []]; reflexivity. Qed.

Lemma toLowerCase_twice (name : string) :
  toLowerCase (toLowerCase name) = toLowerCase name.
Proof.
  unfold toLowerCase. induction name as [|c name IH]; [reflexivity|].
  cbn [map_string]. now rewrite lower_char_twice, IH.
Qed.

(** [Headers.get] finds a header whatever the letter case of its name in
    the request. *)
Lemma Headers_get_lower_names (request_headers : Headers) (name : string) :
  Headers_get (map (fun h => (toLowerCase (fst h), snd h)) request_headers) name
  = Headers_get request_headers name.
Proof.
  unfold Headers_get.
  assert (Hfilter : forall l : Headers,
             map snd
               (filter (fun h => String.eqb (toLowerCase (fst h)) (toLowerCase name))
                  (map (fun h => (toLowerCase (fst h), snd h)) l))
             = map snd
                 (filter (fun h => String.eqb (toLowerCase (fst h)) (toLowerCase name))
                    l)).
  { induction l as [|h l IH]; [reflexivity|].
    cbn [map filter fst]. rewrite toLowerCase_twice.
    destruct (String.eqb (toLowerCase (fst h)) (toLowerCase name));
      cbn [map snd]; now rewrite IH. }
  specialize (Hfilter request_headers).
  destruct (filter _ (map _ request_headers)) as [|a found];
    destruct (filter _ request_headers) as [|b found'];
    try discriminate Hfilter; [reflexivity|].
  f_equal. f_equal. exact Hfilter.
Qed.

(** X7: credentials parsed from the request headers follow the four
    headers [X-Bitbucket-Username], [X-Bitbucket-App-Password],
    [X-Bitbucket-Access-Token] and [X-Bitbucket-Base-URL]: each field is
    the value of its header, and absent when the header is missing or
    empty, so no field is ever the empty string.  The request is accepted
    at [/mcp] exactly when the access-token header, or both the username
    and the app-password header, have a value; the client then uses the
    base-URL header when it has a value, else the public API.  The letter
    case of the header names makes no difference. *)
Theorem parsed_credentials_follow_the_headers :
  forall (request_headers : Headers),
    let creds := parseTenantCredentials request_headers in
    let header (name : string) : option string :=
      match Headers_get request_headers name with
      | Some value => if String.eqb value "" then None else Some value
      | None => None
      end in
    let present (field : option string) :=
      match field with Some _ => true | None => false end in
    let accepted :=
      present (header "X-Bitbucket-Access-Token")
      || (present (header "X-Bitbucket-Username")
          && present (header "X-Bitbucket-App-Password")) in
    creds
    = {| username := header "X-Bitbucket-Username";
         appPassword := header "X-Bitbucket-App-Password";
         accessToken := header "X-Bitbucket-Access-Token";
         baseUrl := header "X-Bitbucket-Base-URL" |}
    /\ (forall name value, header name = Some value -> String.eqb value "" = false)
    /\ validateCredentials creds
       = (if accepted then Ret tt else Throw missing_credentials)
    /\ mcp_setup request_headers
       = Ret (if accepted then Serving (constructor creds)
              else Unauthorized missing_credentials)
    /\ client_baseUrl (constructor creds)
       = match header "X-Bitbucket-Base-URL" with
         | Some url => url
         | None => API_BASE_URL
         end
    /\ parseTenantCredentials
         (map (fun h => (toLowerCase (fst h), snd h)) request_headers)
       = creds.
Proof.
  intros request_headers creds header present accepted.
  assert (Hheader : forall name,
             or_undefined (Headers_get request_headers name) = header name).
  { intros name. unfold or_undefined, header, truthy_str.
    destruct (Headers_get request_headers name) as [value|]; [|reflexivity].
    now destruct (String.eqb value ""). }
  assert (Hcreds : creds
                   = {| username := header "X-Bitbucket-Username";
                        appPassword := header "X-Bitbucket-App-Password";
                        accessToken := header "X-Bitbucket-Access-Token";
                        baseUrl := header "X-Bitbucket-Base-URL" |}).
  { subst creds. unfold parseTenantCredentials. now rewrite !Hheader. }
  assert (Hvalue : forall name value,
             header name = Some value -> String.eqb value "" = false).
  { intros name value. unfold header.
    destruct (Headers_get request_headers name) as [found|]; [|discriminate].
    destruct (String.eqb found "") eqn:Hfound; [discriminate|].
    now intros [= <-]. }
  assert (Htruthy : forall name, truthy_str (header name) = present (header name)).
  { intros name. destruct (header name) as [value|] eqn:Hname; [|reflexivity].
    cbn [truthy_str present]. now rewrite (Hvalue name value Hname). }
  assert (Hvalidate : validateCredentials creds
                      = (if accepted then Ret tt else Throw missing_credentials)).
  { rewrite Hcreds. unfold validateCredentials.
    cbn [username appPassword accessToken]. rewrite !Htruthy. subst accepted.
    destruct (present (header "X-Bitbucket-Access-Token")),
      (present (header "X-Bitbucket-Username")),
      (present (header "X-Bitbucket-App-Password")); reflexivity. }
  split; [exact Hcreds|]. split; [exact Hvalue|]. split; [exact Hvalidate|].
  split; [|split].
  - unfold mcp_setup. fold creds. rewrite Hvalidate.
    now destruct accepted.
  - rewrite Hcreds at 1. unfold constructor. cbn [client_baseUrl baseUrl].
    rewrite Htruthy. now destruct (header "X-Bitbucket-Base-URL").
  - subst creds. unfold parseTenantCredentials.
    now rewrite !Headers_get_lower_names.
Qed.

(** A request that carries the access token under a lower-case header
    name, and an empty username header. *)
Lemma parsed_credentials_follow_the_headers_witness :
  parseTenantCredentials
    [("x-bitbucket-access-token", "oauth-token"); ("X-Bitbucket-Username", "")]
  = {| username := None; appPassword := None;
       accessToken := Some "oauth-token"; baseUrl := None |}
  /\ mcp_setup
       [("x-bitbucket-access-token", "oauth-token"); ("X-Bitbucket-Username", "")]
     = Ret (Serving
              {| credentials :=
                   {| username := None; appPassword := None;
                      accessToken := Some "oauth-token"; baseUrl := None |};
                 client_baseUrl := "https://api.bitbucket.org/2.0" |}).
Proof.
  destruct (parsed_credentials_follow_the_headers
              [("x-bitbucket-access-token", "oauth-token");
               ("X-Bitbucket-Username", "")])
    as (Hcreds & _ & _ & Hsetup & _ & _).
  split; [exact Hcreds | exact Hsetup].
Defined.

Section SentRequests.

Context {runtime : Runtime}.

(** X8: nothing is sent without an [Authorization] header.  When
    [getAuthHeaders] throws, [request] and [requestRaw] throw the same
    error and make no call; otherwise each makes one call, to the base URL
    followed by the endpoint, whose headers have an [Authorization] entry,
    and that entry is the Bearer or Basic value of the credentials unless
    the caller's own headers name [Authorization]. *)
Theorem sent_requests_carry_authorization :
  forall (this : BitbucketClientImpl) (net : Network) (endpoint : string)
         (options : RequestInit),
    match getAuthHeaders this with
    | Throw error =>
        request this net endpoint options = Throw error
        /\ requestRaw this net endpoint options = Throw error
    | Ret auth =>
        let call := fetch_call this auth endpoint options in
        let raw_call := raw_fetch_call this auth endpoint options in
        request this net endpoint options = bind (net call) read_response
        /\ requestRaw this net endpoint options
           = bind (net raw_call) read_raw_response
        /\ fetch_url call = client_baseUrl this ++ endpoint
        /\ fetch_url raw_call = client_baseUrl this ++ endpoint
        /\ (exists value,
               Headers_get (headers (fetch_init call)) "Authorization" = Some value)
        /\ (exists value,
               Headers_get (headers (fetch_init raw_call)) "Authorization"
               = Some value)
        /\ (Forall (fun h => String.eqb (toLowerCase (fst h)) "authorization" = false)
              (headers options) ->
            exists value,
              Headers_get (headers (fetch_init call)) "Authorization" = Some value
              /\ Headers_get (headers (fetch_init raw_call)) "Authorization"
                 = Some value
              /\ (value = "Bearer " ++ template_str (accessToken (credentials this))
                  \/ value
                     = "Basic " ++ btoa (template_str (username (credentials this))
                                         ++ ":"
                                         ++ template_str (appPassword (credentials this)))))
    end.
Proof.
  intros this net endpoint options.
  destruct (getAuthHeaders this) as [auth|error] eqn:Hauth.
  - destruct (getAuthHeaders_authorization this auth Hauth) as [value [Hget Hvalue]].
    cbv zeta. unfold request, requestRaw. rewrite Hauth.
    cbn [bind fetch_call raw_fetch_call fetch_url fetch_init headers].
    assert (Hraw : exists value',
               Headers_get (spread auth [("Accept", "text/plain")]) "Authorization"
               = Some value')
      by (eapply Headers_get_spread_found; exact Hget).
    destruct Hraw as [value' Hraw].
    repeat split.
    + eapply Headers_get_spread_found; exact Hget.
    + eapply Headers_get_spread_found; exact Hraw.
    + intros Hown. exists value. repeat split.
      * now rewrite Headers_get_spread_kept.
      * rewrite Headers_get_spread_kept by exact Hown.
        rewrite Headers_get_spread_kept; [exact Hget|].
        repeat constructor.
      * exact Hvalue.
  - unfold request, requestRaw. rewrite Hauth. now split.
Qed.

(** The message of a [BitbucketApiError] is truthy: never [undefined],
    [null], empty, zero or [false]. *)
Lemma api_error_message_truthy (response : Response) :
  truthy (api_error_message response) = true.
Proof.
  unfold api_error_message.
  set (message := VStr ("API error: " ++ Z_to_string (status response))).
  assert (Hmessage : truthy message = true) by reflexivity.
  assert (Hor : forall a b, truthy b = true -> truthy (or_else a b) = true).
  { intros a b Hb. unfold or_else. now destruct (truthy a) eqn:Ha. }
  destruct (JSON_parse (response_body response)) as [errorJson|]; [|exact Hmessage].
  destruct (get errorJson "error") as [error|]; [|exact Hmessage].
  now repeat apply Hor.
Qed.

(** X9: what [request] makes of a response is decided by the status.  It
    returns a value only for a 2xx status, [undefined] for 204 whatever
    the body; 429 is the only source of a [RateLimitError], 401 and 403
    the only ones of an [AuthenticationError]; a [BitbucketApiError]
    carries the status of the response, which is then none of 2xx, 401,
    403 and 429, and a truthy message; any other error is the
    [SyntaxError] of a 2xx response whose body is not JSON. *)
Theorem read_response_classifies_by_status :
  forall (response : Response),
    match read_response response with
    | Ret value =>
        ok response = true
        /\ (status response = 204 -> value = VUndefined)
    | Throw (RateLimitError _ _) => status response = 429
    | Throw (AuthenticationError message) =>
        (status response = 401 \/ status response = 403)
        /\ AuthenticationError message = authentication_failed
    | Throw (BitbucketApiError message statusCode) =>
        statusCode = status response
        /\ ok response = false
        /\ statusCode <> 401 /\ statusCode <> 403 /\ statusCode <> 429
        /\ truthy message = true
    | Throw (OtherError name _) =>
        name = "SyntaxError" /\ ok response = true /\ status response <> 204
    | Throw (TypeError _) | Throw (ThrownValue _) => False
    end.
Proof.
  intros response. unfold read_response, rate_limited, authentication_failed.
  destruct (Z.eqb_spec (status response) 429) as [H429|H429]; [exact H429|].
  destruct (Z.eqb_spec (status response) 401) as [H401|H401];
    [cbn [orb]; split; [now left | reflexivity]|].
  destruct (Z.eqb_spec (status response) 403) as [H403|H403];
    [cbn [orb]; split; [now right | reflexivity]|].
  cbn [orb].
  destruct (ok response) eqn:Hok; cbn [negb].
  - destruct (Z.eqb_spec (status response) 204) as [H204|H204];
      [now split|].
    destruct (includes "text/plain" _ || includes "text/x-diff" _);
      [split; [reflexivity | intros H; now elim H204]|].
    destruct (JSON_parse (response_body response));
      [split; [reflexivity | intros H; now elim H204]|].
    now repeat split.
  - repeat split; try assumption. apply api_error_message_truthy.
Qed.

End SentRequests.

Section ConnectionFacts.

Context {runtime : Runtime} {errors : ErrorsModule}.

(** X10: [testConnection] never throws: it reports a connection exactly
    when the request for [/user] returns, and otherwise the message of
    the error.  The handler of [bitbucket_test_connection] therefore
    never reaches its [catch] block: a failed connection is answered
    with the report [{ connected: false, ... }] and no error flag. *)
Theorem test_connection_never_flags_an_error :
  forall (client : BitbucketClientImpl) (net : Network),
    exists (result : ConnectionStatus),
      testConnection client net = Ret result
      /\ (connected result = true
          <-> exists value, request client net "/user" no_options = Ret value)
      /\ (connected result = true ->
          connection_message result = "Successfully connected to Bitbucket")
      /\ (forall error,
             request client net "/user" no_options = Throw error ->
             connected result = false
             /\ connection_message result
                = (if instanceof_Error error then error_message error
                   else "Connection failed"))
      /\ test_connection_tool client net
         = Ret {| content := [{| text := JSON_stringify (status_value result) |}];
                  isError := None |}.
Proof.
  intros client net. unfold test_connection_tool, testConnection.
  destruct (request client net "/user" no_options) as [value|error]; cbn.
  - eexists. split; [reflexivity|]. cbn.
    split; [split; [intros _; now exists value | reflexivity]|].
    split; [reflexivity|].
    split; [intros e He; discriminate He | reflexivity].
  - eexists. split; [reflexivity|]. cbn.
    split; [split; [intros H | intros [value H]]; discriminate H|].
    split; [intros H; discriminate H|].
    split; [intros e [= <-]; now split | reflexivity].
Qed.

End ConnectionFacts.

(* ================================================================== *)
(** * Tables, whatever the items                                       *)
(* ================================================================== *)

Section TableFacts.

Lemma bind_Ret_inv {A B : Type} (m : result A) (k : A -> result B) (b : B) :
  bind m k = Ret b -> exists a, m = Ret a /\ k a = Ret b.
Proof. destruct m as [a|e]; simpl; [now exists a | discriminate]. Qed.

(** The loop of a table formatter, whatever the rows do. *)
Lemma push_rows_outcome (row : Value -> result string) (items : list Value) :
  forall lines,
    match push_rows row items lines with
    | Ret out =>
        exists rows,
          Forall2 (fun item line => row item = Ret line) items rows
          /\ out = List.app lines rows
    | Throw error =>
        exists before item after,
          items = List.app before (item :: after)
          /\ Forall (fun earlier => exists line, row earlier = Ret line) before
          /\ row item = Throw error
    end.
Proof.
  induction items as [|item rest IH]; intros lines.
  - exists []. split; [constructor | now rewrite app_nil_r].
  - cbn [push_rows]. destruct (row item) as [line|error] eqn:Hrow; cbn [bind].
    + specialize (IH (List.app lines [line])).
      destruct (push_rows row rest (List.app lines [line])) as [out|error].
      * destruct IH as [rows [Hrows ->]]. exists (line :: rows). split.
        -- now constructor.
        -- now rewrite <- app_assoc.
      * destruct IH as [before [failing [after [-> [Hbefore Hfail]]]]].
        exists (item :: before), failing, after. repeat split.
        -- constructor; [now exists line | exact Hbefore].
        -- exact Hfail.
    + exists [], item, rest. repeat split; [constructor | exact Hrow].
Qed.

Lemma length_take (n : nat) (s : string) : (String.length (take n s) <= n)%nat.
Proof.
  revert s. induction n as [|n IH]; intros [|c s]; simpl; try lia.
  specialize (IH s). lia.
Qed.

Lemma count_char_take (c : ascii) (n : nat) (s : string) :
  (count_char c (take n s) <= count_char c s)%nat.
Proof.
  revert s. induction n as [|n IH]; intros [|x s]; simpl; try lia.
  specialize (IH s). lia.
Qed.

Lemma first_line_has_no_line_feed (s : string) :
  count_char LF_char (first_line s) = O.
Proof.
  induction s as [|c s IH]; [reflexivity|].
  cbn [first_line]. fold LF_char.
  destruct (Ascii.eqb c LF_char) eqn:Hc; [reflexivity|].
  cbn [count_char]. now rewrite Hc, IH.
Qed.

End TableFacts.

(** X11: every table formatter ([formatWorkspacesTable] to
    [formatCommentsTable], and the generic one) runs the same loop.  When
    it returns, the text is the header, the rule and one row per item in
    the order of the items, joined by line feeds; when it throws, the
    error is that of the first item whose row fails, and every item
    before it has a row. *)
Theorem table_has_one_row_per_item :
  forall (header rule : string) (row : Value -> result string)
         (items : list Value),
    match table header rule row items with
    | Ret rendered =>
        exists rows,
          Forall2 (fun item line => row item = Ret line) items rows
          /\ rendered = join LF (header :: rule :: rows)
    | Throw error =>
        exists before item after,
          items = List.app before (item :: after)
          /\ Forall (fun earlier => exists line, row earlier = Ret line) before
          /\ row item = Throw error
    end.
Proof.
  intros header rule row items. unfold table.
  pose proof (push_rows_outcome row items [header; rule]) as Hloop.
  destruct (push_rows row items [header; rule]) as [out|error]; cbn [bind].
  - destruct Hloop as [rows [Hrows ->]]. now exists rows.
  - exact Hloop.
Qed.

Section GenericTable.

Context {runtime : Runtime}.

Lemma generic_cells_length (record : Value) (keys : list string) :
  forall cells,
    generic_cells record keys = Ret cells ->
    List.length cells = List.length keys.
Proof.
  induction keys as [|k rest IH]; intros cells.
  - now intros [= <-].
  - cbn [generic_cells]. intros H.
    apply bind_Ret_inv in H. destruct H as [cell [_ H]].
    apply bind_Ret_inv in H. destruct H as [others [Hothers H]].
    injection H as <-. cbn [List.length]. f_equal. now apply IH.
Qed.

(** X12: the generic table takes its columns from the first item alone:
    the first five of its keys, in their order.  Every row, of whatever
    item, has one cell per column.  Without items the text is
    [_No items_]; and what the function throws is a [TypeError]. *)
Theorem formatGenericTable_columns_of_first_item :
  forall (first : Value) (rest : list Value),
    formatGenericTable [] = Ret "_No items_"
    /\ match formatGenericTable (first :: rest) with
       | Ret rendered =>
           exists all_keys rows,
             Object_keys first = Ret all_keys
             /\ (List.length (firstn 5 all_keys) <= 5)%nat
             /\ rendered = Layout.markdown_table (firstn 5 all_keys) rows
             /\ List.length rows = S (List.length rest)
             /\ Forall2
                  (fun item line =>
                     exists cells,
                       generic_cells item (firstn 5 all_keys) = Ret cells
                       /\ List.length cells = List.length (firstn 5 all_keys)
                       /\ line = "| " ++ join " | " cells ++ " |")
                  (first :: rest) rows
       | Throw error => exists message, error = TypeError message
       end.
Proof.
  intros first rest. split; [reflexivity|].
  pose proof (formatGenericTable_type_errors_only (first :: rest)) as Honly.
  destruct (formatGenericTable (first :: rest)) as [rendered|error] eqn:Htable;
    [|exact Honly].
  unfold formatGenericTable in Htable.
  apply bind_Ret_inv in Htable. destruct Htable as [all_keys [Hkeys Htable]].
  set (keys := firstn 5 all_keys) in *.
  unfold table in Htable.
  apply bind_Ret_inv in Htable. destruct Htable as [lines [Hloop Htable]].
  pose proof (push_rows_outcome (generic_row keys) (first :: rest)
                ["| " ++ join " | " keys ++ " |";
                 "|" ++ join "|" (map (fun _ => "---") keys) ++ "|"]) as Hrows.
  rewrite Hloop in Hrows. destruct Hrows as [rows [Hrows ->]].
  injection Htable as <-.
  exists all_keys, rows. repeat split.
  - exact Hkeys.
  - apply firstn_le_length.
  - symmetry. exact (Forall2_length Hrows).
  - eapply Forall2_impl; [|exact Hrows].
    intros item line Hline. unfold generic_row in Hline.
    apply bind_Ret_inv in Hline. destruct Hline as [cells [Hcells Hline]].
    injection Hline as <-. exists cells. repeat split; [exact Hcells|].
    now apply generic_cells_length with (record := item).
Qed.

End GenericTable.

(* ================================================================== *)
(** * Single objects, empty pages and cells                            *)
(* ================================================================== *)

Section ObjectFacts.

Context {runtime : Runtime}.

Lemma entry_lines_without_value (entry : string * Value) :
  has_value entry = false -> entry_lines entry = [].
Proof.
  destruct entry as [key value]. unfold has_value. cbn [snd].
  now destruct value.
Qed.

(** The lines of a field with a value: one line with its text, or the
    key and a fenced JSON block when the value is an object or array. *)
Lemma entry_lines_with_value (entry : string * Value) :
  has_value entry = true ->
  match snd entry with
  | VArr _ | VObj _ =>
      entry_lines entry
      = ["**" ++ formatKey (fst entry) ++ ":**";
         "```json";
         match JSON_stringify (snd entry) with Some text => text | None => "" end;
         "```"]
  | value =>
      exists text,
        ToString value = Ret text
        /\ entry_lines entry = ["**" ++ formatKey (fst entry) ++ ":** " ++ text]
  end.
Proof.
  destruct entry as [key value]. unfold has_value. cbn [snd fst].
  destruct value; try discriminate; intros _; cbn [entry_lines];
    first [reflexivity | eexists; split; reflexivity].
Qed.

(** X13: in the markdown of a single object, a field that is [null] or
    [undefined] leaves no trace: the text is that of the object without
    those fields.  Under a heading with the kind in the singular, every
    other field gives, in the order of the fields, the line
    [**Key:** text] with the text of its value when that is a string, a
    number or a boolean, and the four lines [**Key:**], the opening fence,
    the JSON text of the value and the closing fence when it is an object
    or an array. *)
Theorem formatObjectAsMarkdown_skips_missing_fields :
  forall (data : list (string * Value)) (entityType : string),
    formatObjectAsMarkdown data entityType
    = formatObjectAsMarkdown (filter has_value data) entityType
    /\ exists field_lines,
         formatObjectAsMarkdown data entityType
         = join LF (("## " ++ capitalize (drop_final_s entityType))
                    :: "" :: concat field_lines)
         /\ Forall2
              (fun entry lines =>
                 match snd entry with
                 | VArr _ | VObj _ =>
                     lines
                     = ["**" ++ formatKey (fst entry) ++ ":**";
                        "```json";
                        match JSON_stringify (snd entry) with
                        | Some text => text
                        | None => ""
                        end;
                        "```"]
                 | value =>
                     exists text,
                       ToString value = Ret text
                       /\ lines = ["**" ++ formatKey (fst entry) ++ ":** " ++ text]
                 end)
              (filter has_value data) field_lines.
Proof.
  intros data entityType.
  assert (Hfilter : flat_map entry_lines data
                    = flat_map entry_lines (filter has_value data)).
  { induction data as [|entry rest IH]; [reflexivity|].
    cbn [flat_map filter]. destruct (has_value entry) eqn:Hentry.
    - cbn [flat_map]. now rewrite IH.
    - now rewrite (entry_lines_without_value entry Hentry). }
  split.
  - unfold formatObjectAsMarkdown. now rewrite Hfilter.
  - exists (map entry_lines (filter has_value data)). split.
    + unfold formatObjectAsMarkdown. rewrite Hfilter, flat_map_concat_map.
      reflexivity.
    + clear Hfilter. induction data as [|entry rest IH]; [constructor|].
      cbn [filter]. destruct (has_value entry) eqn:Hentry; [|exact IH].
      cbn [map]. constructor; [|exact IH].
      pose proof (entry_lines_with_value entry Hentry) as Hlines.
      destruct (snd entry); try exact Hlines;
        destruct Hlines as [text [Htext Hlines]]; exists text; now split.
Qed.

End ObjectFacts.

(** X14: a page without items is rendered in markdown as its heading
    followed by [_No items found._], for every kind: no table formatter
    is consulted, nothing is thrown, and the tool handler answers
    without the error flag. *)
Theorem empty_page_renders_placeholder :
  forall (runtime : Runtime) (errors : ErrorsModule)
         (page : PaginatedResponse.t Value) (entityType : string),
    PaginatedResponse.items page = [] ->
    let rendered :=
      join LF (List.app (Layout.page_heading_lines entityType page)
                 ["_No items found._"]) in
    formatAsMarkdown (page_value page) entityType = Ret rendered
    /\ formatting_handler (Ret (page_value page)) markdown entityType
       = Ret {| content := [{| text := Some rendered |}]; isError := None |}.
Proof.
  intros runtime errors page entityType Hempty rendered.
  assert (Hmarkdown : formatAsMarkdown (page_value page) entityType = Ret rendered).
  { unfold formatAsMarkdown.
    change (isPaginatedResponse (page_value page))
      with (Some (PaginatedResponse.items page)).
    unfold formatPaginatedAsMarkdown. rewrite page_heading_of_page. cbn [bind].
    now rewrite Hempty. }
  split; [exact Hmarkdown|].
  unfold formatting_handler, formatResponse. cbn [bind].
  now rewrite Hmarkdown.
Qed.

Lemma empty_page_renders_placeholder_witness :
  PaginatedResponse.items (emptyPaginatedResponse (T := Value)) = []
  /\ formatAsMarkdown (runtime := Sample.runtime)
       (page_value emptyPaginatedResponse) "issues"
     = Ret (join LF ["## Issues"; ""; "**Showing:** 0"; ""; "_No items found._"]).
Proof.
  split; [reflexivity|].
  apply (empty_page_renders_placeholder Sample.runtime Sample.errors
           emptyPaginatedResponse "issues").
  reflexivity.
Defined.

Section CellFacts.

Context {runtime : Runtime}.

(** X15: in a row of the commits table the hash cell has at most 7 code
    units and the message cell at most 50 and no line feed, so a message
    of several lines cannot break the row; in a row of the comments
    table the content cell has at most 50 code units. *)
Theorem commit_and_comment_cells_are_bounded :
  forall (item : Value),
    match commit_row item with
    | Ret row =>
        exists hash message author date,
          row = "| " ++ hash ++ " | " ++ message ++ " | " ++ author ++ " | "
                ++ date ++ " |"
          /\ (String.length hash <= 7)%nat
          /\ (String.length message <= 50)%nat
          /\ count_char LF_char message = O
    | Throw error => exists message, error = TypeError message
    end
    /\ match comment_row item with
       | Ret row =>
           exists id author content created,
             row = "| " ++ id ++ " | " ++ author ++ " | " ++ content ++ " | "
                   ++ created ++ " |"
             /\ (String.length content <= 50)%nat
       | Throw error => exists message, error = TypeError message
       end.
Proof.
  intros item. split.
  - assert (Honly : type_errors_only (commit_row item)).
    { unfold commit_row, first_line_50.
      type_errors; apply date_cell_type_errors_only. }
    destruct (commit_row item) as [row|error] eqn:Hrow; [|exact Honly].
    clear Honly.
    unfold commit_row in Hrow.
    apply bind_Ret_inv in Hrow. destruct Hrow as [hash_value [_ Hrow]].
    apply bind_Ret_inv in Hrow. destruct Hrow as [hash [Hhash Hrow]].
    apply bind_Ret_inv in Hrow. destruct Hrow as [message_value [_ Hrow]].
    apply bind_Ret_inv in Hrow. destruct Hrow as [message [Hmessage Hrow]].
    apply bind_Ret_inv in Hrow. destruct Hrow as [author_value [_ Hrow]].
    apply bind_Ret_inv in Hrow. destruct Hrow as [date_value [_ Hrow]].
    apply bind_Ret_inv in Hrow. destruct Hrow as [date [_ Hrow]].
    apply bind_Ret_inv in Hrow. destruct Hrow as [author [_ Hrow]].
    injection Hrow as <-.
    exists hash, message, author, date. split; [reflexivity|].
    split.
    + destruct hash_value as [ | | | | text | | ]; try discriminate Hhash.
      assert (Hcut : hash = take 7 text) by (cbn [substring0] in Hhash; congruence).
      rewrite Hcut. apply length_take.
    + unfold first_line_50 in Hmessage.
      destruct (or_else message_value (VStr "-")) as [ | | | | text | | ];
        try discriminate Hmessage.
      assert (Hcut : message = take 50 (first_line text)) by congruence.
      rewrite Hcut. split; [apply length_take|].
      pose proof (count_char_take LF_char 50 (first_line text)) as Hle.
      rewrite first_line_has_no_line_feed in Hle. lia.
  - assert (Honly : type_errors_only (comment_row item)).
    { unfold comment_row, comment_content, field_text.
      type_errors; apply date_cell_type_errors_only. }
    destruct (comment_row item) as [row|error] eqn:Hrow; [|exact Honly].
    clear Honly.
    unfold comment_row in Hrow.
    apply bind_Ret_inv in Hrow. destruct Hrow as [user [_ Hrow]].
    apply bind_Ret_inv in Hrow. destruct Hrow as [content_value [_ Hrow]].
    apply bind_Ret_inv in Hrow. destruct Hrow as [content [Hcontent Hrow]].
    apply bind_Ret_inv in Hrow. destruct Hrow as [created_on [_ Hrow]].
    apply bind_Ret_inv in Hrow. destruct Hrow as [created [_ Hrow]].
    apply bind_Ret_inv in Hrow. destruct Hrow as [id [_ Hrow]].
    apply bind_Ret_inv in Hrow. destruct Hrow as [author [_ Hrow]].
    injection Hrow as <-.
    exists id, author, content, created. split; [reflexivity|].
    unfold comment_content in Hcontent.
    destruct (or_else (get_opt content_value "raw") (VStr "-"))
      as [ | | | | text | | ]; try discriminate Hcontent.
    assert (Hcut : content = take 50 text)
      by (cbn [substring0] in Hcontent; congruence).
    rewrite Hcut. apply length_take.
Qed.

End CellFacts.

(* ================================================================== *)
(** * Keys as headings                                                 *)
(* ================================================================== *)

Section KeyFacts.

Lemma count_char_rev_string_onto (c : ascii) (s acc : string) :
  count_char c (rev_string_onto s acc) = (count_char c s + count_char c acc)%nat.
Proof.
  revert acc. induction s as [|x s IH]; intros acc; [reflexivity|].
  cbn [rev_string_onto]. rewrite IH. cbn [count_char]. lia.
Qed.

Lemma count_char_trimStart (c : ascii) (s : string) :
  (count_char c (trimStart s) <= count_char c s)%nat.
Proof.
  induction s as [|x s IH]; [reflexivity|].
  cbn [trimStart]. destruct (is_space x); [|lia].
  cbn [count_char]. lia.
Qed.

Lemma count_char_trim (c : ascii) (s : string) :
  (count_char c (trim s) <= count_char c s)%nat.
Proof.
  unfold trim, rev_string.
  rewrite count_char_rev_string_onto. cbn [count_char].
  pose proof (count_char_trimStart c (rev_string_onto (trimStart s) "")) as H1.
  rewrite count_char_rev_string_onto in H1. cbn [count_char] in H1.
  pose proof (count_char_trimStart c s) as H2. lia.
Qed.

Lemma upper_char_underscore (c : ascii) :
  Ascii.eqb (upper_char c) "_" = Ascii.eqb c "_".
Proof. destruct c as [[] [] [] [] [] [] [] []]; reflexivity. Qed.

Lemma count_underscore_upper_first (s : string) :
  count_char "_" (upper_first s) = count_char "_" s.
Proof.
  destruct s as [|c rest]; [reflexivity|]. cbn [upper_first].
  destruct (Ascii.eqb c (ascii_of_nat 10) || Ascii.eqb c (ascii_of_nat 13));
    [reflexivity|].
  cbn [count_char]. now rewrite upper_char_underscore.
Qed.

Lemma count_underscore_space_before_capitals (s : string) :
  count_char "_" (space_before_capitals s) = count_char "_" s.
Proof.
  induction s as [|c s IH]; [reflexivity|].
  cbn [space_before_capitals]. destruct (is_upper c); cbn [count_char];
    rewrite IH; reflexivity.
Qed.

Lemma count_underscore_underscores_to_spaces (s : string) :
  count_char "_" (underscores_to_spaces s) = O.
Proof.
  induction s as [|c s IH]; [reflexivity|].
  unfold underscores_to_spaces in *. cbn [map_string count_char]. rewrite IH.
  destruct (Ascii.eqb c "_") eqn:Hc; [reflexivity | now rewrite Hc].
Qed.

Lemma rev_string_onto_twice (s a b : string) :
  rev_string_onto (rev_string_onto s a) b = rev_string_onto a (s ++ b).
Proof.
  revert a b. induction s as [|c s IH]; intros a b; [reflexivity|].
  cbn [rev_string_onto]. rewrite IH. reflexivity.
Qed.

Lemma rev_string_onto_last (s acc : string) (d : ascii) :
  last_char s = Some d ->
  exists tail, rev_string_onto s acc = String d tail.
Proof.
  revert acc. induction s as [|c s IH]; intros acc; [discriminate|].
  destruct s as [|c' s'].
  - intros [= <-]. now exists acc.
  - intros Hlast. cbn [rev_string_onto]. apply (IH (String c acc)). exact Hlast.
Qed.

(** [trim] leaves alone a text that neither starts nor ends with white
    space. *)
Lemma trim_fixed (c d : ascii) (rest : string) :
  is_space c = false ->
  last_char (String c rest) = Some d -> is_space d = false ->
  trim (String c rest) = String c rest.
Proof.
  intros Hc Hlast Hd. unfold trim. cbn [trimStart]. rewrite Hc.
  unfold rev_string at 2.
  destruct (rev_string_onto_last (String c rest) "" d Hlast) as [tail Htail].
  rewrite Htail. cbn [trimStart]. rewrite Hd, <- Htail.
  unfold rev_string. rewrite rev_string_onto_twice. cbn [rev_string_onto].
  apply append_empty.
Qed.

Lemma last_char_space_before_capitals (s : string) :
  last_char (space_before_capitals s) = last_char s.
Proof.
  induction s as [|c s IH]; [reflexivity|].
  cbn [space_before_capitals].
  destruct s as [|c' s'].
  - now destruct (is_upper c).
  - assert (Hnext : exists x tail,
               space_before_capitals (String c' s') = String x tail).
    { cbn [space_before_capitals]. destruct (is_upper c'); now do 2 eexists. }
    destruct Hnext as [x [tail Hnext]].
    change (last_char (String c (String c' s'))) with (last_char (String c' s')).
    rewrite <- IH, Hnext. now destruct (is_upper c).
Qed.

Lemma last_char_map_string (f : ascii -> ascii) (s : string) :
  last_char (map_string f s) = option_map f (last_char s).
Proof.
  induction s as [|c s IH]; [reflexivity|].
  destruct s as [|c' s']; [reflexivity|].
  change (last_char (String c (String c' s'))) with (last_char (String c' s')).
  rewrite <- IH. reflexivity.
Qed.

Lemma last_char_nonempty (c : ascii) (s : string) :
  exists d, last_char (String c s) = Some d.
Proof.
  revert c. induction s as [|x s IH]; intros c; [now exists c|].
  destruct (IH x) as [d Hd]. exists d. exact Hd.
Qed.

Lemma last_char_cons (c : ascii) (s : string) :
  last_char (String c s)
  = Some (match last_char s with Some d => d | None => c end).
Proof.
  destruct s as [|x s]; [reflexivity|].
  change (last_char (String c (String x s))) with (last_char (String x s)).
  destruct (last_char_nonempty x s) as [d Hd]. now rewrite Hd.
Qed.

Lemma last_char_all_chars (p : ascii -> bool) (s : string) (d : ascii) :
  all_chars p s = true -> last_char s = Some d -> p d = true.
Proof.
  induction s as [|c s IH]; [discriminate|].
  cbn [all_chars]. intros Hall. apply andb_true_iff in Hall.
  destruct Hall as [Hc Hall]. destruct s as [|c' s'].
  - now intros [= <-].
  - intros Hlast. now apply IH.
Qed.

Lemma letter_or_digit_is_no_space (c : ascii) :
  is_upper c || is_lower c || is_digit c = true -> is_space c = false.
Proof. destruct c as [[] [] [] [] [] [] [] []]; vm_compute; congruence. Qed.

Lemma lower_or_digit_first (c : ascii) :
  is_lower c || is_digit c = true ->
  Ascii.eqb c "_" = false /\ is_upper c = false
  /\ Ascii.eqb c (ascii_of_nat 10) || Ascii.eqb c (ascii_of_nat 13) = false
  /\ is_space (upper_char c) = false.
Proof. destruct c as [[] [] [] [] [] [] [] []]; vm_compute; intuition congruence. Qed.

End KeyFacts.

(** X16: the heading [formatKey] makes of a key has no underscore.  For a
    key in snake_case or camelCase it is the key with every underscore
    replaced by a space, a space put before every capital and the first
    letter in upper case; trimming changes nothing there. *)
Theorem formatKey_of_identifier :
  forall (key : string),
    count_char "_" (formatKey key) = O
    /\ (identifier key = true ->
        formatKey key
        = capitalize (space_before_capitals (underscores_to_spaces key))).
Proof.
  intros key. split.
  - unfold formatKey.
    pose proof (count_char_trim "_"
                  (upper_first (space_before_capitals (underscores_to_spaces key))))
      as Hle.
    rewrite count_underscore_upper_first, count_underscore_space_before_capitals,
      count_underscore_underscores_to_spaces in Hle.
    lia.
  - unfold identifier. intros Hkey.
    apply andb_true_iff in Hkey. destruct Hkey as [Hkey Hlast].
    apply andb_true_iff in Hkey. destruct Hkey as [Hall Hfirst].
    destruct key as [|c rest]; [discriminate Hfirst|].
    destruct (lower_or_digit_first c Hfirst) as [Hunder [Hupper [Hline Hspace]]].
    destruct (last_char (String c rest)) as [d|] eqn:Hd; [|discriminate Hlast].
    pose proof (last_char_all_chars _ _ d Hall Hd) as Hclass.
    cbv beta in Hclass.
    apply negb_true_iff in Hlast. rewrite Hlast, orb_false_r in Hclass.
    unfold formatKey, underscores_to_spaces.
    cbn [map_string space_before_capitals]. rewrite Hunder, Hupper.
    cbn [upper_first capitalize]. rewrite Hline.
    set (tail := space_before_capitals
                   (map_string (fun x => if Ascii.eqb x "_" then " "%char else x)
                      rest)).
    assert (Htail : last_char tail
                    = option_map (fun x => if Ascii.eqb x "_" then " "%char else x)
                        (last_char rest))
      by (unfold tail; now rewrite last_char_space_before_capitals,
                             last_char_map_string).
    rewrite last_char_cons in Hd.
    apply trim_fixed
      with (d := match last_char tail with Some e => e | None => upper_char c end).
    + exact Hspace.
    + apply last_char_cons.
    + rewrite Htail. destruct (last_char rest) as [e|]; [|exact Hspace].
      injection Hd as ->. cbn [option_map]. rewrite Hlast.
      now apply letter_or_digit_is_no_space.
Qed.

Lemma formatKey_of_identifier_witness :
  identifier "created_on" = true
  /\ formatKey "created_on" = "Created on"
  /\ identifier "fullName" = true
  /\ formatKey "fullName" = "Full Name".
Proof.
  split; [reflexivity|]. split.
  - apply (proj2 (formatKey_of_identifier "created_on")). reflexivity.
  - split; [reflexivity|].
    apply (proj2 (formatKey_of_identifier "fullName")). reflexivity.
Defined.

Section StatusCells.

Context {runtime : Runtime}.

Lemma get_returns_field (v : Value) (field : string) (x : Value) :
  get v field = Ret x -> x = get_opt v field.
Proof. destruct v; simpl; intros H; congruence. Qed.

Lemma Array_join_strings (sep : string) (names : list string) :
  Array_join sep (map VStr names) = Ret (join sep names).
Proof.
  induction names as [|name rest IH]; [reflexivity|].
  destruct rest as [|next rest']; [reflexivity|].
  change (Array_join sep (map VStr (name :: next :: rest')))
    with (bind (element_text (VStr name))
            (fun s => bind (Array_join sep (map VStr (next :: rest')))
                        (fun t => Ret (s ++ sep ++ t)))).
  rewrite IH. reflexivity.
Qed.

(** X17: in a row of the pipelines table the duration cell is [-] when
    the pipeline has no duration and also when the duration is 0 seconds;
    for any other whole number [d] of seconds it is the floor of [d / 60]
    in minutes and the remainder in seconds. *)
Theorem pipeline_duration_cell :
  forall (item : Value),
    match pipeline_row item with
    | Ret row =>
        exists build state target duration created,
          row = "| #" ++ build ++ " | " ++ state ++ " | " ++ target ++ " | "
                ++ duration ++ " | " ++ created ++ " |"
          /\ (nullish (get_opt item "duration_in_seconds") = true ->
              duration = "-")
          /\ (forall d,
                 get_opt item "duration_in_seconds" = VNum d ->
                 duration
                 = if d =? 0 then "-"
                   else Z_to_string (d / 60) ++ "m "
                        ++ Z_to_string (Z.rem d 60) ++ "s")
    | Throw error => exists message, error = TypeError message
    end.
Proof.
  intros item.
  assert (Honly : type_errors_only (pipeline_row item)).
  { unfold pipeline_row, minutes_seconds, field_text.
    type_errors;
      first [apply date_cell_type_errors_only | apply ToNumber_type_errors_only]. }
  destruct (pipeline_row item) as [row|error] eqn:Hrow; [|exact Honly].
  clear Honly. unfold pipeline_row in Hrow.
  apply bind_Ret_inv in Hrow. destruct Hrow as [state_value [_ Hrow]].
  apply bind_Ret_inv in Hrow. destruct Hrow as [target_value [_ Hrow]].
  apply bind_Ret_inv in Hrow. destruct Hrow as [seconds [Hseconds Hrow]].
  apply bind_Ret_inv in Hrow. destruct Hrow as [duration [Hduration Hrow]].
  apply bind_Ret_inv in Hrow. destruct Hrow as [created_on [_ Hrow]].
  apply bind_Ret_inv in Hrow. destruct Hrow as [created [_ Hrow]].
  apply bind_Ret_inv in Hrow. destruct Hrow as [build [_ Hrow]].
  apply bind_Ret_inv in Hrow. destruct Hrow as [state [_ Hrow]].
  apply bind_Ret_inv in Hrow. destruct Hrow as [target [_ Hrow]].
  assert (Hrendered : row = "| #" ++ build ++ " | " ++ state ++ " | " ++ target
                            ++ " | " ++ duration ++ " | " ++ created ++ " |")
    by congruence.
  apply get_returns_field in Hseconds.
  exists build, state, target, duration, created.
  split; [exact Hrendered|]. rewrite <- Hseconds. split.
  - intros Hnone. destruct seconds; try discriminate Hnone;
      cbn [truthy] in Hduration; congruence.
  - intros d ->. cbn [truthy] in Hduration.
    destruct (d =? 0); cbn [negb] in Hduration; [congruence|].
    unfold minutes_seconds in Hduration.
    cbn [ToNumber bind Number_to_string] in Hduration. congruence.
Qed.

(** X18: in a row of the webhooks table the events cell lists the event
    names separated by a comma and a space; it is [-] when the webhook
    has no [events] field and when the list is empty.  The active cell is
    [Yes] or [No]. *)
Theorem webhook_events_cell :
  forall (item : Value),
    match webhook_row item with
    | Ret row =>
        exists uuid url active events,
          row = "| " ++ uuid ++ " | " ++ url ++ " | " ++ active ++ " | "
                ++ events ++ " |"
          /\ active = (if truthy (get_opt item "active") then "Yes" else "No")
          /\ (nullish (get_opt item "events") = true -> events = "-")
          /\ (forall names,
                 get_opt item "events" = VArr (map VStr names) ->
                 events = if String.eqb (join ", " names) "" then "-"
                          else join ", " names)
    | Throw error => exists message, error = TypeError message
    end.
Proof.
  intros item.
  assert (Honly : type_errors_only (webhook_row item)).
  { unfold webhook_row, events_cell, field_text. type_errors. }
  destruct (webhook_row item) as [row|error] eqn:Hrow; [|exact Honly].
  clear Honly. unfold webhook_row in Hrow.
  apply bind_Ret_inv in Hrow. destruct Hrow as [events_value [Hvalue Hrow]].
  apply bind_Ret_inv in Hrow. destruct Hrow as [events [Hevents Hrow]].
  apply bind_Ret_inv in Hrow. destruct Hrow as [uuid [_ Hrow]].
  apply bind_Ret_inv in Hrow. destruct Hrow as [url [_ Hrow]].
  apply bind_Ret_inv in Hrow. destruct Hrow as [active [Hactive Hrow]].
  apply get_returns_field in Hvalue. apply get_returns_field in Hactive.
  exists uuid, url, (if truthy active then "Yes" else "No"), events.
  split; [congruence|]. rewrite <- Hvalue, <- Hactive.
  split; [reflexivity|]. split.
  - intros Hnone. destruct events_value; try discriminate Hnone;
      cbn [events_cell] in Hevents; congruence.
  - intros names ->. cbn [events_cell] in Hevents.
    rewrite Array_join_strings in Hevents. cbn [bind] in Hevents. congruence.
Qed.

End StatusCells.
